(** * LMAY validator and maintenance engine: a shallow embedding

    The development follows the JavaScript sources of the toolchain:
    - [yaml-validator.js], class [YAMLValidator]        (modules [YAMLValidator]
      and [YAMLChecks]),
    - [schema-validator.js], class [SchemaValidator]    (modules [SchemaValidator]
      and [SchemaSemantics]),
    - [tools/validator/src/reference-validator.js]      (module [ReferenceValidator]),
    - [tools/validator/src/validator.js]                (module [LMAYValidator]),
    - [tools/validator/src/cli.js]                      (modules [Cli], [AutoFix]
      and [Batch]),
    - the class [MaintenanceEngine] of the maintenance tool (module [Maintenance]).

    Conventions.
    - Parsed YAML is loosely typed in the source.  Scalars keep their
      JavaScript nature ([Scalar]); mappings are decoded into the record
      [LMAYData], whose optional fields are [None] when the key is absent.
      String-valued fields are strings when present; numbers are integers
      (a fractional number behaves like any integer other than 0 and 1 in
      the tests modelled here).
    - A key or a dash without a value is [null] in YAML.  The entries of
      [structure] and the elements of [entry_points] and of the
      dependency lists are dereferenced without a test in the source;
      they are optional values here, [None] standing for [null], and
      reading a property of [null] throws a [TypeError].
    - Node's [path] module and the [js-yaml] parser are libraries, not
      code of the repository: they are parameters (class [PathOps],
      section variables).
    - Mutable members ([this.errors], [this.fileMap], JS [Set]s) become
      explicit state; thrown exceptions become values of a sum type.
    - The human-readable [message] of a finding is not modelled; the
      machine-stable [type] tag and the structured payload are. *)

From stdpp Require Import base option list sets gmap strings pretty sorting relations.
From Stdlib Require Import Ascii ZArith Lia.

Local Open Scope string_scope.
Local Open Scope list_scope.
Set Warnings "-register-all,-clear-no-such-hyp".

(** ** JavaScript values produced by the YAML parser *)

Inductive Scalar :=
| SUndefined
| SNull
| SBool (b : bool)
| SNum (z : Z)
| SNaN
| SStr (s : string).

#[global] Instance Scalar_eq_dec : EqDecision Scalar.
Proof. solve_decision. Defined.

(** JavaScript truthiness of a scalar ([if (x)], [x && ...], [!x]). *)
Definition scalar_truthy (v : Scalar) : bool :=
  match v with
  | SUndefined | SNull | SNaN => false
  | SBool b => b
  | SNum z => negb (Z.eqb z 0)
  | SStr s => negb (String.eqb s "")
  end.

(** Truthiness of an optional string property: absent ([undefined]) and
    the empty string are falsy. *)
Definition str_truthy (o : option string) : bool :=
  match o with
  | Some s => negb (String.eqb s "")
  | None => false
  end.

(** One entry of the [structure] mapping, when it is not [null]. *)
Record StructureItem := mkItem {
  item_path : option string;
  item_type : option string;
  file_count : Scalar;
  primary_language : option string;
  lmay_file : option string
}.

(** The [hierarchy] mapping. [h_depth = None] is [undefined]. *)
Record Hierarchy := mkHierarchy {
  h_depth : option Z;
  h_parent : option string
}.

(** One element of [architecture.entry_points], when it is not
    [null]. *)
Record EntryPoint := mkEntryPoint {
  ep_file : option string
}.

(** One element of [dependencies.internal], when it is not [null]. *)
Record InternalDependency := mkInternal {
  dep_path : option string
}.

(** A YAML mapping at the top level of an LMAY document, with the
    sections the modelled functions read.  [structure] keeps the
    insertion order of its keys ([Object.entries]); [entry_points] is
    [architecture.entry_points] and [internal_dependencies] is
    [dependencies.internal].  An entry or element that is [None] is
    [null]. *)
Record LMAYData := mkData {
  structure : option (list (string * option StructureItem));
  entry_points : option (list (option EntryPoint));
  internal_dependencies : option (list (option InternalDependency));
  hierarchy : option Hierarchy
}.

(** What [yaml.load] can return. *)
Inductive Yaml :=
| YScalar (s : Scalar)
| YSeq
| YMap (d : LMAYData).

Definition truthy (y : Yaml) : bool :=
  match y with
  | YScalar s => scalar_truthy s
  | YSeq | YMap _ => true
  end.

(** [data && data.structure]: the entries of the structure mapping, when
    the document is truthy and has one. *)
Definition structure_of (y : Yaml) : option (list (string * option StructureItem)) :=
  match y with
  | YMap d => structure d
  | _ => None
  end.

Definition hierarchy_of (y : Yaml) : option Hierarchy :=
  match y with
  | YMap d => hierarchy d
  | _ => None
  end.

Definition entry_points_of (y : Yaml) : option (list (option EntryPoint)) :=
  match y with
  | YMap d => entry_points d
  | _ => None
  end.

Definition internal_dependencies_of (y : Yaml)
    : option (list (option InternalDependency)) :=
  match y with
  | YMap d => internal_dependencies d
  | _ => None
  end.

(** ** Exceptions

    [CircularReferenceError] and [CannotParseError] are the two
    [new Error(...)] thrown by [buildHierarchyTree]; they carry the path
    quoted in the message.  [OtherError] is any other exception. *)

Inductive Exn :=
| TypeError (msg : string)
| CircularReferenceError (rootPath : string)
| CannotParseError (rootPath : string)
| OtherError (msg : string).

(** What reading [property] of [null] throws. *)
Definition null_read (property : string) : Exn :=
  TypeError ("Cannot read properties of null (reading '" +:+ property +:+ "')").

(** ** Findings *)

Record Finding := mkFinding {
  f_type : string;
  f_file : option string;
  f_path : option string;
  f_cycle : option (list string);
  f_level : option nat;            (* [level] or [depth] payload *)
  f_cause : option Exn             (* the caught exception quoted in [message] *)
}.

Definition finding (type : string) (file : string) : Finding :=
  mkFinding type (Some file) None None None None.

Definition finding_at (type : string) (file : string) (ptr : string) : Finding :=
  mkFinding type (Some file) (Some ptr) None None None.

(** The report every validator hands to the orchestrator
    ([generateReport]); [errorCount], [warningCount] and [valid] are
    derived from the two lists. *)
Record Report := mkReport {
  r_errors : list Finding;
  r_warnings : list Finding
}.

Definition errorCount (r : Report) : nat := length (r_errors r).
Definition warningCount (r : Report) : nat := length (r_warnings r).
Definition isValid (r : Report) : bool := Nat.eqb (length (r_errors r)) 0.

(** ** Node's [path] module *)

Class PathOps := {
  path_join : string -> string -> string;
  path_resolve : string -> string -> string;
  path_dirname : string -> string;
  path_relative : string -> string -> string;
  path_isAbsolute : string -> bool
}.

(** A small POSIX instance used for the concrete scenarios.  It agrees
    with Node on normalised absolute directories and plain relative file
    names without [.] or [..] segments, which is all the scenarios use. *)
Module SimplePosix.

Fixpoint starts_with (p s : string) : bool :=
  match p, s with
  | EmptyString, _ => true
  | String a p', String b s' => if Ascii.eqb a b then starts_with p' s' else false
  | String _ _, EmptyString => false
  end.

Fixpoint drop_str (n : nat) (s : string) : string :=
  match n, s with
  | O, _ => s
  | S n', String _ s' => drop_str n' s'
  | S _, EmptyString => EmptyString
  end.

(** Everything before the last slash. *)
Fixpoint dirname_aux (s : string) : option string :=
  match s with
  | EmptyString => None
  | String c s' =>
      match dirname_aux s' with
      | Some d => Some (String c d)
      | None => if Ascii.eqb c "/"%char then Some EmptyString else None
      end
  end.

Definition dirname (s : string) : string :=
  match dirname_aux s with
  | Some "" => "/"
  | Some d => d
  | None => "."
  end.

Definition join (a b : string) : string := a +:+ "/" +:+ b.

Definition resolve (base l : string) : string :=
  if starts_with "/" l then l else base +:+ "/" +:+ l.

Definition relative (from to : string) : string :=
  if starts_with (from +:+ "/") to
  then drop_str (String.length from + 1) to
  else to.

Definition ops : PathOps :=
  {| path_join := join; path_resolve := resolve;
     path_dirname := dirname; path_relative := relative;
     path_isAbsolute := starts_with "/" |}.

End SimplePosix.

(** The same instance for a process started in the directory [cwd]:
    [path.resolve] makes a relative base absolute, [path.join] does
    not. *)
Module RelativePosix.

Definition resolve (cwd base l : string) : string :=
  if SimplePosix.starts_with "/" l then l
  else if SimplePosix.starts_with "/" base then base +:+ "/" +:+ l
  else cwd +:+ "/" +:+ base +:+ "/" +:+ l.

Definition ops (cwd : string) : PathOps :=
  {| path_join := SimplePosix.join; path_resolve := resolve cwd;
     path_dirname := SimplePosix.dirname; path_relative := SimplePosix.relative;
     path_isAbsolute := SimplePosix.starts_with "/" |}.

End RelativePosix.

(** A structure entry that only carries a nested-document link. *)
Definition link_item (l : string) : option StructureItem :=
  Some (mkItem None None SUndefined None (Some l)).

(** A document that only has a [structure] mapping. *)
Definition doc_of_structure (items : list (string * option StructureItem)) : Yaml :=
  YMap (mkData (Some items) None None None).

(** A document without [structure]. *)
Definition leaf_doc : Yaml :=
  YMap (mkData None None None None).

(** [itemInfo.lmay_file] when it is truthy. *)
Definition link_of (itemInfo : StructureItem) : option string :=
  match lmay_file itemInfo with
  | Some l => if String.eqb l "" then None else Some l
  | None => None
  end.

(** ** String helpers of the JavaScript standard library *)

Definition startsWith (s p : string) : bool := SimplePosix.starts_with p s.

Definition endsWith (s p : string) : bool :=
  let n := String.length s in
  let k := String.length p in
  if Nat.leb k n then String.eqb (SimplePosix.drop_str (n - k) s) p else false.

(** A JS [Set] built from an array: duplicates are dropped, the order of
    first insertion is kept. *)
Fixpoint js_set_of (l : list string) (acc : list string) : list string :=
  match l with
  | [] => acc
  | x :: l' => js_set_of l' (if bool_decide (x ∈ acc) then acc else acc ++ [x])
  end.

(** ** The file system

    What [fs.existsSync], [fs.statSync] and [fs.readFileSync] see at a
    path.  Reading a directory throws. *)
Inductive FsEntry :=
| File (content : string)
| Directory.

Definition existsSync (disk : gmap string FsEntry) (p : string) : bool :=
  bool_decide (is_Some (disk !! p)).

Definition readFileSync (disk : gmap string FsEntry) (p : string) : option string :=
  match disk !! p with
  | Some (File content) => Some content
  | _ => None
  end.

(** [fs.writeFileSync(p, content)]: the disk afterwards.  Writing
    over a directory throws ([EISDIR]); the other ways a write can
    fail (a missing parent directory, permissions) are not part of
    this picture of the disk. *)
Definition writeFileSync (disk : gmap string FsEntry) (p content : string)
    : Exn + gmap string FsEntry :=
  match disk !! p with
  | Some Directory => inl (OtherError "EISDIR: illegal operation on a directory, open")
  | _ => inr (<[p := File content]> disk)
  end.

(** * reference-validator.js *)

Module ReferenceValidator.

(** [this.fileMap] is a JS [Map]: keys are unique and keep their
    insertion order. *)
Definition FileMap := list (string * Yaml).

Definition map_has (m : FileMap) (k : string) : bool :=
  bool_decide (k ∈ m.*1).

Fixpoint map_get (m : FileMap) (k : string) : option Yaml :=
  match m with
  | [] => None
  | (k', v) :: m' => if String.eqb k' k then Some v else map_get m' k
  end.

Fixpoint map_set (m : FileMap) (k : string) (v : Yaml) : FileMap :=
  match m with
  | [] => [(k, v)]
  | (k', v') :: m' =>
      if String.eqb k' k then (k', v) :: m' else (k', v') :: map_set m' k v
  end.

Record State := mkState {
  errors : list Finding;
  warnings : list Finding;
  fileMap : FileMap
}.

Definition push_error (st : State) (f : Finding) : State :=
  mkState (errors st ++ [f]) (warnings st) (fileMap st).

Definition push_warning (st : State) (f : Finding) : State :=
  mkState (errors st) (warnings st ++ [f]) (fileMap st).

(** ** [loadLMAYFile] *)

Section Loader.

(** [yaml.load(content)]: [None] when the parser throws. *)
Variable yaml_load : string -> option Yaml.

(** [disk] is [fs.readFileSync(_, 'utf8')] at the time of the call:
    [None] when reading throws.  The JS function returns the parsed
    data, or [null] from its [catch] branch. *)
Definition loadLMAYFile (disk : string -> option string) (filePath : string)
    (st : State) : Yaml * State :=
  if map_has (fileMap st) filePath then
    (default (YScalar SUndefined) (map_get (fileMap st) filePath), st)
  else
    match disk filePath with
    | Some content =>
        match yaml_load content with
        | Some data =>
            (data, mkState (errors st) (warnings st)
                           (map_set (fileMap st) filePath data))
        | None => (YScalar SNull, push_error st (finding "file_load_error" filePath))
        end
    | None => (YScalar SNull, push_error st (finding "file_load_error" filePath))
    end.

(** Any further loads of a session, each against the disk as it is
    at that moment. *)
Fixpoint load_all (ops : list ((string -> option string) * string)) (st : State) : State :=
  match ops with
  | [] => st
  | (disk, p) :: ops' => load_all ops' (snd (loadLMAYFile disk p st))
  end.

End Loader.

(** ** [findAllLMAYFiles] *)

(** What [readdirSync(_, {withFileTypes: true})] shows of a directory
    tree.  [readable = false] makes [readdirSync] throw on that
    directory. *)
Inductive DirEntry :=
| EFile (name : string)
| EDir (name : string) (readable : bool) (entries : list DirEntry)
| EOther (name : string).

Definition shouldSkipDirectory (name : string) : bool :=
  bool_decide (name ∈ ["node_modules"; ".git"; "dist"; "build"; ".cache"])
  || startsWith name ".".

Section WithPath.
Context `{PathOps}.

Fixpoint find_entry (dirPath : string) (entry : DirEntry) (files : list string)
    : list string :=
  match entry with
  | EDir name readable entries =>
      if negb (shouldSkipDirectory name) then
        if readable then
          (fix each (es : list DirEntry) (files : list string) : list string :=
             match es with
             | [] => files
             | e :: es' => each es' (find_entry (path_join dirPath name) e files)
             end) entries files
        else files
      else files
  | EFile name =>
      if endsWith name ".lmay" then files ++ [path_join dirPath name] else files
  | EOther _ => files
  end.

(** [listing = None]: the project directory itself cannot be read. *)
Definition findAllLMAYFiles (dirPath : string) (listing : option (list DirEntry))
    : list string :=
  match listing with
  | Some entries => foldl (fun files e => find_entry dirPath e files) [] entries
  | None => []
  end.

(** ** Nested-document links *)

(** In [detectOrphanFiles], [path] is the module:
    [path.resolve(path.dirname(filePath), itemInfo.lmay_file)]. *)
Definition resolve_link (filePath l : string) : string :=
  path_resolve (path_dirname filePath) l.

(** The resolved targets of the links of one loaded document; a
    [null] entry carries none. *)
Definition doc_links (filePath : string) (data : Yaml) : list string :=
  match structure_of data with
  | Some items =>
      omap (fun it => itemInfo ← snd it; resolve_link filePath <$> link_of itemInfo) items
  | None => []
  end.

(** The nested-document graph over the loaded documents. *)
Definition edge (m : FileMap) (f g : string) : Prop :=
  ∃ data, (f, data) ∈ m ∧ g ∈ doc_links f data.

(** ** [detectCircularReferences] *)

Record Traversal := mkTraversal {
  visited : gset string;
  recursionStack : gset string;
  reported : list Finding       (* [this.errors] *)
}.

Inductive Outcome :=
| Returned (t : Traversal)
| Thrown (e : Exn) (t : Traversal).

(** In [detectCircularReferencesRecursive] the fourth parameter is
    named [path].  Inside the body that array shadows the module
    [path] required at the top of the file, so
    [path.resolve(path.dirname(filePath), itemInfo.lmay_file)] is a
    method call on an array.  Arrays have no [dirname] (nor
    [resolve]): the argument [path.dirname(filePath)] is evaluated
    first, and calling [undefined] throws. *)
Definition array_method (receiver : list string) (name : string)
    (args : list string) : Exn + string :=
  inl (TypeError ("path." +:+ name +:+ " is not a function")).

Definition circular_reference (filePath itemName : string) (cycle : list string)
    : Finding :=
  mkFinding "circular_reference" (Some filePath)
            (Some ("/structure/" +:+ itemName +:+ "/lmay_file")) (Some cycle) None None.

(** The loop over [Object.entries(data.structure)]; [rec] is the
    recursive call.  On a [null] entry the test [itemInfo.lmay_file]
    throws. *)
Fixpoint scan_items (rec : string -> list string -> Traversal -> option Outcome)
    (m : FileMap) (filePath : string) (path : list string)
    (items : list (string * option StructureItem)) (t : Traversal) : option Outcome :=
  match items with
  | [] => Some (Returned t)
  | (itemName, None) :: _ => Some (Thrown (null_read "lmay_file") t)
  | (itemName, Some itemInfo) :: rest =>
      match link_of itemInfo with
      | Some l =>
          match array_method path "dirname" [filePath] with
          | inl e => Some (Thrown e t)
          | inr dir =>
              match array_method path "resolve" [dir; l] with
              | inl e => Some (Thrown e t)
              | inr referencedPath =>
                  if bool_decide (referencedPath ∈ recursionStack t) then
                    scan_items rec m filePath path rest
                      (mkTraversal (visited t) (recursionStack t)
                         (reported t ++
                            [circular_reference filePath itemName
                               (path ++ [filePath; referencedPath])]))
                  else if negb (bool_decide (referencedPath ∈ visited t))
                          && map_has m referencedPath then
                    match rec referencedPath (path ++ [filePath]) t with
                    | Some (Returned t') => scan_items rec m filePath path rest t'
                    | other => other
                    end
                  else scan_items rec m filePath path rest t
              end
          end
      | None => scan_items rec m filePath path rest t
      end
  end.

(** [None] only when the fuel runs out. *)
Fixpoint detectCircularReferencesRecursive (fuel : nat) (m : FileMap)
    (filePath : string) (path : list string) (t : Traversal) : option Outcome :=
  match fuel with
  | O => None
  | S fuel' =>
      let t1 := mkTraversal ({[filePath]} ∪ visited t)
                            ({[filePath]} ∪ recursionStack t) (reported t) in
      let items := default [] (data ← map_get m filePath;
                               if truthy data then structure_of data else None) in
      match scan_items (detectCircularReferencesRecursive fuel' m)
                       m filePath path items t1 with
      | Some (Returned t2) =>
          Some (Returned (mkTraversal (visited t2)
                                      (recursionStack t2 ∖ {[filePath]})
                                      (reported t2)))
      | other => other
      end
  end.

Fixpoint detect_from_keys (fuel : nat) (m : FileMap) (keys : list string)
    (t : Traversal) : option Outcome :=
  match keys with
  | [] => Some (Returned t)
  | filePath :: keys' =>
      if bool_decide (filePath ∈ visited t) then detect_from_keys fuel m keys' t
      else
        match detectCircularReferencesRecursive fuel m filePath [] t with
        | Some (Returned t') => detect_from_keys fuel m keys' t'
        | other => other
        end
  end.

(** The state after the call, and the exception if one escaped. *)
Definition detectCircularReferences (fuel : nat) (st : State)
    : option (State * option Exn) :=
  match detect_from_keys fuel (fileMap st) (fileMap st).*1
                         (mkTraversal ∅ ∅ (errors st)) with
  | Some (Returned t) => Some (mkState (reported t) (warnings st) (fileMap st), None)
  | Some (Thrown e t) => Some (mkState (reported t) (warnings st) (fileMap st), Some e)
  | None => None
  end.

(** ** [detectOrphanFiles] *)

Definition orphan_lmay_file (lmayFile : string) : Finding :=
  finding "orphan_lmay_file" lmayFile.

(** The loop over [Object.values(data.structure)], which adds the
    resolved links to the set [referencedFiles]; reading
    [itemInfo.lmay_file] of a [null] entry throws. *)
Fixpoint collect_links (filePath : string) (items : list (string * option StructureItem))
    (referencedFiles : gset string) : Exn + gset string :=
  match items with
  | [] => inr referencedFiles
  | (_, None) :: _ => inl (null_read "lmay_file")
  | (_, Some itemInfo) :: rest =>
      match link_of itemInfo with
      | Some l => collect_links filePath rest (referencedFiles ∪ {[resolve_link filePath l]})
      | None => collect_links filePath rest referencedFiles
      end
  end.

(** The loop over [this.fileMap.entries()]. *)
Fixpoint collect_referenced (entries : FileMap) (referencedFiles : gset string)
    : Exn + gset string :=
  match entries with
  | [] => inr referencedFiles
  | (filePath, data) :: rest =>
      match structure_of data with
      | Some items =>
          match collect_links filePath items referencedFiles with
          | inl e => inl e
          | inr referencedFiles' => collect_referenced rest referencedFiles'
          end
      | None => collect_referenced rest referencedFiles
      end
  end.

(** The set [referencedFiles] when the last loop starts, or the
    exception. *)
Definition referencedFiles (projectPath : string) (allLMAYFiles : list string)
    (m : FileMap) : Exn + gset string :=
  let rootFile := path_join projectPath "root.lmay" in
  collect_referenced m (if bool_decide (rootFile ∈ allLMAYFiles) then {[rootFile]} else ∅).

(** The state after the call, and the exception if one escaped; the
    warnings are pushed by the last loop only. *)
Definition detectOrphanFiles (projectPath : string)
    (listing : option (list DirEntry)) (st : State) : State * option Exn :=
  let allLMAYFiles := js_set_of (findAllLMAYFiles projectPath listing) [] in
  match referencedFiles projectPath allLMAYFiles (fileMap st) with
  | inl e => (st, Some e)
  | inr referenced =>
      (foldl (fun st lmayFile =>
                if bool_decide (lmayFile ∈ referenced) then st
                else push_warning st (orphan_lmay_file lmayFile))
             st allLMAYFiles,
       None)
  end.

(** ** Reference checks *)

Section Project.
Variable yaml_load : string -> option Yaml.
Variable disk : gmap string FsEntry.
Variable listing : option (list DirEntry).

(** [stats.isDirectory() ? 'directory' : 'file']. *)
Definition actualType (p : string) : string :=
  match disk !! p with
  | Some Directory => "directory"
  | _ => "file"
  end.

(** [stats.isFile()]. *)
Definition isFile (p : string) : bool :=
  match disk !! p with
  | Some (File _) => true
  | _ => false
  end.

(** The first half of the body of the loop of
    [validateStructureReferences]: the [path] of the entry. *)
Definition check_item_path (itemName : string) (itemInfo : StructureItem)
    (filePath basePath : string) (st : State) : State :=
  if str_truthy (item_path itemInfo) then
    let fullPath := path_resolve basePath (default "" (item_path itemInfo)) in
    if negb (existsSync disk fullPath) then
      push_error st (finding_at "referenced_path_not_found" filePath
                                ("/structure/" +:+ itemName +:+ "/path"))
    else if str_truthy (item_type itemInfo)
            && negb (bool_decide (item_type itemInfo = Some (actualType fullPath))) then
      push_error st (finding_at "type_mismatch" filePath
                                ("/structure/" +:+ itemName +:+ "/type"))
    else st
  else st.

(** The checks below are the methods that run inside the [try] of
    [validateProject].  Each gives the validator state it leaves and
    the exception when one escaped it; [None] is kept for the fuel. *)

(** [rec] is [validateFileReferences]. *)
Definition validateLMAYFileReference
    (rec : Yaml -> string -> string -> State -> option (State * option Exn))
    (lmayFilePath parentFile basePath contextPath : string) (st : State)
    : option (State * option Exn) :=
  let fullPath := path_resolve basePath lmayFilePath in
  if negb (existsSync disk fullPath) then
    Some (push_error st (finding_at "lmay_file_not_found" parentFile contextPath), None)
  else
    let st1 :=
      if negb (endsWith lmayFilePath ".lmay") then
        push_warning st (finding_at "invalid_lmay_extension" parentFile contextPath)
      else st in
    let '(referencedData, st2) :=
      loadLMAYFile yaml_load (readFileSync disk) fullPath st1 in
    if truthy referencedData then rec referencedData fullPath basePath st2
    else Some (st2, None).

(** On a [null] entry the first test of the loop body,
    [itemInfo.path], throws. *)
Fixpoint validateStructureReferences
    (rec : Yaml -> string -> string -> State -> option (State * option Exn))
    (structure : list (string * option StructureItem)) (filePath basePath : string)
    (st : State) : option (State * option Exn) :=
  match structure with
  | [] => Some (st, None)
  | (itemName, None) :: _ => Some (st, Some (null_read "path"))
  | (itemName, Some itemInfo) :: rest =>
      let st1 := check_item_path itemName itemInfo filePath basePath st in
      match link_of itemInfo with
      | Some lmayFilePath =>
          match validateLMAYFileReference rec lmayFilePath filePath basePath
                  ("/structure/" +:+ itemName +:+ "/lmay_file") st1 with
          | Some (st2, None) => validateStructureReferences rec rest filePath basePath st2
          | other => other
          end
      | None => validateStructureReferences rec rest filePath basePath st1
      end
  end.

(** [for (let i = 0; i < entryPoints.length; i++)], from index [i];
    [entryPoint.file] throws on a [null] element. *)
Fixpoint validateEntryPointReferences (i : nat) (entryPoints : list (option EntryPoint))
    (filePath basePath : string) (st : State) : State * option Exn :=
  match entryPoints with
  | [] => (st, None)
  | None :: _ => (st, Some (null_read "file"))
  | Some entryPoint :: rest =>
      let entryPath := "/architecture/entry_points/" +:+ pretty i in
      let st1 :=
        if str_truthy (ep_file entryPoint) then
          let fullPath := path_resolve basePath (default "" (ep_file entryPoint)) in
          if negb (existsSync disk fullPath) then
            push_error st (finding_at "entry_point_not_found" filePath
                                      (entryPath +:+ "/file"))
          else if negb (isFile fullPath) then
            push_error st (finding_at "entry_point_not_file" filePath
                                      (entryPath +:+ "/file"))
          else st
        else st in
      validateEntryPointReferences (S i) rest filePath basePath st1
  end.

(** [dep.path] throws on a [null] element. *)
Fixpoint validateInternalDependencyReferences (i : nat)
    (internalDeps : list (option InternalDependency))
    (filePath basePath : string) (st : State) : State * option Exn :=
  match internalDeps with
  | [] => (st, None)
  | None :: _ => (st, Some (null_read "path"))
  | Some dep :: rest =>
      let depPath := "/dependencies/internal/" +:+ pretty i in
      let st1 :=
        if str_truthy (dep_path dep)
           && negb (existsSync disk (path_resolve basePath (default "" (dep_path dep)))) then
          push_error st (finding_at "internal_dependency_not_found" filePath
                                    (depPath +:+ "/path"))
        else st in
      validateInternalDependencyReferences (S i) rest filePath basePath st1
  end.

(** [None] only when the fuel runs out.  Nothing stops the mutual
    recursion with [validateLMAYFileReference] on a document that is
    already loaded. *)
Fixpoint validateFileReferences (fuel : nat) (lmayData : Yaml)
    (filePath basePath : string) (st : State) : option (State * option Exn) :=
  match fuel with
  | O => None
  | S fuel' =>
      match
        match structure_of lmayData with
        | Some structure =>
            validateStructureReferences (validateFileReferences fuel')
                                        structure filePath basePath st
        | None => Some (st, None)
        end
      with
      | Some (st1, None) =>
          match
            match entry_points_of lmayData with
            | Some entryPoints =>
                validateEntryPointReferences 0 entryPoints filePath basePath st1
            | None => (st1, None)
            end
          with
          | (st2, None) =>
              Some match internal_dependencies_of lmayData with
                   | Some internalDeps =>
                       validateInternalDependencyReferences 0 internalDeps
                                                            filePath basePath st2
                   | None => (st2, None)
                   end
          | thrown => Some thrown
          end
      | other => other
      end
  end.

(** The loop of [discoverAndValidateReferences] over the files found. *)
Fixpoint discover_each (fuel : nat) (projectPath : string) (lmayFiles : list string)
    (st : State) : option (State * option Exn) :=
  match lmayFiles with
  | [] => Some (st, None)
  | lmayFile :: rest =>
      if negb (map_has (fileMap st) lmayFile) then
        let '(data, st1) := loadLMAYFile yaml_load (readFileSync disk) lmayFile st in
        if truthy data then
          match validateFileReferences fuel data lmayFile projectPath st1 with
          | Some (st2, None) => discover_each fuel projectPath rest st2
          | other => other
          end
        else discover_each fuel projectPath rest st1
      else discover_each fuel projectPath rest st
  end.

Definition discoverAndValidateReferences (fuel : nat) (projectPath : string)
    (st : State) : option (State * option Exn) :=
  match discover_each fuel projectPath (findAllLMAYFiles projectPath listing) st with
  | Some (st1, None) =>
      match detectCircularReferences fuel st1 with
      | Some (st2, None) => Some (detectOrphanFiles projectPath listing st2)
      | other => other
      end
  | other => other
  end.

Definition validation_error (rootPath : string) (error : Exn) : Finding :=
  mkFinding "validation_error" (Some rootPath) None None None (Some error).

(** The value returned and the validator state left behind; the call
    starts by emptying [errors], [warnings] and [fileMap], and its
    [catch] turns an exception of the checks into a
    [validation_error]. *)
Definition validateProject (fuel : nat) (projectPath rootFile : string)
    : option (bool * State) :=
  let st := mkState [] [] [] in
  let rootPath := path_join projectPath rootFile in
  if negb (existsSync disk rootPath) then
    Some (false, push_error st (finding "root_file_not_found" rootPath))
  else
    let '(rootData, st1) := loadLMAYFile yaml_load (readFileSync disk) rootPath st in
    if negb (truthy rootData) then Some (false, st1)
    else
      match validateFileReferences fuel rootData rootPath projectPath st1 with
      | None => None
      | Some (st2, Some error) =>
          Some (false, push_error st2 (validation_error rootPath error))
      | Some (st2, None) =>
          match discoverAndValidateReferences fuel projectPath st2 with
          | None => None
          | Some (st3, Some error) =>
              Some (false, push_error st3 (validation_error rootPath error))
          | Some (st3, None) => Some (Nat.eqb (length (errors st3)) 0, st3)
          end
      end.

Definition generateReport (st : State) : Report :=
  mkReport (errors st) (warnings st).

End Project.

End WithPath.

End ReferenceValidator.

(** * yaml-validator.js *)

Module YAMLValidator.

(** What [yaml.load(content, {filename, onWarning})] does: the number
    of [onWarning] calls, and the value returned or the exception
    thrown. *)
Inductive LoadResult :=
| Loaded (parsedContent : Yaml)
| YAMLException
| OtherException.

Section Env.

Variable disk : gmap string FsEntry.
(** [String.prototype.trim]. *)
Variable trim : string -> string.
(** [js-yaml]: content and file name. *)
Variable yaml_load : string -> string -> nat * LoadResult.
(** [performAdditionalChecks]: the three line-based lint passes
    ([checkIndentation], [checkProblematicCharacters],
    [checkKeyStructure]) only push onto [this.warnings]; what they
    push for a content and file name is a parameter. *)
Variable performAdditionalChecks : string -> string -> list Finding.

Definition failed (f : Finding) (ws : list Finding) : Yaml * Report :=
  (YScalar (SBool false), mkReport [f] ws).

(** Returns the parsed content ([false] on failure) together with
    what [generateReport] then shows. *)
Definition validateFile (filePath : string) : Yaml * Report :=
  match disk !! filePath with
  | None => failed (finding "file_not_found" filePath) []
  | Some Directory => failed (finding "file_read_error" filePath) []
  | Some (File content) =>
      if Nat.eqb (String.length (trim content)) 0 then
        failed (finding "empty_file" filePath) []
      else
        let '(n, r) := yaml_load content filePath in
        let yaml_warnings := replicate n (finding "yaml_warning" filePath) in
        match r with
        | Loaded parsedContent =>
            (parsedContent,
             mkReport [] (yaml_warnings ++ performAdditionalChecks content filePath))
        | YAMLException => failed (finding "yaml_syntax_error" filePath) yaml_warnings
        | OtherException => failed (finding "file_read_error" filePath) yaml_warnings
        end
  end.

End Env.

End YAMLValidator.

(** * schema-validator.js: the checks of the [structure] mapping *)

Module SchemaValidator.

(** [haystack.includes(needle)]. *)
Fixpoint includes (haystack needle : string) : bool :=
  SimplePosix.starts_with needle haystack ||
  match haystack with
  | EmptyString => false
  | String _ rest => includes rest needle
  end.

Section WithPath.
Context `{PathOps}.
(** [String.prototype.toLowerCase]. *)
Variable toLowerCase : string -> string.

(** [validateStructureItem] on an entry that is not [null]. *)
Definition validateStructureItem (name : string) (info : StructureItem)
    (filePath : string) (r : Report) : Report :=
  let basePath := "/structure/" +:+ name in
  let r1 :=
    match item_path info with
    | Some p =>
        if negb (String.eqb p "") && path_isAbsolute p then
          mkReport (r_errors r)
            (r_warnings r ++
               [finding_at "absolute_path_in_structure" filePath (basePath +:+ "/path")])
        else r
    | None => r
    end in
  let r2 :=
    if bool_decide (item_type info = Some "file")
       && scalar_truthy (file_count info)
       && negb (bool_decide (file_count info = SNum 1)) then
      mkReport (r_errors r1 ++
                  [finding_at "invalid_file_count" filePath (basePath +:+ "/file_count")])
               (r_warnings r1)
    else r1 in
  if str_truthy (primary_language info)
     && bool_decide (item_type info = Some "file") then
    mkReport (r_errors r2)
      (r_warnings r2 ++
         [finding_at "language_on_file" filePath (basePath +:+ "/primary_language")])
  else r2.

Definition validateCommonPatterns (directoryNames : list string)
    (filePath : string) (r : Report) : Report :=
  let lowerNames := toLowerCase <$> directoryNames in
  let present part := existsb (fun name => includes name part) lowerNames in
  let parts := ["models"; "views"; "controllers"] in
  let hasMvc := existsb present parts in
  if hasMvc then
    let missingParts := filter (fun part => present part = false) parts in
    if Nat.ltb 0 (length missingParts) then
      mkReport (r_errors r)
        (r_warnings r ++ [finding_at "incomplete_mvc_pattern" filePath "/structure"])
    else r
  else r.

(** The loop over [Object.entries(structure)].
    [validateStructureItem] starts by reading [info.path], which
    throws when the entry is [null]. *)
Fixpoint each_structure_item (structure : list (string * option StructureItem))
    (filePath : string) (r : Report) : Exn + Report :=
  match structure with
  | [] => inr r
  | (name, None) :: _ => inl (null_read "path")
  | (name, Some info) :: rest =>
      each_structure_item rest filePath (validateStructureItem name info filePath r)
  end.

(** [inl]: the exception that escapes. *)
Definition validateStructure (lmayData : Yaml) (filePath : string) (r : Report)
    : Exn + Report :=
  match structure_of lmayData with
  | None => inr r
  | Some structure =>
      let directoryNames := structure.*1 in
      if Nat.eqb (length directoryNames) 0 then
        inr (mkReport (r_errors r)
               (r_warnings r ++ [finding_at "empty_structure" filePath "/structure"]))
      else
        match each_structure_item structure filePath r with
        | inl e => inl e
        | inr r1 => inr (validateCommonPatterns directoryNames filePath r1)
        end
  end.

End WithPath.

End SchemaValidator.

(** * validator.js *)

Module LMAYValidator.

Record Options := mkOptions {
  strict : bool;
  checkReferences : bool;
  checkHierarchy : bool
}.

Record SummaryEntry := mkSummary {
  s_errorCount : nat;
  s_warningCount : nat;
  s_valid : option bool
}.

(** [this.results]. *)
Record Results := mkResults {
  valid : bool;
  errors : list Finding;
  warnings : list Finding;
  summary : gmap string SummaryEntry
}.

Definition resetResults : Results := mkResults false [] [] ∅.

Definition mergeResults (report : Report) (validatorType : string) (r : Results)
    : Results :=
  mkResults (valid r)
            (errors r ++ r_errors report)
            (warnings r ++ r_warnings report)
            (<[validatorType :=
                 mkSummary (errorCount report) (warningCount report)
                           (Some (isValid report))]> (summary r)).

Definition finalizeResults (r : Results) : Results :=
  let v := Nat.eqb (length (errors r)) 0 in
  mkResults v (errors r) (warnings r)
            (<["total" := mkSummary (length (errors r)) (length (warnings r)) (Some v)]>
               (summary r)).

(** ** The hierarchy tree *)

(** [parent] points back to the owning node in the source; only its
    [file] is ever read, and that is what [n_parent] keeps. *)
Inductive Node := mkNode {
  n_file : string;
  n_data : Yaml;
  n_children : list Node;
  n_depth : nat;
  n_parent : option string;
  n_parentKey : option string
}.

(** The three assignments made to a child once it has been built. *)
Definition adopt (node : Node) (itemName : string) (childNode : Node) : Node :=
  mkNode (n_file childNode) (n_data childNode) (n_children childNode)
         (n_depth node + 1) (Some (n_file node)) (Some itemName).

Definition push_child (node childNode : Node) : Node :=
  mkNode (n_file node) (n_data node) (n_children node ++ [childNode])
         (n_depth node) (n_parent node) (n_parentKey node).

Section Env.
Context `{PathOps}.

(** [this.yamlValidator.validateFile]: the parsed content, or
    [false]. *)
Variable yaml_validateFile : string -> Yaml * Report.
(** [this.schemaValidator.validateLMAY] followed by
    [generateReport]; the validator may throw. *)
Variable schema_validateLMAY : Yaml -> string -> Exn + Report.
(** [this.referenceValidator.validateProject] followed by
    [generateReport]; [None] when the reference validator does not
    come back. *)
Variable reference_validateProject : string -> string -> option Report.

(** The loop over [Object.entries(parsedContent.structure)]; [rec]
    is the recursive call, which receives [new Set(visited)].  The
    test [itemInfo.lmay_file] stands outside the [try]: on a [null]
    entry it throws, and the exception leaves [buildHierarchyTree]. *)
Fixpoint build_children (rec : string -> gset string -> option (Exn + Node))
    (projectPath rootPath : string) (visited : gset string)
    (items : list (string * option StructureItem)) (node : Node)
    : option (Exn + Node) :=
  match items with
  | [] => Some (inr node)
  | (itemName, None) :: _ => Some (inl (null_read "lmay_file"))
  | (itemName, Some itemInfo) :: rest =>
      match link_of itemInfo with
      | Some l =>
          let childPath := path_resolve (path_dirname rootPath) l in
          match rec (path_relative projectPath childPath) visited with
          | None => None
          | Some (inr childNode) =>
              build_children rec projectPath rootPath visited rest
                (push_child node (adopt node itemName childNode))
          | Some (inl _) =>
              (* catch (error) { } *)
              build_children rec projectPath rootPath visited rest node
          end
      | None => build_children rec projectPath rootPath visited rest node
      end
  end.

(** [None] only when the fuel runs out; [inl] is a thrown
    exception. *)
Fixpoint buildHierarchyTree (fuel : nat) (projectPath rootFile : string)
    (visited : gset string) : option (Exn + Node) :=
  match fuel with
  | O => None
  | S fuel' =>
      let rootPath := path_join projectPath rootFile in
      if bool_decide (rootPath ∈ visited) then
        Some (inl (CircularReferenceError rootPath))
      else
        let visited := {[rootPath]} ∪ visited in
        let parsedContent := fst (yaml_validateFile rootPath) in
        if negb (truthy parsedContent) then
          Some (inl (CannotParseError rootPath))
        else
          let node := mkNode rootPath parsedContent [] 0 None None in
          match structure_of parsedContent with
          | Some items =>
              build_children (buildHierarchyTree fuel' projectPath)
                             projectPath rootPath visited items node
          | None => Some (inr node)
          end
  end.

(** ** Consistency of the declared hierarchy metadata *)

Definition validateHierarchyMetadata (node : Node) (hierarchy : Hierarchy)
    (r : Report) : Report :=
  let r1 :=
    match h_depth hierarchy with
    | Some d =>
        if negb (Z.eqb d (Z.of_nat (n_depth node))) then
          mkReport (r_errors r ++
                      [finding_at "incorrect_hierarchy_depth" (n_file node)
                                  "/hierarchy/depth"])
                   (r_warnings r)
        else r
    | None => r
    end in
  match h_parent hierarchy, n_parent node with
  | Some declared, Some parentFile =>
      if negb (String.eqb declared "") then
        let expectedParent := path_relative (path_dirname (n_file node)) parentFile in
        if negb (String.eqb declared expectedParent) then
          mkReport (r_errors r1 ++
                      [finding_at "incorrect_parent_reference" (n_file node)
                                  "/hierarchy/parent"])
                   (r_warnings r1)
        else r1
      else r1
  | _, _ => r1
  end.

Fixpoint validateHierarchyConsistency (maxDepth : nat) (node : Node) (r : Report)
    : Report :=
  let r1 :=
    if Nat.ltb maxDepth (n_depth node) then
      mkReport (r_errors r)
        (r_warnings r ++
           [mkFinding "excessive_hierarchy_depth" (Some (n_file node)) None None
                      (Some (n_depth node)) None])
    else r in
  let r2 :=
    match hierarchy_of (n_data node) with
    | Some hierarchy => validateHierarchyMetadata node hierarchy r1
    | None => r1
    end in
  (fix each (children : list Node) (r : Report) : Report :=
     match children with
     | [] => r
     | child :: rest => each rest (validateHierarchyConsistency maxDepth child r)
     end) (n_children node) r2.

(** ** Depth distribution *)

Definition flat_hierarchy : Finding :=
  mkFinding "flat_hierarchy" None None None None None.

Definition unbalanced_hierarchy (currentLevel : nat) : Finding :=
  mkFinding "unbalanced_hierarchy" None None None (Some currentLevel) None.

(** [levelCounts[k]], with [undefined] read as [0]: the only uses
    are [undefined > 10], [undefined > n] and [n > undefined * 3],
    which are all false as comparisons with [NaN], and a level that
    is a key of the object is never [undefined]. *)
Definition count_at (levelCounts : gmap nat nat) (k : nat) : option nat :=
  levelCounts !! k.

(** [a > b] on possibly-undefined counts. *)
Definition js_gt (a b : option nat) : bool :=
  match a, b with
  | Some x, Some y => Nat.ltb y x
  | _, _ => false
  end.

(** The loop [for (let i = 1; i < levels.length; i++)] over the
    sorted levels, seen as a walk over consecutive pairs. *)
Fixpoint unbalanced_from (levelCounts : gmap nat nat) (previousLevel : nat)
    (levels : list nat) : list Finding :=
  match levels with
  | [] => []
  | currentLevel :: rest =>
      (if js_gt (count_at levelCounts currentLevel)
                ((fun c => c * 3) <$> count_at levelCounts previousLevel)
       then [unbalanced_hierarchy currentLevel] else [])
      ++ unbalanced_from levelCounts currentLevel rest
  end.

(** [Math.max(...levels)] is [-Infinity] on an empty array; it is
    only compared with [1], and [max_list [] = 0] compares the same
    way. *)
Definition analyzeDepthDistribution (levelCounts : gmap nat nat)
    (warnings : list Finding) : list Finding :=
  let levels := merge_sort Nat.le (elements (dom levelCounts)) in
  let maxLevel := max_list levels in
  let warnings1 :=
    if Nat.leb maxLevel 1 && js_gt (count_at levelCounts 1) (Some 10)
    then (warnings ++ [flat_hierarchy]) else warnings in
  match levels with
  | [] => warnings1
  | first :: rest => (warnings1 ++ unbalanced_from levelCounts first rest)
  end.

(** [levelCounts] is one object shared by the whole recursion. *)
Fixpoint validateDepthLevels (node : Node)
    (st : gmap nat nat * list Finding) : gmap nat nat * list Finding :=
  let '(levelCounts, warnings) := st in
  let levelCounts :=
    <[n_depth node := default 0 (levelCounts !! n_depth node) + 1]> levelCounts in
  let '(levelCounts, warnings) :=
    (fix each (children : list Node) (st : gmap nat nat * list Finding) :=
       match children with
       | [] => st
       | child :: rest => each rest (validateDepthLevels child st)
       end) (n_children node) (levelCounts, warnings) in
  if Nat.eqb (n_depth node) 0 then
    (levelCounts, analyzeDepthDistribution levelCounts warnings)
  else (levelCounts, warnings).

(** ** [validateHierarchy] *)

(** The two local arrays [hierarchyErrors] and [hierarchyWarnings]. *)
Definition hierarchy_findings (fuel : nat) (projectPath rootFile : string)
    : option Report :=
  match buildHierarchyTree fuel projectPath rootFile ∅ with
  | None => None
  | Some (inr hierarchyTree) =>
      let r := validateHierarchyConsistency 10 hierarchyTree (mkReport [] []) in
      let '(_, ws) := validateDepthLevels hierarchyTree (∅, r_warnings r) in
      Some (mkReport (r_errors r) ws)
  | Some (inl error) =>
      Some (mkReport
              [mkFinding "hierarchy_build_error"
                         (Some (path_join projectPath rootFile)) None None None
                         (Some error)]
              [])
  end.

Definition validateHierarchy (fuel : nat) (projectPath rootFile : string)
    (r : Results) : option Results :=
  found ← hierarchy_findings fuel projectPath rootFile;
  Some (mkResults (valid r)
                  (errors r ++ r_errors found)
                  (warnings r ++ r_warnings found)
                  (<["hierarchy" :=
                       mkSummary (errorCount found) (warningCount found) None]>
                     (summary r))).

(** ** [validateFile] and [validateProject] *)

(** [inl]: an exception escaped. *)
Definition validateFile (filePath : string) : Exn + Results :=
  let '(parsedContent, yamlReport) := yaml_validateFile filePath in
  let r := mergeResults yamlReport "yaml" resetResults in
  if negb (truthy parsedContent) then inr (finalizeResults r)
  else
    match schema_validateLMAY parsedContent filePath with
    | inl e => inl e
    | inr schemaReport => inr (finalizeResults (mergeResults schemaReport "schema" r))
    end.

Definition validateProject (fuel : nat) (options : Options)
    (projectPath rootFile : string) : option (Exn + Results) :=
  let rootFilePath := path_join projectPath rootFile in
  match validateFile rootFilePath with
  | inl e => Some (inl e)
  | inr rootValid =>
      if negb (valid rootValid) && negb (strict options) then
        Some (inr (finalizeResults rootValid))
      else
        r1 ← (if checkReferences options then
                referencesReport ← reference_validateProject projectPath rootFile;
                Some (mergeResults referencesReport "references" rootValid)
              else Some rootValid);
        if checkHierarchy options then
          r2 ← validateHierarchy fuel projectPath rootFile r1;
          Some (inr (finalizeResults r2))
        else Some (inr (finalizeResults r1))
  end.

End Env.

End LMAYValidator.

(** * maintenance.js: obsolescence analysis *)

Module Maintenance.

Local Open Scope Z_scope.

(** One element of what [findLMAYFiles] returns; [modified] and
    [created] are the [getTime()] of the dates, in milliseconds. *)
Record LMAYFile := mkFile {
  path : string;
  relativePath : string;
  size : Z;
  modified : Z;
  created : Z
}.

(** [{...file, reason, age}]; [reason] is only set on obsolete files. *)
Record Aged := mkAged {
  file : LMAYFile;
  reason : option string;
  age : Z
}.

Record Analysis := mkAnalysis {
  obsolete : list Aged;
  outdated : list Aged;
  valid : list LMAYFile
}.

Definition dayMs : Z := 24 * 60 * 60 * 1000.

(** [Math.round(age / (24 * 60 * 60 * 1000))]: the nearest integer,
    halves rounded up. *)
Definition age_in_days (age : Z) : Z := (2 * age + dayMs) / (2 * dayMs).

Section Env.
Context `{PathOps}.
(** [fs.readFile(_, 'utf8')]: [None] when the promise rejects. *)
Variable readFile : string -> option string.
(** [fs.pathExists]. *)
Variable pathExists : string -> bool.
(** [this.extractFileReferences]: the regular-expression scan of the
    raw lines for [path:] and [parent:] values. *)
Variable extractFileReferences : string -> list string.
(** [Date.now()]. *)
Variable now : Z.

(** The loop [for (const ref of references)] with its [break]. *)
Fixpoint hasValidReferences (filePath : string) (references : list string) : bool :=
  match references with
  | [] => false
  | ref :: rest =>
      if pathExists (path_resolve (path_dirname filePath) ref) then true
      else hasValidReferences filePath rest
  end.

(** [threshold] is [parseInt(options.threshold)]: [None] is [NaN],
    and [age > NaN] is false. *)
Definition is_stale (threshold : option Z) (age : Z) : bool :=
  match threshold with
  | Some days => Z.ltb (days * dayMs) age
  | None => false
  end.

(** [None]: reading a stale file failed and the analysis rejects. *)
Fixpoint analyze (threshold : option Z) (lmayFiles : list LMAYFile)
    (analysis : Analysis) : option Analysis :=
  match lmayFiles with
  | [] => Some analysis
  | f :: rest =>
      let age := now - modified f in
      if is_stale threshold age then
        match readFile (path f) with
        | None => None
        | Some content =>
            let references := extractFileReferences content in
            if negb (hasValidReferences (path f) references)
               && Nat.ltb 0 (length references) then
              analyze threshold rest
                (mkAnalysis
                   (obsolete analysis ++
                      [mkAged f (Some "References non-existent files")
                              (age_in_days age)])
                   (outdated analysis) (valid analysis))
            else
              analyze threshold rest
                (mkAnalysis (obsolete analysis)
                   (outdated analysis ++ [mkAged f None (age_in_days age)])
                   (valid analysis))
        end
      else
        analyze threshold rest
          (mkAnalysis (obsolete analysis) (outdated analysis)
                      (valid analysis ++ [f]))
  end.

Definition analyzeObsolescence (lmayFiles : list LMAYFile) (threshold : option Z)
    : option Analysis :=
  analyze threshold lmayFiles (mkAnalysis [] [] []).

End Env.

End Maintenance.

(** ** Character classes of regular expressions *)

(** [[0-9]], which is also [\d]. *)
Definition is_digit (c : ascii) : bool :=
  Nat.leb 48 (nat_of_ascii c) && Nat.leb (nat_of_ascii c) 57.

(** [[a-z]]. *)
Definition is_lower (c : ascii) : bool :=
  Nat.leb 97 (nat_of_ascii c) && Nat.leb (nat_of_ascii c) 122.

(** * schema-validator.js: the schema errors and the other semantic checks *)

Module SchemaSemantics.

Import SchemaValidator.

(** The [project] mapping.  The fields have the types the schema
    gives them ([name] and [version] strings, [languages] and
    [frameworks] lists of strings); a field is [None] when the key is
    absent, and an empty string is falsy. *)
Record Project := mkProject {
  p_name : option string;
  p_languages : option (list string);
  p_frameworks : option (list string);
  p_version : option string
}.

(** One element of [dependencies.external], when it is not [null]. *)
Record ExternalDependency := mkExternal {
  d_name : option string;
  d_version : option string
}.

(** The keys of a document that the semantic validation reads besides
    those of [LMAYData].  On a document that is not a mapping they
    are all [undefined]. *)
Record Sections := mkSections {
  lmay_version : Scalar;
  project : option Project;
  architecture_pattern : option string;
  external_dependencies : option (list (option ExternalDependency))
}.

(** One element of [this.validate.errors], as far as
    [processSchemaErrors] copies it. *)
Record SchemaError := mkSchemaError {
  keyword : string;
  instancePath : string
}.

Definition push_error (r : Report) (f : Finding) : Report :=
  mkReport (r_errors r ++ [f]) (r_warnings r).

Definition push_warning (r : Report) (f : Finding) : Report :=
  mkReport (r_errors r) (r_warnings r ++ [f]).

(** ** [processSchemaErrors] *)

(** The [switch] on [error.keyword]. *)
Definition error_type (keyword : string) : string :=
  if String.eqb keyword "required" then "missing_required_property"
  else if String.eqb keyword "type" then "invalid_type"
  else if String.eqb keyword "enum" then "invalid_enum_value"
  else if String.eqb keyword "minLength" then "string_too_short"
  else if String.eqb keyword "maxLength" then "string_too_long"
  else if String.eqb keyword "pattern" then "invalid_pattern"
  else if String.eqb keyword "minimum" then "value_too_small"
  else if String.eqb keyword "additionalProperties" then "unknown_property"
  else "schema_error".

Definition processSchemaErrors (schemaErrors : list SchemaError) (filePath : string)
    (r : Report) : Report :=
  foldl (fun r error =>
           push_error r (finding_at (error_type (keyword error)) filePath
                                    (instancePath error)))
        r schemaErrors.

(** ** [validateLMAYVersion] *)

Definition validateLMAYVersion (sections : Sections) (filePath : string) (r : Report)
    : Report :=
  if negb (scalar_truthy (lmay_version sections)) then
    push_error r (finding_at "missing_lmay_version" filePath "/lmay_version")
  else if negb (bool_decide (lmay_version sections = SStr "1.0")) then
    push_warning r (finding_at "unsupported_lmay_version" filePath "/lmay_version")
  else r.

(** ** [validateProjectConsistency] *)

(** What [frameworkLanguageMap[key]] evaluates to.  The map is an
    object literal, so besides its own nine keys it answers for the
    properties inherited from [Object.prototype], with a function or
    an object that is truthy and has no [some] method. *)
Inductive Lookup :=
| Own (expectedLanguages : list string)
| Inherited
| Missing.

Definition frameworkLanguageMap (key : string) : Lookup :=
  if String.eqb key "react" then Own ["javascript"; "typescript"]
  else if String.eqb key "vue" then Own ["javascript"; "typescript"]
  else if String.eqb key "angular" then Own ["typescript"]
  else if String.eqb key "express" then Own ["javascript"; "typescript"]
  else if String.eqb key "django" then Own ["python"]
  else if String.eqb key "flask" then Own ["python"]
  else if String.eqb key "spring" then Own ["java"]
  else if String.eqb key "rails" then Own ["ruby"]
  else if String.eqb key "laravel" then Own ["php"]
  else if bool_decide (key ∈ ["constructor"; "__proto__"; "hasOwnProperty";
                              "isPrototypeOf"; "propertyIsEnumerable";
                              "toLocaleString"; "toString"; "valueOf";
                              "__defineGetter__"; "__defineSetter__";
                              "__lookupGetter__"; "__lookupSetter__"])
  then Inherited
  else Missing.

Fixpoint skip_digits (s : string) : string :=
  match s with
  | String c rest => if is_digit c then skip_digits rest else s
  | EmptyString => EmptyString
  end.

(** [\d+] at the head of [s]: what follows the digits. *)
Definition digits (s : string) : option string :=
  match s with
  | String c rest => if is_digit c then Some (skip_digits rest) else None
  | EmptyString => None
  end.

(** [\.] at the head of [s]. *)
Definition dot (s : string) : option string :=
  match s with
  | String c rest => if Ascii.eqb c "."%char then Some rest else None
  | EmptyString => None
  end.

(** [/^\d+\.\d+\.\d+/.test(version)]. *)
Definition semver (version : string) : bool :=
  bool_decide (is_Some (after_major ← digits version; minor ← dot after_major;
                        after_minor ← digits minor; patch ← dot after_minor;
                        digits patch)).

Section WithPath.
Context `{PathOps}.
Variable toLowerCase : string -> string.

(** The [for] loop over the frameworks; calling [some] on an
    inherited property throws. *)
Fixpoint validateLanguageFrameworkConsistency (languages frameworks : list string)
    (filePath : string) (r : Report) : Exn + Report :=
  match frameworks with
  | [] => inr r
  | framework :: rest =>
      match frameworkLanguageMap (toLowerCase framework) with
      | Own expectedLanguages =>
          let hasCompatibleLanguage :=
            existsb (fun lang => bool_decide (lang ∈ languages)) expectedLanguages in
          validateLanguageFrameworkConsistency languages rest filePath
            (if negb hasCompatibleLanguage
             then push_warning r (finding_at "framework_language_mismatch" filePath
                                             "/project")
             else r)
      | Inherited => inl (TypeError "expectedLanguages.some is not a function")
      | Missing => validateLanguageFrameworkConsistency languages rest filePath r
      end
  end.

Definition validateProjectConsistency (sections : Sections) (filePath : string)
    (r : Report) : Exn + Report :=
  match project sections with
  | None => inr r
  | Some project =>
      let r1 :=
        if str_truthy (p_name project)
           && bool_decide (toLowerCase (default "" (p_name project))
                             ∈ ["project"; "app"; "application"; "untitled"])
        then push_warning r (finding_at "generic_project_name" filePath "/project/name")
        else r in
      match
        match p_languages project, p_frameworks project with
        | Some languages, Some frameworks =>
            validateLanguageFrameworkConsistency languages frameworks filePath r1
        | _, _ => inr r1
        end
      with
      | inl e => inl e
      | inr r2 =>
          inr (if str_truthy (p_version project)
                  && negb (semver (default "" (p_version project)))
               then push_warning r2 (finding_at "non_semver_version" filePath
                                                "/project/version")
               else r2)
      end
  end.

(** ** [validateArchitecture] *)

(** [arch.entry_points] is read through [entry_points_of]; without an
    [architecture] mapping both it and the pattern are absent. *)
Definition validateArchitecture (sections : Sections) (lmayData : Yaml)
    (filePath : string) (r : Report) : Report :=
  let r1 :=
    match entry_points_of lmayData with
    | Some entry_points =>
        if Nat.eqb (length entry_points) 0 then
          push_warning r (finding_at "no_entry_points" filePath
                                     "/architecture/entry_points")
        else r
    | None => r
    end in
  match entry_points_of lmayData with
  | Some entry_points =>
      if bool_decide (architecture_pattern sections = Some "Microservices")
         && Nat.ltb (length entry_points) 2
      then push_warning r1 (finding_at "microservices_single_entry" filePath
                                       "/architecture")
      else r1
  | None => r1
  end.

(** ** [validateDependencies] *)

(** [validateExternalDependency] on an element that is not [null]. *)
Definition validateExternalDependency (dep : ExternalDependency) (index : nat)
    (filePath : string) (r : Report) : Report :=
  if str_truthy (d_version dep)
     && (bool_decide (d_version dep = Some "*")
         || bool_decide (d_version dep = Some "latest"))
  then push_warning r (finding_at "unsafe_dependency_version" filePath
                         ("/dependencies/external/" +:+ pretty index +:+ "/version"))
  else r.

(** [validateInternalDependency] on an element that is not [null]. *)
Definition validateInternalDependency (dep : InternalDependency) (index : nat)
    (filePath : string) (r : Report) : Report :=
  if str_truthy (dep_path dep) && path_isAbsolute (default "" (dep_path dep))
  then push_warning r (finding_at "absolute_internal_dependency_path" filePath
                         ("/dependencies/internal/" +:+ pretty index +:+ "/path"))
  else r.

(** [for (let i = 0; i < deps.length; i++)], from index [i].  The
    check of an element starts by reading [property] of it
    ([dep.version], [dep.path]), which throws when the element is
    [null]. *)
Fixpoint each_dependency {A} (property : string)
    (check : A -> nat -> string -> Report -> Report)
    (i : nat) (deps : list (option A)) (filePath : string) (r : Report) : Exn + Report :=
  match deps with
  | [] => inr r
  | None :: _ => inl (null_read property)
  | Some dep :: rest =>
      each_dependency property check (S i) rest filePath (check dep i filePath r)
  end.

Definition validateDependencies (sections : Sections) (lmayData : Yaml)
    (filePath : string) (r : Report) : Exn + Report :=
  match
    match external_dependencies sections with
    | Some external =>
        each_dependency "version" validateExternalDependency 0 external filePath r
    | None => inr r
    end
  with
  | inl e => inl e
  | inr r1 =>
      match internal_dependencies_of lmayData with
      | Some internal =>
          each_dependency "path" validateInternalDependency 0 internal filePath r1
      | None => inr r1
      end
  end.

(** ** [performSemanticValidation] and [validateLMAY] *)

Definition performSemanticValidation (sections : Sections) (lmayData : Yaml)
    (filePath : string) (r : Report) : Exn + Report :=
  let r1 := validateLMAYVersion sections filePath r in
  match validateProjectConsistency sections filePath r1 with
  | inl e => inl e
  | inr r2 =>
      let r3 := validateArchitecture sections lmayData filePath r2 in
      match validateStructure toLowerCase lmayData filePath r3 with
      | inl e => inl e
      | inr r4 => validateDependencies sections lmayData filePath r4
      end
  end.

(** [schemaErrors] is what the compiled schema says of the document:
    [None] when it validates, else [this.validate.errors].  The
    result is what [generateReport] then shows, or the exception. *)
Definition validateLMAY (schemaErrors : option (list SchemaError))
    (sections : Sections) (lmayData : Yaml) (filePath : string) : Exn + Report :=
  let r :=
    match schemaErrors with
    | Some errors => processSchemaErrors errors filePath (mkReport [] [])
    | None => mkReport [] []
    end in
  performSemanticValidation sections lmayData filePath r.

End WithPath.

End SchemaSemantics.

(** * yaml-validator.js: the line checks *)

Module YAMLChecks.

(** JavaScript strings are sequences of UTF-16 code units.  In this
    module and in [AutoFix] a character of a Rocq string stands for the
    code unit of the same number: the contents modelled are those
    whose code units are all below 256. *)

Definition tab : ascii := "009"%char.
Definition newline : ascii := "010"%char.

(** The WhiteSpace and LineTerminator code units below 256, which
    [trim] and [trimStart] strip: TAB, LF, VT, FF, CR, SP and NBSP. *)
Definition isWhiteSpace (c : ascii) : bool :=
  match c with
  | "009" | "010" | "011" | "012" | "013" | " " | "160" => true
  | _ => false
  end%char.

Fixpoint trimStart (s : string) : string :=
  match s with
  | String c rest => if isWhiteSpace c then trimStart rest else s
  | EmptyString => EmptyString
  end.

Definition trimEnd (s : string) : string := String.rev (trimStart (String.rev s)).

Definition trim (s : string) : string := trimEnd (trimStart s).

(** [content.split('\n')]. *)
Fixpoint split_lines (content : string) : list string :=
  match content with
  | EmptyString => [EmptyString]
  | String c rest =>
      if Ascii.eqb c newline then EmptyString :: split_lines rest
      else match split_lines rest with
           | line :: lines => String c line :: lines
           | [] => [String c EmptyString]
           end
  end.

(** [s.includes(c)] for a one-character needle. *)
Definition includes_char (s : string) (c : ascii) : bool :=
  SchemaValidator.includes s (String c EmptyString).

(** What the checks push onto [this.warnings]. *)
Record Warning := mkWarning {
  w_type : string;
  w_file : string;
  w_line : option nat;
  w_column : option nat
}.

Definition as_finding (w : Warning) : Finding := finding (w_type w) (w_file w).

(** [trimmedLine === '' || trimmedLine.startsWith('#')]. *)
Definition blank_or_comment (trimmedLine : string) : bool :=
  String.eqb trimmedLine "" || startsWith trimmedLine "#".

(** ** [checkIndentation] *)

(** The loop, from index [i]; the state is [expectedIndent] and the
    warnings pushed so far. *)
Fixpoint checkIndentation_from (filePath : string) (i : nat) (lines : list string)
    (expectedIndent : option nat) (warnings : list Warning)
    : option nat * list Warning :=
  match lines with
  | [] => (expectedIndent, warnings)
  | line :: rest =>
      let trimmedLine := trim line in
      if blank_or_comment trimmedLine then
        checkIndentation_from filePath (S i) rest expectedIndent warnings
      else
        let indent := String.length line - String.length (trimStart line) in
        if Nat.ltb 0 indent then
          match expectedIndent with
          | None => checkIndentation_from filePath (S i) rest (Some indent) warnings
          | Some expected =>
              if negb (Nat.eqb (indent mod expected) 0) then
                checkIndentation_from filePath (S i) rest expectedIndent
                  (warnings ++ [mkWarning "inconsistent_indentation" filePath
                                          (Some (i + 1)) (Some 1)])
              else checkIndentation_from filePath (S i) rest expectedIndent warnings
          end
        else checkIndentation_from filePath (S i) rest expectedIndent warnings
  end.

Definition checkIndentation (lines : list string) (filePath : string)
    (warnings : list Warning) : list Warning :=
  let '(expectedIndent, warnings) :=
    checkIndentation_from filePath 0 lines None warnings in
  match expectedIndent with
  | Some expected =>
      if negb (Nat.eqb expected 0) && negb (Nat.eqb expected 2) then
        warnings ++ [mkWarning "non_standard_indentation" filePath None None]
      else warnings
  | None => warnings
  end.

(** ** [checkProblematicCharacters] *)

(** [/[^\x00-\x7F]/.test(line)]. *)
Fixpoint has_non_ascii (line : string) : bool :=
  match line with
  | EmptyString => false
  | String c rest => Nat.ltb 127 (nat_of_ascii c) || has_non_ascii rest
  end.

Definition check_line_characters (filePath : string) (i : nat) (line : string)
    (warnings : list Warning) : list Warning :=
  let warnings1 :=
    if includes_char line tab then
      warnings ++ [mkWarning "tab_character" filePath (Some (i + 1)) None]
    else warnings in
  let warnings2 :=
    if endsWith line " " && negb (String.eqb (trim line) "") then
      warnings1 ++ [mkWarning "trailing_whitespace" filePath (Some (i + 1)) None]
    else warnings1 in
  if has_non_ascii line then
    warnings2 ++ [mkWarning "non_ascii_characters" filePath (Some (i + 1)) None]
  else warnings2.

Fixpoint checkProblematicCharacters_from (filePath : string) (i : nat)
    (lines : list string) (warnings : list Warning) : list Warning :=
  match lines with
  | [] => warnings
  | line :: rest =>
      checkProblematicCharacters_from filePath (S i) rest
        (check_line_characters filePath i line warnings)
  end.

Definition checkProblematicCharacters (lines : list string) (filePath : string)
    (warnings : list Warning) : list Warning :=
  checkProblematicCharacters_from filePath 0 lines warnings.

(** ** [checkKeyStructure] *)

Definition colon : ascii := ":"%char.

(** [trimmedLine.match(/^([^:]+):/)]: the text before the first colon,
    when there is a colon and it is not the first character. *)
Fixpoint before_colon (s : string) : option string :=
  match s with
  | EmptyString => None
  | String c rest =>
      if Ascii.eqb c colon then Some EmptyString
      else String c <$> before_colon rest
  end.

Definition keyMatch (trimmedLine : string) : option string :=
  match before_colon trimmedLine with
  | Some EmptyString => None
  | other => other
  end.

Fixpoint all_chars (p : ascii -> bool) (s : string) : bool :=
  match s with
  | EmptyString => true
  | String c rest => p c && all_chars p rest
  end.

(** [/^[a-z][a-z0-9_]*$/.test(key)]. *)
Definition snake_case (key : string) : bool :=
  match key with
  | EmptyString => false
  | String c rest =>
      is_lower c
      && all_chars (fun d => is_lower d || is_digit d || Ascii.eqb d "_"%char) rest
  end.

Definition check_line_key (filePath : string) (i : nat) (line : string)
    (warnings : list Warning) : list Warning :=
  let trimmedLine := trim line in
  if blank_or_comment trimmedLine || negb (includes_char trimmedLine colon) then warnings
  else
    match keyMatch trimmedLine with
    | Some matched =>
        let key := trim matched in
        let warnings1 :=
          if negb (snake_case key) then
            warnings ++ [mkWarning "key_naming_convention" filePath (Some (i + 1)) None]
          else warnings in
        if Nat.ltb 50 (String.length key) then
          warnings1 ++ [mkWarning "long_key_name" filePath (Some (i + 1)) None]
        else warnings1
    | None => warnings
    end.

Fixpoint checkKeyStructure_from (filePath : string) (i : nat) (lines : list string)
    (warnings : list Warning) : list Warning :=
  match lines with
  | [] => warnings
  | line :: rest =>
      checkKeyStructure_from filePath (S i) rest (check_line_key filePath i line warnings)
  end.

Definition checkKeyStructure (lines : list string) (filePath : string)
    (warnings : list Warning) : list Warning :=
  checkKeyStructure_from filePath 0 lines warnings.

(** ** [performAdditionalChecks] *)

Definition performAdditionalChecks (content filePath : string)
    (warnings : list Warning) : list Warning :=
  let lines := split_lines content in
  checkKeyStructure lines filePath
    (checkProblematicCharacters lines filePath
       (checkIndentation lines filePath warnings)).

(** The warnings of the three checks as the findings
    [YAMLValidator.validateFile] takes for its parameter. *)
Definition lint (content filePath : string) : list Finding :=
  as_finding <$> performAdditionalChecks content filePath [].

End YAMLChecks.

(** * cli.js: automatic fixes *)

Module AutoFix.

Import YAMLChecks.

(** [[ \t]]. *)
Definition is_blank (c : ascii) : bool := Ascii.eqb c " "%char || Ascii.eqb c tab.

(** The LineTerminator code units below 256: LF and CR. *)
Definition is_line_terminator (c : ascii) : bool :=
  Ascii.eqb c newline || Ascii.eqb c "013"%char.

(** [content.replace(/[ \t]+$/gm, '')], read from left to right:
    [pending] is the run of blanks read since the last other
    character.  The run is dropped when a line terminator or the end
    of the input follows it, and kept otherwise. *)
Fixpoint strip_trailing (pending : string) (content : string) : string :=
  match content with
  | EmptyString => EmptyString
  | String c rest =>
      if is_blank c then strip_trailing (pending +:+ String c EmptyString) rest
      else if is_line_terminator c then String c (strip_trailing EmptyString rest)
      else pending +:+ String c (strip_trailing EmptyString rest)
  end.

(** [content.replace(/\t/g, '  ')]. *)
Fixpoint expand_tabs (content : string) : string :=
  match content with
  | EmptyString => EmptyString
  | String c rest =>
      if Ascii.eqb c tab then String " " (String " " (expand_tabs rest))
      else String c (expand_tabs rest)
  end.

(** The common shape of [fixTrailingWhitespace] and [fixIndentation]:
    read, rewrite, and write back when something changed.  A failed
    read (missing file, directory, or no file name at all) is caught
    and gives [false].  The result is the value returned and the disk
    afterwards. *)
Definition fix_file (rewrite : string -> string) (disk : gmap string FsEntry)
    (filePath : option string) : bool * gmap string FsEntry :=
  match filePath with
  | Some p =>
      match readFileSync disk p with
      | Some content =>
          let fixedContent := rewrite content in
          if negb (String.eqb content fixedContent) then
            (true, <[p := File fixedContent]> disk)
          else (false, disk)
      | None => (false, disk)
      end
  | None => (false, disk)
  end.

Definition fixTrailingWhitespace := fix_file (strip_trailing "").

Definition fixIndentation := fix_file expand_tabs.

Definition fixWarning (disk : gmap string FsEntry) (warning : Finding)
    : bool * gmap string FsEntry :=
  if String.eqb (f_type warning) "trailing_whitespace" then
    fixTrailingWhitespace disk (f_file warning)
  else if String.eqb (f_type warning) "inconsistent_indentation" then
    fixIndentation disk (f_file warning)
  else (false, disk).

(** [fixedCount] and the disk afterwards. *)
Fixpoint attemptAutoFix (warnings : list Finding) (disk : gmap string FsEntry)
    (fixedCount : nat) : nat * gmap string FsEntry :=
  match warnings with
  | [] => (fixedCount, disk)
  | warning :: rest =>
      let '(fixed, disk') := fixWarning disk warning in
      attemptAutoFix rest disk' (if fixed then fixedCount + 1 else fixedCount)
  end.

End AutoFix.

(** * cli.js: batch validation and saved reports *)

Module Batch.

Import LMAYValidator.

(** One element of the [results] array of [validateBatch]: the file
    as given on the command line, then either the validator's result
    or the message of the exception caught, and [status]. *)
Record BatchEntry := mkEntry {
  e_file : string;
  e_result : option Results;
  e_error : option Exn;
  e_status : string
}.

(** The two kinds of object handed to [saveReport]: what
    [generateDetailedReport] returns, and the object
    [saveBatchReport] builds, which has the keys [type], [timestamp],
    [total], [successful] and [results] only. *)
Inductive ReportObject :=
| DetailedReport (report : Results)
| BatchReport (total successful : nat) (results : list BatchEntry).

(** The options of the [batch] command; [format] defaults to
    ['text']. *)
Record BatchOptions := mkBatchOptions {
  format : string;
  output : option string;
  continueOnError : bool
}.

Section Env.
Context `{PathOps}.
(** [new LMAYValidator().validateFile], with the exception that may
    escape it or the constructor. *)
Variable validateFile : string -> Exn + Results.
(** [process.cwd()]. *)
Variable cwd : string.
Variable toLowerCase : string -> string.
(** The three renderings; what they write for a detailed report is
    not modelled. *)
Variable json_stringify : ReportObject -> string.
Variable text_of : Results -> string.
Variable sarif_of : Results -> string.

(** The [for] loop over the files, with its two [break]s. *)
Fixpoint validate_each (files : list string) (options : BatchOptions)
    (results : list BatchEntry) (successCount : nat) : list BatchEntry * nat :=
  match files with
  | [] => (results, successCount)
  | file :: rest =>
      match validateFile (path_resolve cwd file) with
      | inr result =>
          let results :=
            results ++ [mkEntry file (Some result) None
                                (if valid result then "success" else "error")] in
          if valid result then validate_each rest options results (successCount + 1)
          else if negb (continueOnError options) then (results, successCount)
          else validate_each rest options results successCount
      | inl error =>
          let results := results ++ [mkEntry file None (Some error) "error"] in
          if negb (continueOnError options) then (results, successCount)
          else validate_each rest options results successCount
      end
  end.

(** [report.summary.total.errorCount] and [report.errors] are read
    without a test: on the batch object [report.summary] and
    [report.errors] are [undefined], and the access throws. *)
Definition generateTextReport (report : ReportObject) : Exn + string :=
  match report with
  | DetailedReport r => inr (text_of r)
  | BatchReport _ _ _ =>
      inl (TypeError "Cannot read properties of undefined (reading 'total')")
  end.

Definition generateSARIFReport (report : ReportObject) : Exn + string :=
  match report with
  | DetailedReport r => inr (sarif_of r)
  | BatchReport _ _ _ => inl (TypeError "report.errors is not iterable")
  end.

(** The disk after [fs.writeFileSync(outputPath, content)], or the
    exception. *)
Definition saveReport (report : ReportObject) (outputPath format : string)
    (disk : gmap string FsEntry) : Exn + gmap string FsEntry :=
  let content :=
    if String.eqb (toLowerCase format) "json" then inr (json_stringify report)
    else if String.eqb (toLowerCase format) "sarif" then generateSARIFReport report
    else generateTextReport report in
  match content with
  | inl e => inl e
  | inr content => writeFileSync disk outputPath content
  end.

Definition saveBatchReport (results : list BatchEntry) (outputPath format : string)
    (disk : gmap string FsEntry) : Exn + gmap string FsEntry :=
  saveReport
    (BatchReport (length results)
                 (length (filter (fun r => e_status r = "success") results))
                 results)
    outputPath format disk.

(** The exit code and the disk left behind, or the exception that
    leaves [validateBatch] (its caller does not catch it). *)
Definition validateBatch (files : list string) (options : BatchOptions)
    (disk : gmap string FsEntry) : Exn + (nat * gmap string FsEntry) :=
  let '(results, successCount) := validate_each files options [] 0 in
  let code := if Nat.eqb successCount (length files) then 0 else 1 in
  if str_truthy (output options) then
    match saveBatchReport results (default "" (output options)) (format options) disk with
    | inl e => inl e
    | inr disk' => inr (code, disk')
    end
  else inr (code, disk).

End Env.

End Batch.

(** * cli.js: the default command *)

Module Cli.

Import LMAYValidator.

(** The command-line options of the default command.  [references]
    and [hierarchy] are [false] only under [--no-references] and
    [--no-hierarchy]; [format] defaults to ['text']. *)
Record CliOptions := mkCliOptions {
  project : option string;
  opt_strict : bool;
  references : bool;
  hierarchy : bool;
  format : string;
  output : option string;
  verbose : bool;
  opt_fix : bool
}.

Section Env.
Context `{PathOps}.
(** The three validators of [new LMAYValidator(...)]. *)
Variable yaml_validateFile : string -> Yaml * Report.
Variable schema_validateLMAY : Yaml -> string -> Exn + Report.
Variable reference_validateProject : string -> string -> option Report.
(** What the constructor throws, if anything: [new SchemaValidator()]
    loads the schema file and throws when it cannot. *)
Variable constructor_error : option Exn.
(** [process.cwd()]. *)
Variable cwd : string.
Variable toLowerCase : string -> string.
(** The three renderings of a report. *)
Variable json_stringify : Batch.ReportObject -> string.
Variable text_of : Results -> string.
Variable sarif_of : Results -> string.

(** The local [results] of [validateLMAY]: what the validator
    returns in the mode the arguments select, or the exception that
    escapes. *)
Definition validate_results (fuel : nat) (file : option string) (options : CliOptions)
    (disk : gmap string FsEntry) : option (Exn + Results) :=
  let isProjectMode :=
    str_truthy (project options)
    || (negb (str_truthy file) && existsSync disk (path_resolve cwd "root.lmay")) in
  match constructor_error with
  | Some e => Some (inl e)
  | None =>
      let validator := mkOptions (opt_strict options) (references options)
                                 (hierarchy options) in
      if isProjectMode then
        let projectPath := if str_truthy (project options)
                           then default "" (project options) else cwd in
        let rootFile := if str_truthy file then default "" file else "root.lmay" in
        validateProject yaml_validateFile schema_validateLMAY
                        reference_validateProject fuel validator projectPath rootFile
      else
        let filePath := path_resolve cwd
                          (if str_truthy file then default "" file else "root.lmay") in
        if negb (existsSync disk filePath) then
          Some (inl (OtherError "Fichier introuvable"))
        else Some (validateFile yaml_validateFile schema_validateLMAY filePath)
  end.

(** The disk after [attemptAutoFix], which runs under [--fix] when
    there is a warning. *)
Definition after_fix (results : Results) (options : CliOptions)
    (disk : gmap string FsEntry) : gmap string FsEntry :=
  if opt_fix options && Nat.ltb 0 (length (warnings results)) then
    snd (AutoFix.attemptAutoFix (warnings results) disk 0)
  else disk.

(** [saveReport(report, options.output, options.format)] on the
    report of [generateDetailedReport], which runs [finalizeResults]
    on the validator's results once more.  A relative [output] is
    taken from the working directory. *)
Definition save_detailed_report (results : Results) (options : CliOptions)
    (disk : gmap string FsEntry) : Exn + gmap string FsEntry :=
  Batch.saveReport toLowerCase json_stringify text_of sarif_of
    (Batch.DetailedReport (finalizeResults results))
    (path_resolve cwd (default "" (output options))) (format options) disk.

(** [validateLMAY] after [results] is there: the automatic fixes,
    [generateDetailedReport], [displayResults] (which only prints),
    [saveReport] under [--output], and
    [process.exit(results.valid ? 0 : 1)]; [results] is the object
    [generateDetailedReport] has just finalized again.  The outcome
    is the exit code, or the exception that escapes, with the disk
    left behind. *)
Definition report_and_exit (results : Results) (options : CliOptions)
    (disk : gmap string FsEntry) : (Exn + nat) * gmap string FsEntry :=
  let disk1 := after_fix results options disk in
  let code := if valid (finalizeResults results) then 0 else 1 in
  if str_truthy (output options) then
    match save_detailed_report results options disk1 with
    | inl e => (inl e, disk1)
    | inr disk2 => (inr code, disk2)
    end
  else (inr code, disk1).

Definition validateLMAY (fuel : nat) (file : option string) (options : CliOptions)
    (disk : gmap string FsEntry) : option ((Exn + nat) * gmap string FsEntry) :=
  match validate_results fuel file options disk with
  | None => None
  | Some (inl e) => Some (inl e, disk)
  | Some (inr results) => Some (report_and_exit results options disk)
  end.


End Env.

End Cli.

(** * Properties *)

(** ** Sanity checks of the helpers *)

Example sp_dirname : SimplePosix.dirname "/p/sub/a.lmay" = "/p/sub".
Proof. reflexivity. Qed.

Example sp_relative : SimplePosix.relative "/p" "/p/sub/a.lmay" = "sub/a.lmay".
Proof. reflexivity. Qed.

Example endsWith_lmay : endsWith "src/a.lmay" ".lmay" = true.
Proof. reflexivity. Qed.

Example endsWith_short : endsWith "may" ".lmay" = false.
Proof. reflexivity. Qed.

Example includes_models : SchemaValidator.includes "app_models" "models" = true.
Proof. reflexivity. Qed.

Lemma eqb_string_true (a b : string) : String.eqb a b = true <-> a = b.
Proof. apply String.eqb_eq. Qed.

Lemma eqb_string_false (a b : string) : String.eqb a b = false <-> a <> b.
Proof. apply String.eqb_neq. Qed.

(** ** The loader cache *)

Module LoaderFacts.

Import ReferenceValidator.

Lemma map_has_get (m : FileMap) (k : string) :
  map_has m k = true <-> is_Some (map_get m k).
Proof.
  unfold map_has. rewrite bool_decide_eq_true.
  induction m as [|[k' v] m IH]; simpl.
  - split; [intros Hin; inversion Hin | intros [? ?]; discriminate].
  - destruct (String.eqb k' k) eqn:E.
    + apply eqb_string_true in E. subst. split; [eauto | intros _; left].
    + apply eqb_string_false in E. rewrite <- IH. split.
      * intros Hin. inversion Hin; subst; [congruence | assumption].
      * intros Hin. right. assumption.
Qed.

Lemma map_get_set_eq (m : FileMap) (k : string) (v : Yaml) :
  map_get (map_set m k v) k = Some v.
Proof.
  induction m as [|[k' v'] m IH]; simpl.
  - rewrite String.eqb_refl. reflexivity.
  - destruct (String.eqb k' k) eqn:E; simpl; rewrite E; [reflexivity | exact IH].
Qed.

Lemma map_get_set_ne (m : FileMap) (k k' : string) (v : Yaml) :
  k <> k' -> map_get (map_set m k v) k' = map_get m k'.
Proof.
  intros Hne. induction m as [|[k0 v0] m IH]; simpl.
  - apply eqb_string_false in Hne. rewrite Hne. reflexivity.
  - destruct (String.eqb k0 k) eqn:E; simpl.
    + apply eqb_string_true in E. subst k0.
      apply eqb_string_false in Hne. rewrite Hne. reflexivity.
    + destruct (String.eqb k0 k'); [reflexivity | exact IH].
Qed.

Lemma map_get_elem (m : FileMap) (k : string) (d : Yaml) :
  map_get m k = Some d -> (k, d) ∈ m.
Proof.
  induction m as [|[k' v] m IH]; simpl; [discriminate|].
  destruct (String.eqb k' k) eqn:E.
  - apply String.eqb_eq in E. subst. intros [= ->]. left.
  - intros Hg. right. apply IH. exact Hg.
Qed.

Lemma map_set_Forall (P : string * Yaml -> Prop) (m : FileMap) (k : string) (v : Yaml) :
  (forall k', P (k', v)) -> Forall P m -> Forall P (map_set m k v).
Proof.
  intros Pv. induction 1 as [|[k' v'] m Hx Hm IH]; simpl.
  - repeat constructor. apply Pv.
  - destruct (String.eqb k' k); constructor; auto.
Qed.

Section Loader.
Variable yaml_load : string -> option Yaml.

(** A cached document answers the call; the disk is not consulted
    and the state does not change. *)
Lemma load_hit disk p st d :
  map_get (fileMap st) p = Some d ->
  loadLMAYFile yaml_load disk p st = (d, st).
Proof.
  intros Hget. unfold loadLMAYFile.
  assert (Hhas : map_has (fileMap st) p = true) by (apply map_has_get; eauto).
  rewrite Hhas, Hget. reflexivity.
Qed.

(** Loading any path keeps every binding of the cache. *)
Lemma load_keeps disk q st p d :
  map_get (fileMap st) p = Some d ->
  map_get (fileMap (snd (loadLMAYFile yaml_load disk q st))) p = Some d.
Proof.
  intros Hget. unfold loadLMAYFile.
  destruct (map_has (fileMap st) q) eqn:Hq; simpl; [assumption|].
  destruct (disk q) as [content|]; simpl; [|assumption].
  destruct (yaml_load content) as [data|]; simpl; [|assumption].
  rewrite map_get_set_ne; [assumption|].
  intros ->. 
  assert (map_has (fileMap st) p = true) by (apply map_has_get; eauto).
  congruence.
Qed.

Lemma load_all_keeps ops st p d :
  map_get (fileMap st) p = Some d ->
  map_get (fileMap (load_all yaml_load ops st)) p = Some d.
Proof.
  revert st. induction ops as [|[disk q] ops IH]; intros st Hget; simpl.
  - assumption.
  - apply IH. apply load_keeps. assumption.
Qed.

(** After a load that read and parsed the file, the document is in
    the cache. *)
Lemma load_caches disk p st content data :
  disk p = Some content -> yaml_load content = Some data ->
  map_get (fileMap (snd (loadLMAYFile yaml_load disk p st))) p
  = Some (fst (loadLMAYFile yaml_load disk p st)).
Proof.
  intros Hd Hy. unfold loadLMAYFile.
  destruct (map_has (fileMap st) p) eqn:Hp; simpl.
  - apply map_has_get in Hp. destruct Hp as [d Hd']. rewrite Hd'. reflexivity.
  - rewrite Hd, Hy. simpl. apply map_get_set_eq.
Qed.

(** C8.  Loader memoization, by the path string: once
    [loadLMAYFile] has read and parsed a path, every later call with
    the same string in the same session (after any number of other
    loads, whatever the disk then holds) returns the very same
    document and leaves the validator state untouched; the file is
    neither read nor parsed again.  On a first load the document is
    the one just parsed.  The key of the cache is the string the
    caller passes, as it is: see [relative_project_loads_twice] for
    two spellings of one path. *)
Theorem loadLMAYFile_memoized disk0 p st0 content data :
  disk0 p = Some content ->
  yaml_load content = Some data ->
  let first := loadLMAYFile yaml_load disk0 p st0 in
  (map_has (fileMap st0) p = false -> fst first = data) /\
  forall ops disk',
    loadLMAYFile yaml_load disk' p (load_all yaml_load ops (snd first))
    = (fst first, load_all yaml_load ops (snd first)).
Proof.
  intros Hd Hy first. split.
  - intros Hp. unfold first, loadLMAYFile. rewrite Hp, Hd, Hy. reflexivity.
  - intros ops disk'. apply load_hit. apply load_all_keeps.
    unfold first. eapply load_caches; eassumption.
Qed.

End Loader.

Definition toy_yaml_load (content : string) : option Yaml :=
  if String.eqb content "" then None else Some leaf_doc.

Definition disk_with_root (p : string) : option string :=
  if String.eqb p "/p/root.lmay" then Some "lmay_version: 1.0" else None.

Definition disk_gone (p : string) : option string := None.

(** The theorem at work: the root is loaded, then another path is
    tried, the root file disappears from the disk, and the root is
    asked for again. *)
Lemma loadLMAYFile_memoized_witness :
  loadLMAYFile toy_yaml_load disk_gone "/p/root.lmay"
    (load_all toy_yaml_load [(disk_gone, "/p/a.lmay")]
       (snd (loadLMAYFile toy_yaml_load disk_with_root "/p/root.lmay" (mkState [] [] []))))
  = (leaf_doc,
     load_all toy_yaml_load [(disk_gone, "/p/a.lmay")]
       (snd (loadLMAYFile toy_yaml_load disk_with_root "/p/root.lmay" (mkState [] [] [])))).
Proof.
  exact (proj2 (loadLMAYFile_memoized toy_yaml_load disk_with_root "/p/root.lmay"
                  (mkState [] [] []) "lmay_version: 1.0" leaf_doc
                  eq_refl eq_refl)
               [(disk_gone, "/p/a.lmay")] disk_gone).
Defined.

(** *** Two spellings of one path *)

(** A project given by the relative path [proj], validated from the
    working directory [/w].  The root links [a.lmay].  The disk
    answers for a file under its relative and under its absolute
    path. *)
Definition diskR : gmap string FsEntry :=
  list_to_map [("proj/root.lmay", File "root"); ("/w/proj/root.lmay", File "root");
               ("proj/a.lmay", File "a"); ("/w/proj/a.lmay", File "a")].

Definition loadR (content : string) : option Yaml :=
  if String.eqb content "root" then Some (doc_of_structure [("a", link_item "a.lmay")])
  else Some leaf_doc.

Definition listingR : option (list DirEntry) :=
  Some [EFile "root.lmay"; EFile "a.lmay"].

#[local] Instance started_in_w : PathOps := RelativePosix.ops "/w".

(** The cache is not keyed by a canonical path.  The link of the
    root is resolved with [path.resolve], which gives
    [/w/proj/a.lmay]; the scan of the project directory builds its
    paths with [path.join], which gives [proj/a.lmay].  The second
    spelling misses the cache: [a.lmay] is read and parsed a second
    time within the one run, and the cache ends with two entries for
    it. *)
Theorem relative_project_loads_twice :
  path_resolve "proj" "a.lmay" = "/w/proj/a.lmay" /\
  findAllLMAYFiles "proj" listingR = ["proj/root.lmay"; "proj/a.lmay"] /\
  validateProject loadR diskR listingR 3 "proj" "root.lmay"
  = Some (false,
          mkState [validation_error "proj/root.lmay"
                     (TypeError "path.dirname is not a function")]
                  []
                  [("proj/root.lmay", doc_of_structure [("a", link_item "a.lmay")]);
                   ("/w/proj/a.lmay", leaf_doc);
                   ("proj/a.lmay", leaf_doc)]).
Proof. vm_compute. repeat split; reflexivity. Qed.

End LoaderFacts.

(** ** Circular references *)

Module CycleFacts.

Import ReferenceValidator.

Section WithPath.
Context `{PathOps}.

(** The entry is an object with a truthy [lmay_file]. *)
Definition has_link (it : string * option StructureItem) : bool :=
  bool_decide (is_Some (snd it ≫= link_of)).

Definition shadowed : Exn := TypeError "path.dirname is not a function".

(** What the loop of [detectCircularReferencesRecursive] throws at an
    entry, if it throws there: on [null] the test of [lmay_file], on a
    link the call on the shadowing array. *)
Definition thrown_at (it : string * option StructureItem) : option Exn :=
  match snd it with
  | None => Some (null_read "lmay_file")
  | Some itemInfo =>
      match link_of itemInfo with
      | Some _ => Some shadowed
      | None => None
      end
  end.

(** The exception of the first entry that throws. *)
Definition first_throw (items : list (string * option StructureItem)) : option Exn :=
  head (omap thrown_at items).

Lemma first_throw_cons it items :
  first_throw (it :: items)
  = match thrown_at it with
    | Some e => Some e
    | None => first_throw items
    end.
Proof. unfold first_throw. simpl. destruct (thrown_at it); reflexivity. Qed.

Lemma first_throw_app items1 items2 :
  first_throw (items1 ++ items2)
  = match first_throw items1 with
    | Some e => Some e
    | None => first_throw items2
    end.
Proof.
  unfold first_throw. rewrite omap_app.
  destruct (omap thrown_at items1); reflexivity.
Qed.

Lemma first_throw_None items :
  first_throw items = None <-> Forall (fun it => thrown_at it = None) items.
Proof.
  induction items as [|it items IH].
  - split; [constructor | reflexivity].
  - rewrite first_throw_cons. destruct (thrown_at it) as [e|] eqn:Et.
    + split; [discriminate|]. intros Hf. inversion Hf; congruence.
    + rewrite IH. split; [constructor; assumption | intros Hf; inversion Hf; assumption].
Qed.

Lemma first_throw_cases items e :
  first_throw items = Some e -> e = shadowed \/ e = null_read "lmay_file".
Proof.
  induction items as [|[itemName [itemInfo|]] items IH].
  - discriminate.
  - rewrite first_throw_cons. unfold thrown_at. cbn [snd].
    destruct (link_of itemInfo).
    + intros [= <-]. left. reflexivity.
    + exact IH.
  - rewrite first_throw_cons. intros [= <-]. right. reflexivity.
Qed.

(** A link makes the loop throw, there or at an entry before it. *)
Lemma has_link_throws items :
  existsb has_link items = true -> is_Some (first_throw items).
Proof.
  induction items as [|[itemName [itemInfo|]] items IH].
  - discriminate.
  - rewrite first_throw_cons. cbn [existsb]. unfold has_link at 1, thrown_at.
    cbn [snd mbind option_bind].
    destruct (link_of itemInfo) as [l|]; [eauto|].
    rewrite bool_decide_eq_false_2 by (intros [? ?]; discriminate). exact IH.
  - rewrite first_throw_cons. eauto.
Qed.

(** The loop stops at the first entry that is [null] or carries a
    link, before anything is compared or pushed. *)
Lemma scan_items_outcome rec m filePath path items t :
  scan_items rec m filePath path items t
  = Some match first_throw items with
         | Some e => Thrown e t
         | None => Returned t
         end.
Proof.
  induction items as [|[itemName [itemInfo|]] rest IH]; [reflexivity| |reflexivity].
  rewrite first_throw_cons. cbn [scan_items]. unfold thrown_at. cbn [snd].
  destruct (link_of itemInfo) as [l|] eqn:El; [reflexivity | exact IH].
Qed.

(** The entries [detectCircularReferencesRecursive] walks for a file. *)
Definition items_of (m : FileMap) (filePath : string)
    : list (string * option StructureItem) :=
  default [] (data ← map_get m filePath; if truthy data then structure_of data else None).

Lemma recursive_outcome fuel m filePath path t :
  detectCircularReferencesRecursive (S fuel) m filePath path t
  = Some match first_throw (items_of m filePath) with
         | Some e =>
             Thrown e (mkTraversal ({[filePath]} ∪ visited t)
                                   ({[filePath]} ∪ recursionStack t) (reported t))
         | None =>
             Returned (mkTraversal ({[filePath]} ∪ visited t)
                                   (({[filePath]} ∪ recursionStack t) ∖ {[filePath]})
                                   (reported t))
         end.
Proof.
  simpl. rewrite scan_items_outcome. fold (items_of m filePath).
  destruct (first_throw (items_of m filePath)); reflexivity.
Qed.

(** The entries of all loaded documents, in the order of the
    traversal. *)
Definition all_items (m : FileMap) (keys : list string)
    : list (string * option StructureItem) :=
  concat (items_of m <$> keys).

Lemma detect_from_keys_outcome fuel m keys : forall t,
  (forall k, k ∈ visited t -> first_throw (items_of m k) = None) ->
  exists t',
    detect_from_keys (S fuel) m keys t
    = Some match first_throw (all_items m keys) with
           | Some e => Thrown e t'
           | None => Returned t'
           end
    /\ reported t' = reported t.
Proof.
  unfold all_items.
  induction keys as [|k keys IH]; intros t Hvis; cbn [detect_from_keys fmap list_fmap concat].
  - exists t. split; reflexivity.
  - rewrite first_throw_app. case_bool_decide as Hk.
    + rewrite (Hvis k Hk). apply IH. exact Hvis.
    + rewrite recursive_outcome.
      destruct (first_throw (items_of m k)) as [e|] eqn:Ek.
      * eexists. split; reflexivity.
      * match goal with |- context [detect_from_keys _ _ _ ?t1] =>
          destruct (IH t1) as (t' & -> & Hr) end.
        -- simpl. intros k' Hk'. apply elem_of_union in Hk'.
           destruct Hk' as [Hk' | Hk']; [|auto].
           apply elem_of_singleton in Hk'. subst. exact Ek.
        -- exists t'. split; [reflexivity | exact Hr].
Qed.

(** Whatever the graph, the traversal ends without having pushed a
    single finding, and the first entry that is [null] or carries a
    link decides how: without one the call returns, with one it
    throws what that entry throws. *)
Lemma detectCircularReferences_outcome fuel st :
  detectCircularReferences (S fuel) st
  = Some (st, first_throw (all_items (fileMap st) (fileMap st).*1)).
Proof.
  unfold detectCircularReferences.
  destruct (detect_from_keys_outcome fuel (fileMap st) (fileMap st).*1
              (mkTraversal ∅ ∅ (errors st))) as (t' & -> & Hr).
  { simpl. set_solver. }
  simpl in Hr. destruct st as [es ws m]. simpl in *.
  destruct (first_throw _); rewrite Hr; reflexivity.
Qed.

Lemma all_items_throw m keys :
  is_Some (first_throw (all_items m keys))
  <-> exists k, k ∈ keys /\ is_Some (first_throw (items_of m k)).
Proof.
  unfold all_items. induction keys as [|k keys IH]; simpl.
  - split; [intros [? ?]; discriminate | intros (k & Hk & _); inversion Hk].
  - rewrite first_throw_app. destruct (first_throw (items_of m k)) as [e|] eqn:Ek.
    + split; [|eauto]. intros _. exists k. split; [left | rewrite Ek; eauto].
    + rewrite IH. split.
      * intros (k' & Hin & Hk'). exists k'. split; [right; exact Hin | exact Hk'].
      * intros (k' & Hin & Hk'). apply elem_of_cons in Hin.
        destruct Hin as [-> | Hin]; [|eauto].
        rewrite Ek in Hk'. destruct Hk'; discriminate.
Qed.

Lemma detectCircularReferences_never_reports fuel st :
  exists e, detectCircularReferences (S fuel) st = Some (st, e)
            /\ (e = None \/ e = Some shadowed \/ e = Some (null_read "lmay_file")).
Proof.
  rewrite detectCircularReferences_outcome. eexists. split; [reflexivity|].
  destruct (first_throw _) as [e|] eqn:Ee; [right | left; reflexivity].
  apply first_throw_cases in Ee. destruct Ee as [-> | ->]; auto.
Qed.

(** The traversal throws as soon as some loaded document carries a
    nested-document link. *)
Lemma detectCircularReferences_throws fuel st :
  (exists k, k ∈ (fileMap st).*1 /\ existsb has_link (items_of (fileMap st) k) = true) ->
  exists e, detectCircularReferences (S fuel) st = Some (st, Some e).
Proof.
  intros (k & Hk & Hl). rewrite detectCircularReferences_outcome.
  assert (Ht : is_Some (first_throw (all_items (fileMap st) (fileMap st).*1))).
  { apply all_items_throw. exists k. split; [exact Hk | apply has_link_throws; exact Hl]. }
  destruct Ht as [e ->]. eauto.
Qed.

(** Whatever the fuel, a call that comes back leaves the state as it
    was. *)
Lemma detectCircularReferences_state fuel st st' e :
  detectCircularReferences fuel st = Some (st', e) -> st' = st.
Proof.
  destruct fuel as [|fuel].
  - unfold detectCircularReferences. destruct st as [es ws [|[k d] m]]; simpl.
    + intros [= <- <-]. reflexivity.
    + discriminate.
  - rewrite detectCircularReferences_outcome. intros [= <- <-]. reflexivity.
Qed.

End WithPath.

(** Scenario A of the specification: the root links [a.lmay], which
    links [b.lmay], which links [a.lmay] again. *)
Definition scenarioA : FileMap :=
  [("/p/root.lmay", doc_of_structure [("a", link_item "a.lmay")]);
   ("/p/a.lmay", doc_of_structure [("b", link_item "b.lmay")]);
   ("/p/b.lmay", doc_of_structure [("a", link_item "a.lmay")])].

End CycleFacts.

(** ** Orphan documents *)

Module OrphanFacts.

Import ReferenceValidator.

Lemma js_set_of_elem (l acc : list string) (x : string) :
  x ∈ js_set_of l acc <-> x ∈ acc \/ x ∈ l.
Proof.
  revert acc. induction l as [|y l IH]; intros acc; simpl.
  - set_solver.
  - rewrite IH. case_bool_decide; set_solver.
Qed.

Lemma js_set_of_NoDup (l acc : list string) :
  NoDup acc -> NoDup (js_set_of l acc).
Proof.
  revert acc. induction l as [|y l IH]; intros acc Hacc; simpl; [assumption|].
  apply IH. case_bool_decide; [assumption|].
  apply NoDup_app. split; [assumption|]. split.
  - intros x Hx Hy. apply list_elem_of_singleton in Hy. subst. contradiction.
  - apply NoDup_singleton.
Qed.

(** Some loaded document has a [null] structure entry. *)
Definition null_entry (m : FileMap) : Prop :=
  exists filePath data items itemName,
    (filePath, data) ∈ m /\ structure_of data = Some items /\ (itemName, None) ∈ items.

Section WithPath.
Context `{PathOps}.

Lemma collect_links_inr filePath items : forall acc referenced,
  collect_links filePath items acc = inr referenced ->
  (forall itemName, (itemName, None) ∉ items) /\
  forall x, x ∈ referenced
            <-> x ∈ acc \/ x ∈ omap (fun it => itemInfo ← snd it;
                                        resolve_link filePath <$> link_of itemInfo) items.
Proof.
  induction items as [|[itemName [itemInfo|]] items IH]; intros acc referenced; simpl.
  - intros [= <-]. split; [intros ? Hin; inversion Hin|]. intros x. set_solver.
  - destruct (link_of itemInfo) as [l|]; simpl; intros Hc; apply IH in Hc;
      destruct Hc as [Hnull Hx]; (split; [intros n Hin; apply elem_of_cons in Hin;
        destruct Hin as [[=] | Hin]; exact (Hnull n Hin)|]); intros x; rewrite Hx; set_solver.
  - discriminate.
Qed.

Lemma collect_links_inl filePath items acc e :
  collect_links filePath items acc = inl e ->
  e = null_read "lmay_file" /\ exists itemName, (itemName, None) ∈ items.
Proof.
  revert acc. induction items as [|[itemName [itemInfo|]] items IH]; intros acc; simpl.
  - discriminate.
  - intros Hc. assert (Hrest : exists acc', collect_links filePath items acc' = inl e)
      by (destruct (link_of itemInfo); eauto).
    destruct Hrest as (acc' & Hrest). apply IH in Hrest.
    destruct Hrest as [-> (n & Hn)]. split; [reflexivity|]. exists n. right. exact Hn.
  - intros [= <-]. split; [reflexivity|]. exists itemName. left.
Qed.

Lemma collect_referenced_inr (m : FileMap) : forall acc referenced,
  collect_referenced m acc = inr referenced ->
  ~ null_entry m /\
  forall x, x ∈ referenced <-> x ∈ acc \/ exists g, edge m g x.
Proof.
  induction m as [|[f data] m IH]; intros acc referenced; simpl.
  - intros [= <-]. split.
    + intros (? & ? & ? & ? & Hin & _). inversion Hin.
    + intros x. split; [auto | intros [?|[g [d [Hin _]]]]; [assumption | inversion Hin]].
  - intros Hc.
    assert (Hstep : exists acc',
               collect_referenced m acc' = inr referenced /\
               (forall items itemName, structure_of data = Some items ->
                                       (itemName, None) ∉ items) /\
               forall x, x ∈ acc' <-> x ∈ acc \/ x ∈ doc_links f data).
    { unfold doc_links. destruct (structure_of data) as [items|].
      - destruct (collect_links f items acc) as [e|acc'] eqn:El; [discriminate|].
        apply collect_links_inr in El. destruct El as [Hnull Hx].
        exists acc'. split; [exact Hc|]. split; [|exact Hx].
        intros items' n [= <-]. apply Hnull.
      - exists acc. split; [exact Hc|]. split; [discriminate|]. intros x. set_solver. }
    destruct Hstep as (acc' & Hrest & Hnull & Hacc').
    apply IH in Hrest. destruct Hrest as [Hnone Hx]. split.
    + intros (g & d & items & n & Hin & Hs & Hn).
      apply elem_of_cons in Hin. destruct Hin as [[= -> ->] | Hin].
      * exact (Hnull _ _ Hs Hn).
      * apply Hnone. exists g, d, items, n. auto.
    + intros x. rewrite Hx, Hacc'. unfold edge. split.
      * intros [[Hacc | Hl] | [g [d [Hin Hg]]]].
        -- left. assumption.
        -- right. exists f, data. split; [left | assumption].
        -- right. exists g, d. split; [right; assumption | assumption].
      * intros [Hacc | [g [d [Hin Hg]]]].
        -- left. left. assumption.
        -- apply elem_of_cons in Hin. destruct Hin as [[= -> ->] | Hin].
           ++ left. right. assumption.
           ++ right. exists g, d. split; assumption.
Qed.

Lemma collect_referenced_inl (m : FileMap) : forall acc e,
  collect_referenced m acc = inl e -> e = null_read "lmay_file" /\ null_entry m.
Proof.
  induction m as [|[f data] m IH]; intros acc e; simpl; [discriminate|].
  destruct (structure_of data) as [items|] eqn:Hs.
  - destruct (collect_links f items acc) as [e'|acc'] eqn:El.
    + intros [= <-]. apply collect_links_inl in El. destruct El as [-> (n & Hn)].
      split; [reflexivity|]. exists f, data, items, n. split; [left | auto].
    + intros Hc. apply IH in Hc. destruct Hc as [-> (g & d & its & n & Hin & Hd & Hn)].
      split; [reflexivity|]. exists g, d, its, n. split; [right; exact Hin | auto].
  - intros Hc. apply IH in Hc. destruct Hc as [-> (g & d & its & n & Hin & Hd & Hn)].
    split; [reflexivity|]. exists g, d, its, n. split; [right; exact Hin | auto].
Qed.

Lemma referencedFiles_elem projectPath allLMAYFiles m referenced x :
  referencedFiles projectPath allLMAYFiles m = inr referenced ->
  x ∈ referenced
  <-> (x = path_join projectPath "root.lmay" /\ x ∈ allLMAYFiles)
      \/ exists g, edge m g x.
Proof.
  unfold referencedFiles. intros Hc. apply collect_referenced_inr in Hc.
  destruct Hc as [_ Hx]. rewrite Hx. case_bool_decide; set_solver.
Qed.

Lemma foldl_orphans (referenced : gset string) (l : list string) (st : State) :
  foldl (fun st lmayFile =>
           if bool_decide (lmayFile ∈ referenced) then st
           else push_warning st (orphan_lmay_file lmayFile)) st l
  = mkState (errors st)
            (warnings st ++ (orphan_lmay_file <$> filter (fun f => f ∉ referenced) l))
            (fileMap st).
Proof.
  revert st. induction l as [|f l IH]; intros st; simpl.
  - rewrite app_nil_r. destruct st; reflexivity.
  - rewrite IH. rewrite filter_cons. case_bool_decide as Hf.
    + rewrite decide_False by (intros Hn; contradiction). reflexivity.
    + rewrite decide_True by assumption. simpl.
      rewrite <- app_assoc. reflexivity.
Qed.

#[local] Instance orphan_lmay_file_inj : Inj (=) (=) orphan_lmay_file.
Proof. intros a b Hab. unfold orphan_lmay_file, finding in Hab. congruence. Qed.

(** A document reached from [g] is [g] itself or the target of some
    link. *)
Lemma reached_is_linked (m : FileMap) (g f : string) :
  rtc (edge m) g f -> f = g \/ exists h, edge m h f.
Proof.
  intros Hr. apply rtc_inv_r in Hr. destruct Hr as [-> | (h & _ & Hh)]; eauto.
Qed.

(** The two ways [detectOrphanFiles] ends.  It throws, before any
    warning is pushed, exactly when a loaded document has a [null]
    structure entry.  Otherwise it only appends warnings: a
    discovered [.lmay] file gets an [orphan_lmay_file] warning, once,
    exactly when it is not [<project>/root.lmay] and no loaded
    document has a nested-document link that resolves to it. *)
Lemma detectOrphanFiles_spec projectPath listing st :
  let rootFile := path_join projectPath "root.lmay" in
  (null_entry (fileMap st) /\
   detectOrphanFiles projectPath listing st = (st, Some (null_read "lmay_file")))
  \/
  (~ null_entry (fileMap st) /\
   exists added,
     detectOrphanFiles projectPath listing st
     = (mkState (errors st) (warnings st ++ added) (fileMap st), None) /\
     NoDup added /\
     (forall w, w ∈ added -> exists f, w = orphan_lmay_file f) /\
     (forall f, orphan_lmay_file f ∈ added <->
                f ∈ findAllLMAYFiles projectPath listing /\
                f <> rootFile /\
                ~ exists g, edge (fileMap st) g f) /\
     (forall f, orphan_lmay_file f ∈ added -> ~ rtc (edge (fileMap st)) rootFile f)).
Proof.
  intros rootFile. unfold detectOrphanFiles.
  set (all := js_set_of (findAllLMAYFiles projectPath listing) []).
  destruct (referencedFiles projectPath all (fileMap st)) as [e|referenced] eqn:Hr.
  - left. unfold referencedFiles in Hr. apply collect_referenced_inl in Hr.
    destruct Hr as [-> Hnull]. split; [exact Hnull | reflexivity].
  - right. split.
    { unfold referencedFiles in Hr. apply collect_referenced_inr in Hr. apply Hr. }
    exists (orphan_lmay_file <$> filter (fun f => f ∉ referenced) all).
    assert (Hflag : forall f, orphan_lmay_file f ∈
                                orphan_lmay_file <$> filter (fun f => f ∉ referenced) all
                              <-> f ∈ findAllLMAYFiles projectPath listing /\
                                  f <> rootFile /\ ~ exists g, edge (fileMap st) g f).
    { intros f. rewrite (list_elem_of_fmap_inj orphan_lmay_file).
      rewrite list_elem_of_filter. rewrite (referencedFiles_elem _ _ _ _ _ Hr).
      unfold all. rewrite !js_set_of_elem. fold rootFile. split.
      - intros [Hn [Hin|Hin]]; [inversion Hin|]. repeat split; [assumption| |].
        + intros ->. apply Hn. left. split; [reflexivity | right; assumption].
        + intros Hg. apply Hn. right. assumption.
      - intros (Hin & Hroot & Hno). split; [|right; assumption].
        intros [[Hr' _] | Hg]; contradiction. }
    split_and!.
    + rewrite foldl_orphans. reflexivity.
    + apply (NoDup_fmap_2 orphan_lmay_file). apply NoDup_filter.
      apply js_set_of_NoDup. constructor.
    + intros w Hw. apply list_elem_of_fmap in Hw. destruct Hw as (f & -> & _). eauto.
    + apply Hflag.
    + intros f Hf Hreach. apply Hflag in Hf. destruct Hf as (_ & Hroot & Hno).
      apply reached_is_linked in Hreach. destruct Hreach; [contradiction | auto].
Qed.

End WithPath.

#[local] Existing Instance SimplePosix.ops.

(** A project where [c.lmay] is linked from nowhere and links
    [d.lmay]. *)
Definition unlinked_pair : FileMap :=
  [("/p/root.lmay", leaf_doc);
   ("/p/c.lmay", doc_of_structure [("d", link_item "d.lmay")]);
   ("/p/d.lmay", leaf_doc)].

Definition unlinked_pair_listing : option (list DirEntry) :=
  Some [EFile "root.lmay"; EFile "c.lmay"; EFile "d.lmay"].

(** Called on its own, [detectOrphanFiles] looks at direct links, not
    at what the root reaches: [d.lmay] is discovered and cannot be
    reached from the root, yet it is not flagged, because the (orphan)
    document [c.lmay] links it. *)
Lemma orphan_unreachable_not_flagged :
  "/p/d.lmay" ∈ findAllLMAYFiles "/p" unlinked_pair_listing /\
  ~ rtc (edge unlinked_pair) "/p/root.lmay" "/p/d.lmay" /\
  detectOrphanFiles "/p" unlinked_pair_listing (mkState [] [] unlinked_pair)
  = (mkState [] [orphan_lmay_file "/p/c.lmay"] unlinked_pair, None).
Proof.
  split; [|split].
  - vm_compute. set_solver.
  - intros Hr. apply rtc_inv in Hr. destruct Hr as [Heq | (y & (data & Hin & Hy) & _)].
    + discriminate.
    + unfold unlinked_pair in Hin.
      apply elem_of_cons in Hin. destruct Hin as [Heq | Hin].
      * inversion Heq; subst. vm_compute in Hy. inversion Hy.
      * apply elem_of_cons in Hin. destruct Hin as [Heq | Hin]; [discriminate|].
        apply elem_of_cons in Hin. destruct Hin as [Heq | Hin]; [discriminate|].
        inversion Hin.
  - vm_compute. reflexivity.
Qed.

End OrphanFacts.

(** ** The reference validator as a whole *)

Module PipelineFacts.

Import ReferenceValidator.
Import CycleFacts.

(** The types of the errors that the reference checks and the loader
    push. *)
Definition check_errors : list string :=
  ["referenced_path_not_found"; "type_mismatch"; "lmay_file_not_found";
   "entry_point_not_found"; "entry_point_not_file"; "internal_dependency_not_found";
   "file_load_error"].

(** What the reference checks can throw: the reads of [path] and
    [file] on a [null] entry or element. *)
Definition thrown_by_checks (e : option Exn) : Prop :=
  e = None \/ e = Some (null_read "path") \/ e = Some (null_read "file").

(** *** One walk through the reference checks

    A relation between the state before and the state after that
    every elementary step respects is respected by the checks as a
    whole, however they end. *)
Section Steps.
Context `{PathOps}.
Variable yaml_load : string -> option Yaml.
Variable disk : gmap string FsEntry.
Variable R : State -> State -> Prop.
Hypothesis R_refl : forall st, R st st.
Hypothesis R_trans : forall st1 st2 st3, R st1 st2 -> R st2 st3 -> R st1 st3.
Hypothesis R_error : forall st f, f_type f ∈ check_errors -> R st (push_error st f).
Hypothesis R_warning :
  forall st f, f_type f = "invalid_lmay_extension" -> R st (push_warning st f).
Hypothesis R_load :
  forall p st, R st (snd (loadLMAYFile yaml_load (readFileSync disk) p st)).

Ltac step_push :=
  first [ apply R_refl
        | apply R_error; unfold check_errors; simpl; set_solver
        | apply R_warning; reflexivity ].

Lemma check_item_path_step itemName itemInfo filePath basePath st :
  R st (check_item_path disk itemName itemInfo filePath basePath st).
Proof.
  unfold check_item_path.
  destruct (str_truthy (item_path itemInfo)); [|step_push].
  destruct (negb (existsSync disk _)); [step_push|].
  destruct (_ && _); step_push.
Qed.

Lemma validateEntryPointReferences_step entryPoints : forall i filePath basePath st,
  R st (validateEntryPointReferences disk i entryPoints filePath basePath st).1 /\
  thrown_by_checks (validateEntryPointReferences disk i entryPoints filePath basePath st).2.
Proof.
  induction entryPoints as [|[entryPoint|] rest IH]; intros i filePath basePath st;
    cbn [validateEntryPointReferences fst snd].
  - split; [apply R_refl | left; reflexivity].
  - match goal with |- context [validateEntryPointReferences _ _ _ _ _ ?s] =>
      destruct (IH (S i) filePath basePath s) as [Hr He]; assert (H1 : R st s) end.
    { destruct (str_truthy (ep_file entryPoint)); [|step_push].
      destruct (negb (existsSync disk _)); [step_push|].
      destruct (negb (isFile disk _)); step_push. }
    split; [eapply R_trans; eassumption | exact He].
  - split; [apply R_refl | right; right; reflexivity].
Qed.

Lemma validateInternalDependencyReferences_step internalDeps :
  forall i filePath basePath st,
    R st (validateInternalDependencyReferences disk i internalDeps filePath basePath st).1 /\
    thrown_by_checks
      (validateInternalDependencyReferences disk i internalDeps filePath basePath st).2.
Proof.
  induction internalDeps as [|[dep|] rest IH]; intros i filePath basePath st;
    cbn [validateInternalDependencyReferences fst snd].
  - split; [apply R_refl | left; reflexivity].
  - match goal with |- context [validateInternalDependencyReferences _ _ _ _ _ ?s] =>
      destruct (IH (S i) filePath basePath s) as [Hr He]; assert (H1 : R st s) end.
    { destruct (_ && _); step_push. }
    split; [eapply R_trans; eassumption | exact He].
  - split; [apply R_refl | right; left; reflexivity].
Qed.

Definition steps_ok (rec : Yaml -> string -> string -> State -> option (State * option Exn))
    : Prop :=
  forall data filePath basePath st st' e,
    rec data filePath basePath st = Some (st', e) -> R st st' /\ thrown_by_checks e.

Lemma validateLMAYFileReference_step rec lmayFilePath parentFile basePath contextPath
    st st' e :
  steps_ok rec ->
  validateLMAYFileReference yaml_load disk rec lmayFilePath parentFile basePath
                            contextPath st = Some (st', e) ->
  R st st' /\ thrown_by_checks e.
Proof.
  intros Hrec. unfold validateLMAYFileReference.
  destruct (negb (existsSync disk _)).
  - intros [= <- <-]. split; [step_push | left; reflexivity].
  - set (st1 := if negb (endsWith lmayFilePath ".lmay") then _ else st).
    assert (H1 : R st st1) by (unfold st1; destruct (negb _); step_push).
    pose proof (R_load (path_resolve basePath lmayFilePath) st1) as H2.
    destruct (loadLMAYFile _ _ _ st1) as [referencedData st2]. simpl in H2.
    destruct (truthy referencedData).
    + intros Hr. apply Hrec in Hr. destruct Hr as [Hr He].
      split; [|exact He]. eapply R_trans; [exact H1|]. eapply R_trans; eassumption.
    + intros [= <- <-]. split; [eapply R_trans; eassumption | left; reflexivity].
Qed.

Lemma validateStructureReferences_step rec structure :
  steps_ok rec ->
  forall filePath basePath st st' e,
    validateStructureReferences yaml_load disk rec structure filePath basePath st
    = Some (st', e) ->
    R st st' /\ thrown_by_checks e.
Proof.
  intros Hrec. induction structure as [|[itemName [itemInfo|]] rest IH];
    intros filePath basePath st st' e; cbn [validateStructureReferences].
  - intros [= <- <-]. split; [apply R_refl | left; reflexivity].
  - pose proof (check_item_path_step itemName itemInfo filePath basePath st) as H1.
    destruct (link_of itemInfo) as [l|].
    + destruct (validateLMAYFileReference _ _ _ _ _ _ _ _) as [[st2 [e2|]]|] eqn:E;
        [| |discriminate].
      * intros [= <- <-]. apply validateLMAYFileReference_step in E; [|exact Hrec].
        destruct E as [Hr He]. split; [eapply R_trans; eassumption | exact He].
      * apply validateLMAYFileReference_step in E; [|exact Hrec]. destruct E as [Hr _].
        intros Hv. apply IH in Hv. destruct Hv as [Hr' He].
        split; [|exact He]. eapply R_trans; [exact H1|]. eapply R_trans; eassumption.
    + intros Hv. apply IH in Hv. destruct Hv as [Hr' He].
      split; [eapply R_trans; eassumption | exact He].
  - intros [= <- <-]. split; [apply R_refl | right; left; reflexivity].
Qed.

Lemma validateFileReferences_steps fuel :
  steps_ok (validateFileReferences yaml_load disk fuel).
Proof.
  induction fuel as [|fuel IH]; intros data filePath basePath st st' e;
    cbn [validateFileReferences]; [discriminate|].
  destruct (match structure_of data with Some _ => _ | None => Some (st, None) end)
    as [[st1 [e1|]]|] eqn:E; [| |discriminate].
  - intros [= <- <-]. destruct (structure_of data) as [structure|].
    + eapply validateStructureReferences_step; eassumption.
    + discriminate.
  - assert (H1 : R st st1).
    { destruct (structure_of data) as [structure|].
      - eapply validateStructureReferences_step; eassumption.
      - injection E as <-. apply R_refl. }
    destruct (match entry_points_of data with Some _ => _ | None => (st1, None) end)
      as [st2 e2] eqn:E2.
    assert (H2 : R st1 st2 /\ thrown_by_checks e2).
    { destruct (entry_points_of data) as [eps|].
      - pose proof (validateEntryPointReferences_step eps 0 filePath basePath st1) as Hs.
        rewrite E2 in Hs. exact Hs.
      - injection E2 as <- <-. split; [apply R_refl | left; reflexivity]. }
    destruct H2 as [H2 He2]. destruct e2 as [e2|].
    + intros [= <- <-]. split; [eapply R_trans; eassumption | exact He2].
    + intros [= Hv].
      assert (H3 : R st2 st' /\ thrown_by_checks e).
      { destruct (internal_dependencies_of data) as [deps|].
        - pose proof (validateInternalDependencyReferences_step deps 0 filePath basePath st2)
            as Hs.
          rewrite Hv in Hs. exact Hs.
        - injection Hv as <- <-. split; [apply R_refl | left; reflexivity]. }
      destruct H3 as [H3 He]. split; [|exact He].
      eapply R_trans; [exact H1|]. eapply R_trans; eassumption.
Qed.

Lemma discover_each_steps fuel projectPath lmayFiles : forall st st' e,
  discover_each yaml_load disk fuel projectPath lmayFiles st = Some (st', e) ->
  R st st' /\ thrown_by_checks e.
Proof.
  induction lmayFiles as [|lmayFile rest IH]; intros st st' e; cbn [discover_each].
  - intros [= <- <-]. split; [apply R_refl | left; reflexivity].
  - destruct (negb (map_has (fileMap st) lmayFile)); [|apply IH].
    pose proof (R_load lmayFile st) as H1.
    destruct (loadLMAYFile _ _ _ st) as [data st1]. simpl in H1.
    destruct (truthy data).
    + destruct (validateFileReferences _ _ _ _ _ _ st1) as [[st2 [e2|]]|] eqn:E;
        [| |discriminate].
      * intros [= <- <-]. apply validateFileReferences_steps in E. destruct E as [Hr He].
        split; [eapply R_trans; eassumption | exact He].
      * apply validateFileReferences_steps in E. destruct E as [Hr _].
        intros Hd. apply IH in Hd. destruct Hd as [Hr' He].
        split; [|exact He]. eapply R_trans; [exact H1|]. eapply R_trans; eassumption.
    + intros Hd. apply IH in Hd. destruct Hd as [Hr' He].
      split; [eapply R_trans; eassumption | exact He].
Qed.

End Steps.

(** No [circular_reference] error and no [orphan_lmay_file] warning. *)
Definition silent (st : State) : Prop :=
  Forall (fun f => f_type f <> "circular_reference") (errors st) /\
  Forall (fun f => f_type f <> "orphan_lmay_file") (warnings st).

Lemma push_error_silent st f :
  f_type f <> "circular_reference" -> silent st -> silent (push_error st f).
Proof.
  intros Hf [He Hw]. split; simpl; [|assumption].
  apply Forall_app. split; [assumption | repeat constructor; assumption].
Qed.

Lemma push_warning_silent st f :
  f_type f <> "orphan_lmay_file" -> silent st -> silent (push_warning st f).
Proof.
  intros Hf [He Hw]. split; simpl; [assumption|].
  apply Forall_app. split; [assumption | repeat constructor; assumption].
Qed.

Ltac silent_push :=
  repeat first
    [ assumption
    | apply push_error_silent; [simpl; discriminate|]
    | apply push_warning_silent; [simpl; discriminate|] ].

(** A document without [null] where the checks dereference: no
    entry of [structure] and no element of [entry_points] or of the
    internal dependencies is [null]. *)
Definition null_free (data : Yaml) : Prop :=
  Forall (fun it : string * option StructureItem => is_Some (snd it))
         (default [] (structure_of data)) /\
  Forall (fun entryPoint : option EntryPoint => is_Some entryPoint)
         (default [] (entry_points_of data)) /\
  Forall (fun dep : option InternalDependency => is_Some dep)
         (default [] (internal_dependencies_of data)).

Definition cache_null_free (st : State) : Prop :=
  Forall (fun entry : string * Yaml => null_free (snd entry)) (fileMap st).

Lemma null_free_scalar s : null_free (YScalar s).
Proof. repeat split; constructor. Qed.

(** Without a [null] entry the first exception of the cycle
    detection is that of the shadowed [path]. *)
Lemma first_throw_null_free items e :
  Forall (fun it : string * option StructureItem => is_Some (snd it)) items ->
  first_throw items = Some e -> e = shadowed.
Proof.
  induction 1 as [|[itemName entry] items [itemInfo Hi] _ IH].
  - discriminate.
  - simpl in Hi. subst entry. rewrite first_throw_cons. unfold thrown_at. cbn [snd].
    destruct (link_of itemInfo); [intros [= <-]; reflexivity | exact IH].
Qed.

Lemma all_items_null_free (st : State) keys :
  cache_null_free st ->
  Forall (fun it : string * option StructureItem => is_Some (snd it))
         (all_items (fileMap st) keys).
Proof.
  intros Hc. unfold all_items. apply Forall_concat, Forall_fmap, Forall_forall.
  intros k _. simpl. unfold items_of.
  destruct (map_get (fileMap st) k) as [d|] eqn:Hg; [|constructor]. simpl.
  apply LoaderFacts.map_get_elem in Hg. unfold cache_null_free in Hc.
  rewrite Forall_forall in Hc. destruct (Hc _ Hg) as [Hitems _]. simpl in Hitems.
  destruct (truthy d); [|constructor].
  destruct (structure_of d); [exact Hitems | constructor].
Qed.

Lemma null_entry_not_null_free (st : State) :
  cache_null_free st -> ~ OrphanFacts.null_entry (fileMap st).
Proof.
  intros Hc (f & data & items & n & Hin & Hs & Hn). unfold cache_null_free in Hc.
  rewrite Forall_forall in Hc. destruct (Hc _ Hin) as [Hitems _]. simpl in Hitems.
  rewrite Hs in Hitems. simpl in Hitems.
  rewrite Forall_forall in Hitems. apply Hitems in Hn. destruct Hn; discriminate.
Qed.

(** The exceptions that can reach the [catch] of [validateProject]. *)
Definition caught : list Exn :=
  [shadowed; null_read "lmay_file"; null_read "path"; null_read "file"].

Lemma thrown_by_checks_caught e : thrown_by_checks (Some e) -> e ∈ caught.
Proof.
  unfold caught. intros [He | [He | He]]; [discriminate | |];
    injection He as ->; set_solver.
Qed.

Section Project.
Context `{PathOps}.
Variable yaml_load : string -> option Yaml.
Variable disk : gmap string FsEntry.
Variable listing : option (list DirEntry).

Lemma loadLMAYFile_silent p st :
  silent st -> silent (snd (loadLMAYFile yaml_load (readFileSync disk) p st)).
Proof.
  intros Hs. unfold loadLMAYFile.
  destruct (map_has (fileMap st) p); [assumption|].
  destruct (readFileSync disk p) as [content|]; [|simpl; silent_push].
  destruct (yaml_load content); simpl; [destruct Hs; split; assumption | silent_push].
Qed.

Lemma check_errors_not_circular f :
  f_type f ∈ check_errors -> f_type f <> "circular_reference".
Proof.
  intros Hin Heq. rewrite Heq in Hin. unfold check_errors in Hin.
  repeat (apply elem_of_cons in Hin; destruct Hin as [Hin | Hin]; [discriminate|]).
  inversion Hin.
Qed.

Lemma validateFileReferences_silent fuel data filePath basePath st st' e :
  validateFileReferences yaml_load disk fuel data filePath basePath st = Some (st', e) ->
  (silent st -> silent st') /\ thrown_by_checks e.
Proof.
  apply (validateFileReferences_steps yaml_load disk (fun a b => silent a -> silent b)).
  - auto.
  - auto.
  - intros s f Hf Hs. apply push_error_silent; [|exact Hs].
    apply check_errors_not_circular. exact Hf.
  - intros s f Hf Hs. apply push_warning_silent; [|exact Hs]. rewrite Hf. discriminate.
  - intros p s. apply loadLMAYFile_silent.
Qed.

Lemma discover_each_silent fuel projectPath lmayFiles st st' e :
  discover_each yaml_load disk fuel projectPath lmayFiles st = Some (st', e) ->
  (silent st -> silent st') /\ thrown_by_checks e.
Proof.
  apply (discover_each_steps yaml_load disk (fun a b => silent a -> silent b)).
  - auto.
  - auto.
  - intros s f Hf Hs. apply push_error_silent; [|exact Hs].
    apply check_errors_not_circular. exact Hf.
  - intros s f Hf Hs. apply push_warning_silent; [|exact Hs]. rewrite Hf. discriminate.
  - intros p s. apply loadLMAYFile_silent.
Qed.

(** The check of a document whose only content is one link to an
    existing [.lmay] file: load the target and check it in turn. *)
Lemma single_link_step fuel itemName l filePath basePath st :
  l <> "" ->
  existsSync disk (path_resolve basePath l) = true ->
  endsWith l ".lmay" = true ->
  validateFileReferences yaml_load disk (S fuel) (doc_of_structure [(itemName, link_item l)])
                         filePath basePath st
  = let r := loadLMAYFile yaml_load (readFileSync disk) (path_resolve basePath l) st in
    if truthy (fst r)
    then validateFileReferences yaml_load disk fuel (fst r) (path_resolve basePath l)
                                basePath (snd r)
    else Some (snd r, None).
Proof.
  intros Hl He Hs.
  cbn [validateFileReferences doc_of_structure structure_of structure
       entry_points_of entry_points internal_dependencies_of internal_dependencies
       link_item validateStructureReferences].
  unfold link_of. cbn [lmay_file].
  apply String.eqb_neq in Hl. rewrite Hl.
  unfold validateLMAYFileReference. rewrite He, Hs. cbn [negb].
  destruct (loadLMAYFile _ _ _ _) as [d st2]. cbn [fst snd].
  destruct (truthy d); [|reflexivity].
  destruct (validateFileReferences _ _ fuel d _ _ st2) as [[st3 [e|]]|]; reflexivity.
Qed.

Lemma load_first p :
  let r := loadLMAYFile yaml_load (readFileSync disk) p (mkState [] [] []) in
  fileMap (snd r) = [] \/ fileMap (snd r) = [(p, fst r)].
Proof.
  unfold loadLMAYFile. cbn.
  destruct (readFileSync disk p) as [content|]; [|left; reflexivity].
  destruct (yaml_load content); [right | left]; reflexivity.
Qed.

(** *** Documents without [null] *)

Lemma check_item_path_fileMap itemName itemInfo filePath basePath st :
  fileMap (check_item_path disk itemName itemInfo filePath basePath st) = fileMap st.
Proof.
  unfold check_item_path.
  destruct (str_truthy (item_path itemInfo)); [|reflexivity].
  destruct (negb (existsSync disk _)); [reflexivity|].
  destruct (_ && _); reflexivity.
Qed.

Lemma validateEntryPointReferences_null_free entryPoints :
  Forall (fun entryPoint : option EntryPoint => is_Some entryPoint) entryPoints ->
  forall i filePath basePath st,
  exists st',
    validateEntryPointReferences disk i entryPoints filePath basePath st = (st', None)
    /\ fileMap st' = fileMap st.
Proof.
  induction 1 as [|entryPoint rest [ep ->] _ IH]; intros i filePath basePath st;
    cbn [validateEntryPointReferences]; [eauto|].
  match goal with |- context [validateEntryPointReferences _ _ _ _ _ ?s] =>
    destruct (IH (S i) filePath basePath s) as (st' & -> & Hm) end.
  exists st'. split; [reflexivity|]. rewrite Hm.
  destruct (str_truthy (ep_file ep)); [|reflexivity].
  destruct (negb (existsSync disk _)); [reflexivity|].
  destruct (negb (isFile disk _)); reflexivity.
Qed.

Lemma validateInternalDependencyReferences_null_free internalDeps :
  Forall (fun dep : option InternalDependency => is_Some dep) internalDeps ->
  forall i filePath basePath st,
  exists st',
    validateInternalDependencyReferences disk i internalDeps filePath basePath st
    = (st', None)
    /\ fileMap st' = fileMap st.
Proof.
  induction 1 as [|dep rest [d ->] _ IH]; intros i filePath basePath st;
    cbn [validateInternalDependencyReferences]; [eauto|].
  match goal with |- context [validateInternalDependencyReferences _ _ _ _ _ ?s] =>
    destruct (IH (S i) filePath basePath s) as (st' & -> & Hm) end.
  exists st'. split; [reflexivity|]. rewrite Hm.
  destruct (_ && _); reflexivity.
Qed.

Section NullFree.
Hypothesis parsed_null_free :
  forall content data, yaml_load content = Some data -> null_free data.

Lemma loadLMAYFile_null_free p st :
  cache_null_free st ->
  let r := loadLMAYFile yaml_load (readFileSync disk) p st in
  null_free (fst r) /\ cache_null_free (snd r).
Proof.
  intros Hc. unfold loadLMAYFile.
  destruct (map_has (fileMap st) p) eqn:Hhas; simpl.
  - split; [|exact Hc]. destruct (map_get (fileMap st) p) as [d|] eqn:Hg; simpl.
    + apply LoaderFacts.map_get_elem in Hg. unfold cache_null_free in Hc.
      rewrite Forall_forall in Hc. apply (Hc _ Hg).
    + apply null_free_scalar.
  - destruct (readFileSync disk p) as [content|]; simpl;
      [|split; [apply null_free_scalar | exact Hc]].
    destruct (yaml_load content) as [data|] eqn:Hy; simpl;
      [|split; [apply null_free_scalar | exact Hc]].
    pose proof (parsed_null_free _ _ Hy) as Hd.
    split; [exact Hd|].
    apply LoaderFacts.map_set_Forall; [intros; exact Hd | exact Hc].
Qed.

(** What the recursion has to guarantee. *)
Definition keeps_null_free
    (rec : Yaml -> string -> string -> State -> option (State * option Exn)) : Prop :=
  forall data filePath basePath st st' e,
    null_free data -> cache_null_free st ->
    rec data filePath basePath st = Some (st', e) ->
    e = None /\ cache_null_free st'.

Lemma validateLMAYFileReference_null_free rec lmayFilePath parentFile basePath
    contextPath st st' e :
  keeps_null_free rec ->
  cache_null_free st ->
  validateLMAYFileReference yaml_load disk rec lmayFilePath parentFile basePath
                            contextPath st = Some (st', e) ->
  e = None /\ cache_null_free st'.
Proof.
  intros Hrec Hc. unfold validateLMAYFileReference.
  destruct (negb (existsSync disk _)).
  { intros [= <- <-]. split; [reflexivity | exact Hc]. }
  set (st1 := if negb (endsWith lmayFilePath ".lmay") then _ else st).
  assert (Hc1 : cache_null_free st1) by (unfold st1; destruct (negb _); exact Hc).
  clearbody st1.
  destruct (loadLMAYFile_null_free (path_resolve basePath lmayFilePath) st1 Hc1)
    as [Hd Hc2].
  destruct (loadLMAYFile yaml_load (readFileSync disk) _ st1) as [referencedData st2].
  simpl in Hd, Hc2.
  destruct (truthy referencedData).
  - apply Hrec; assumption.
  - intros [= <- <-]. split; [reflexivity | exact Hc2].
Qed.

Lemma validateStructureReferences_null_free rec structure :
  keeps_null_free rec ->
  Forall (fun it : string * option StructureItem => is_Some (snd it)) structure ->
  forall filePath basePath st st' e,
    cache_null_free st ->
    validateStructureReferences yaml_load disk rec structure filePath basePath st
    = Some (st', e) ->
    e = None /\ cache_null_free st'.
Proof.
  intros Hrec. induction 1 as [|[itemName entry] rest [itemInfo Hi] _ IH];
    intros filePath basePath st st' e Hc.
  - simpl. intros [= <- <-]. split; [reflexivity | exact Hc].
  - simpl in Hi. subst entry. cbn [validateStructureReferences].
    assert (Hc1 : cache_null_free
                    (check_item_path disk itemName itemInfo filePath basePath st)).
    { unfold cache_null_free. rewrite check_item_path_fileMap. exact Hc. }
    destruct (link_of itemInfo) as [lmayFilePath|]; [|apply IH; exact Hc1].
    destruct (validateLMAYFileReference _ _ _ _ _ _ _ _) as [[st2 e2]|] eqn:E2;
      [|discriminate].
    apply validateLMAYFileReference_null_free in E2; [|exact Hrec | exact Hc1].
    destruct E2 as [-> Hc2]. apply IH. exact Hc2.
Qed.

Lemma validateFileReferences_null_free fuel :
  keeps_null_free (validateFileReferences yaml_load disk fuel).
Proof.
  induction fuel as [|fuel IH]; intros data filePath basePath st st' e Hd Hc;
    [discriminate|].
  destruct Hd as (Hitems & Heps & Hdeps). cbn [validateFileReferences].
  destruct (match structure_of data with Some _ => _ | None => Some (st, None) end)
    as [[st1 e1]|] eqn:E1; [|discriminate].
  assert (H1 : e1 = None /\ cache_null_free st1).
  { destruct (structure_of data) as [structure|].
    - eapply validateStructureReferences_null_free; [exact IH | exact Hitems | exact Hc
                                                     | exact E1].
    - injection E1 as <- <-. split; [reflexivity | exact Hc]. }
  destruct H1 as [-> Hc1].
  assert (H2 : exists st2,
             match entry_points_of data with
             | Some entryPoints =>
                 validateEntryPointReferences disk 0 entryPoints filePath basePath st1
             | None => (st1, None)
             end = (st2, None) /\ fileMap st2 = fileMap st1).
  { destruct (entry_points_of data) as [eps|]; [|eauto].
    apply validateEntryPointReferences_null_free. exact Heps. }
  destruct H2 as (st2 & -> & Hm2).
  assert (H3 : exists st3,
             match internal_dependencies_of data with
             | Some internalDeps =>
                 validateInternalDependencyReferences disk 0 internalDeps
                                                      filePath basePath st2
             | None => (st2, None)
             end = (st3, None) /\ fileMap st3 = fileMap st2).
  { destruct (internal_dependencies_of data) as [deps|]; [|eauto].
    apply validateInternalDependencyReferences_null_free. exact Hdeps. }
  destruct H3 as (st3 & -> & Hm3).
  intros [= <- <-]. split; [reflexivity|].
  unfold cache_null_free. rewrite Hm3, Hm2. exact Hc1.
Qed.

Lemma discover_each_null_free fuel projectPath lmayFiles : forall st st' e,
  cache_null_free st ->
  discover_each yaml_load disk fuel projectPath lmayFiles st = Some (st', e) ->
  e = None /\ cache_null_free st'.
Proof.
  induction lmayFiles as [|lmayFile rest IH]; intros st st' e Hc; cbn [discover_each].
  - intros [= <- <-]. split; [reflexivity | exact Hc].
  - destruct (negb (map_has (fileMap st) lmayFile)); [|apply IH; exact Hc].
    destruct (loadLMAYFile_null_free lmayFile st Hc) as [Hd Hc1].
    destruct (loadLMAYFile yaml_load (readFileSync disk) lmayFile st) as [data st1].
    simpl in Hd, Hc1.
    destruct (truthy data); [|apply IH; exact Hc1].
    destruct (validateFileReferences _ _ _ _ _ _ st1) as [[st2 e2]|] eqn:E2;
      [|discriminate].
    apply validateFileReferences_null_free in E2; [|exact Hd | exact Hc1].
    destruct E2 as [-> Hc2]. apply IH. exact Hc2.
Qed.

End NullFree.

(** Whatever the project, a run of the reference validator that ends
    has reported no circular reference.  If any loaded document carries
    a nested-document link, the run ends in the [catch] of
    [validateProject]: its last error is the [validation_error] for a
    [TypeError], it returns [false], and the orphan pass has pushed
    nothing. *)
Lemma validateProject_no_cycle_report fuel projectPath rootFile ok st :
  validateProject yaml_load disk listing fuel projectPath rootFile = Some (ok, st) ->
  Forall (fun f => f_type f <> "circular_reference") (errors st) /\
  ((exists k, k ∈ (fileMap st).*1
              /\ existsb has_link (items_of (fileMap st) k) = true) ->
   ok = false /\
   (exists es e, errors st = es ++ [validation_error (path_join projectPath rootFile) e]
                 /\ e ∈ caught
                 /\ ((forall content data, yaml_load content = Some data -> null_free data)
                     -> e = shadowed)) /\
   Forall (fun f => f_type f <> "orphan_lmay_file") (warnings st)).
Proof.
  unfold validateProject.
  assert (H0 : silent (mkState [] [] [])) by (split; constructor).
  assert (N0 : cache_null_free (mkState [] [] [])) by constructor.
  set (rootPath := path_join projectPath rootFile).
  set (parser_ok := forall content data, yaml_load content = Some data -> null_free data).
  assert (Hcatch : forall st0 e, silent st0 -> e ∈ caught -> (parser_ok -> e = shadowed) ->
            let st1 := push_error st0 (validation_error rootPath e) in
            Forall (fun f => f_type f <> "circular_reference") (errors st1) /\
            (false = false /\
             (exists es e', errors st1 = es ++ [validation_error rootPath e']
                            /\ e' ∈ caught /\ (parser_ok -> e' = shadowed)) /\
             Forall (fun f => f_type f <> "orphan_lmay_file") (warnings st1))).
  { intros st0 e Hs He Hn st1. split.
    - apply push_error_silent; [simpl; discriminate | exact Hs].
    - split; [reflexivity|]. split; [|apply Hs]. exists (errors st0), e. auto. }
  destruct (negb (existsSync disk rootPath)).
  { intros [= <- <-]. split.
    - repeat constructor. simpl. discriminate.
    - intros (k & Hk & _). simpl in Hk. inversion Hk. }
  pose proof (loadLMAYFile_silent rootPath _ H0) as H1.
  pose proof (load_first rootPath) as Hfirst.
  pose proof (fun Hp => loadLMAYFile_null_free Hp rootPath _ N0) as N1.
  destruct (loadLMAYFile yaml_load (readFileSync disk) rootPath (mkState [] [] []))
    as [rootData st1].
  simpl in H1, Hfirst, N1.
  destruct (truthy rootData) eqn:Ht; simpl.
  2:{ intros [= <- <-]. split; [apply H1|].
      intros (k & Hk & Hl). destruct Hfirst as [Hf | Hf]; rewrite Hf in Hk, Hl.
      - inversion Hk.
      - simpl in Hk. apply list_elem_of_singleton in Hk. subst k.
        unfold items_of in Hl. simpl in Hl. rewrite String.eqb_refl in Hl. simpl in Hl.
        rewrite Ht in Hl. discriminate. }
  destruct (validateFileReferences _ _ _ _ _ _ _) as [[st2 e2]|] eqn:E2; [|discriminate].
  destruct fuel as [|fuel']; [discriminate E2|].
  pose proof (fun Hp => validateFileReferences_null_free Hp _ _ _ _ _ _ _
                          (proj1 (N1 Hp)) (proj2 (N1 Hp)) E2) as N2.
  apply validateFileReferences_silent in E2. destruct E2 as [H2 He2].
  specialize (H2 H1). destruct e2 as [e2|].
  { intros [= <- <-].
    assert (Hn : parser_ok -> e2 = shadowed)
      by (intros Hp; destruct (N2 Hp) as [[=] _]).
    destruct (Hcatch st2 e2 H2 (thrown_by_checks_caught _ He2) Hn) as [Hc1 Hc2].
    split; [exact Hc1 | intros _; exact Hc2]. }
  unfold discoverAndValidateReferences.
  destruct (discover_each _ _ _ _ _ st2) as [[st3 e3]|] eqn:E3; [|discriminate].
  pose proof (fun Hp => discover_each_null_free Hp _ _ _ _ _ _
                          (proj2 (N2 Hp)) E3) as N3.
  pose proof E3 as E3'. apply discover_each_silent in E3'. destruct E3' as [H3 He3].
  specialize (H3 H2). destruct e3 as [e3|].
  { intros [= <- <-].
    assert (Hn : parser_ok -> e3 = shadowed)
      by (intros Hp; destruct (N3 Hp) as [[=] _]).
    destruct (Hcatch st3 e3 H3 (thrown_by_checks_caught _ He3) Hn) as [Hc1 Hc2].
    split; [exact Hc1 | intros _; exact Hc2]. }
  rewrite detectCircularReferences_outcome.
  destruct (first_throw _) as [e|] eqn:Ef.
  { intros [= <- <-].
    assert (Hn : parser_ok -> e = shadowed).
    { intros Hp. eapply first_throw_null_free; [|exact Ef].
      apply all_items_null_free. apply (N3 Hp). }
    apply first_throw_cases in Ef.
    assert (He : e ∈ caught) by (unfold caught; destruct Ef as [-> | ->]; set_solver).
    destruct (Hcatch st3 e H3 He Hn) as [Hc1 Hc2].
    split; [exact Hc1 | intros _; exact Hc2]. }
  destruct (OrphanFacts.detectOrphanFiles_spec projectPath listing st3)
    as [[Hnull ->] | [_ (added & -> & _)]].
  { intros [= <- <-].
    assert (He : null_read "lmay_file" ∈ caught) by (unfold caught; set_solver).
    assert (Hn : parser_ok -> null_read "lmay_file" = shadowed).
    { intros Hp. exfalso. exact (null_entry_not_null_free st3 (proj2 (N3 Hp)) Hnull). }
    destruct (Hcatch st3 _ H3 He Hn) as [Hc1 Hc2].
    split; [exact Hc1 | intros _; exact Hc2]. }
  intros [= <- <-]. split; [apply H3|].
  intros (k & Hk & Hl). exfalso. simpl in Hk, Hl.
  assert (Hthrow : is_Some (first_throw (all_items (fileMap st3) (fileMap st3).*1))).
  { apply all_items_throw. exists k. split; [exact Hk | apply has_link_throws; exact Hl]. }
  rewrite Ef in Hthrow. destruct Hthrow; discriminate.
Qed.

End Project.

#[local] Existing Instance SimplePosix.ops.

(** *** Scenario A on a disk *)

Definition docA : Yaml := doc_of_structure [("b", link_item "b.lmay")].
Definition docB : Yaml := doc_of_structure [("a", link_item "a.lmay")].

Definition diskA : gmap string FsEntry :=
  list_to_map [("/p/root.lmay", File "root"); ("/p/a.lmay", File "a");
               ("/p/b.lmay", File "b")].

Definition loadA (content : string) : option Yaml :=
  if String.eqb content "root" then Some (doc_of_structure [("a", link_item "a.lmay")])
  else if String.eqb content "a" then Some docA
  else if String.eqb content "b" then Some docB
  else None.

Definition listingA : option (list DirEntry) :=
  Some [EFile "root.lmay"; EFile "a.lmay"; EFile "b.lmay"].

(** The cache only holds what the disk parses to. *)
Definition cache_ok (st : State) : Prop :=
  forall p d, map_get (fileMap st) p = Some d ->
              (readFileSync diskA p ≫= loadA) = Some d.

Lemma loadLMAYFile_cache_ok p st content d :
  cache_ok st ->
  readFileSync diskA p = Some content -> loadA content = Some d ->
  fst (loadLMAYFile loadA (readFileSync diskA) p st) = d /\
  cache_ok (snd (loadLMAYFile loadA (readFileSync diskA) p st)).
Proof.
  intros Hok Hr Hl. unfold loadLMAYFile.
  destruct (map_has (fileMap st) p) eqn:Hhas.
  - apply LoaderFacts.map_has_get in Hhas. destruct Hhas as [d' Hd'].
    rewrite Hd'. simpl. split; [|assumption].
    apply Hok in Hd'. rewrite Hr in Hd'. simpl in Hd'. congruence.
  - rewrite Hr, Hl. simpl. split; [reflexivity|].
    intros q dq Hq. simpl in Hq.
    destruct (decide (p = q)) as [<-|Hne].
    + rewrite LoaderFacts.map_get_set_eq in Hq. rewrite Hr. simpl. congruence.
    + rewrite LoaderFacts.map_get_set_ne in Hq by assumption. apply Hok. assumption.
Qed.

(** On the two documents of the loop the reference check never comes
    back: each one sends the check to the other. *)
Lemma validateFileReferences_loops fuel : forall st,
  cache_ok st ->
  validateFileReferences loadA diskA fuel docA "/p/a.lmay" "/p" st = None /\
  validateFileReferences loadA diskA fuel docB "/p/b.lmay" "/p" st = None.
Proof.
  induction fuel as [|fuel IH]; intros st Hok; [split; reflexivity|].
  split.
  - destruct (loadLMAYFile_cache_ok "/p/b.lmay" st "b" docB Hok eq_refl eq_refl)
      as [Hd Hok'].
    unfold docA. rewrite single_link_step by (discriminate || reflexivity).
    change (path_resolve "/p" "b.lmay") with "/p/b.lmay". cbv zeta.
    rewrite Hd. change (truthy docB) with true. cbv iota.
    apply (IH _ Hok').
  - destruct (loadLMAYFile_cache_ok "/p/a.lmay" st "a" docA Hok eq_refl eq_refl)
      as [Hd Hok'].
    unfold docB. rewrite single_link_step by (discriminate || reflexivity).
    change (path_resolve "/p" "a.lmay") with "/p/a.lmay". cbv zeta.
    rewrite Hd. change (truthy docA) with true. cbv iota.
    apply (IH _ Hok').
Qed.

(** On scenario A the reference validator never reaches its cycle
    detection: no amount of fuel lets [validateProject] return. *)
Lemma validateProject_scenarioA_diverges fuel :
  validateProject loadA diskA listingA fuel "/p" "root.lmay" = None.
Proof.
  destruct fuel as [|fuel]; [reflexivity|].
  unfold validateProject.
  change (path_join "/p" "root.lmay") with "/p/root.lmay".
  change (negb (existsSync diskA "/p/root.lmay")) with false. cbv iota.
  change (loadLMAYFile loadA (readFileSync diskA) "/p/root.lmay" (mkState [] [] []))
    with (doc_of_structure [("a", link_item "a.lmay")],
          mkState [] [] [("/p/root.lmay", doc_of_structure [("a", link_item "a.lmay")])]).
  cbv iota beta.
  change (negb (truthy (doc_of_structure [("a", link_item "a.lmay")]))) with false.
  cbv iota.
  set (st1 := mkState [] [] _).
  assert (Hok : cache_ok st1).
  { intros p d Hp. unfold st1 in Hp. cbn [fileMap map_get] in Hp.
    destruct (String.eqb "/p/root.lmay" p) eqn:E; [|discriminate].
    apply String.eqb_eq in E. subst p. injection Hp as <-. reflexivity. }
  destruct (loadLMAYFile_cache_ok "/p/a.lmay" st1 "a" docA Hok eq_refl eq_refl)
    as [Hd Hok'].
  rewrite single_link_step by (discriminate || reflexivity).
  change (path_resolve "/p" "a.lmay") with "/p/a.lmay". cbv zeta.
  rewrite Hd. change (truthy docA) with true. cbv iota.
  rewrite (proj1 (validateFileReferences_loops fuel _ Hok')). reflexivity.
Qed.

(** *** A self-reference that reaches the cycle detection *)

(** [sub/x.lmay] links [x.lmay], that is itself, relative to its own
    directory (the resolution of [detectCircularReferencesRecursive]);
    relative to the project root (the resolution of
    [validateLMAYFileReference]) the link is dangling, so the reference
    check comes back and the cycle detection runs. *)
Definition diskX : gmap string FsEntry :=
  list_to_map [("/p/root.lmay", File "root"); ("/p/sub", Directory);
               ("/p/sub/x.lmay", File "x")].

Definition loadX (content : string) : option Yaml :=
  if String.eqb content "root" then Some leaf_doc
  else if String.eqb content "x" then Some (doc_of_structure [("self", link_item "x.lmay")])
  else None.

Definition listingX : option (list DirEntry) :=
  Some [EFile "root.lmay"; EDir "sub" true [EFile "x.lmay"]].

Definition fileMapX : FileMap :=
  [("/p/root.lmay", leaf_doc);
   ("/p/sub/x.lmay", doc_of_structure [("self", link_item "x.lmay")])].

(** C1.  Graphs with a cycle on which no [circular_reference] finding
    is reported: the first nested-document link the traversal meets
    makes it throw a [TypeError], because the parameter [path] shadows
    the [path] module.
    - Scenario A (root -> a -> b -> a) handed to
      [detectCircularReferences]: the state is left as it was and the
      exception escapes.
    - A project whose [sub/x.lmay] links itself, run through
      [validateProject]: the result is [false], with the dangling-link
      error of the reference check and the [validation_error] that
      wraps the [TypeError], and nothing else. *)
Theorem cycle_detection_throws :
  tc (edge scenarioA) "/p/a.lmay" "/p/a.lmay" /\
  detectCircularReferences 4 (mkState [] [] scenarioA)
  = Some (mkState [] [] scenarioA, Some (TypeError "path.dirname is not a function")) /\
  edge fileMapX "/p/sub/x.lmay" "/p/sub/x.lmay" /\
  validateProject loadX diskX listingX 3 "/p" "root.lmay"
  = Some (false,
          mkState [finding_at "lmay_file_not_found" "/p/sub/x.lmay"
                              "/structure/self/lmay_file";
                   validation_error "/p/root.lmay"
                     (TypeError "path.dirname is not a function")]
                  [] fileMapX).
Proof.
  split_and!.
  - eapply tc_l; [|apply tc_once].
    + exists (doc_of_structure [("b", link_item "b.lmay")]). split.
      * unfold scenarioA. set_solver.
      * vm_compute. left.
    + exists (doc_of_structure [("a", link_item "a.lmay")]). split.
      * unfold scenarioA. set_solver.
      * vm_compute. left.
  - vm_compute. reflexivity.
  - exists (doc_of_structure [("self", link_item "x.lmay")]). split.
    + unfold fileMapX. set_solver.
    + vm_compute. left.
  - vm_compute. reflexivity.
Qed.

(** *** Orphans in a whole run *)

(** The root links [a.lmay]; [c.lmay] is linked from nowhere. *)
Definition diskC : gmap string FsEntry :=
  list_to_map [("/p/root.lmay", File "root"); ("/p/a.lmay", File "a");
               ("/p/c.lmay", File "c")].

Definition loadC (content : string) : option Yaml :=
  if String.eqb content "root" then Some (doc_of_structure [("a", link_item "a.lmay")])
  else Some leaf_doc.

Definition listingC : option (list DirEntry) :=
  Some [EFile "root.lmay"; EFile "a.lmay"; EFile "c.lmay"].

Definition fileMapC : FileMap :=
  [("/p/root.lmay", doc_of_structure [("a", link_item "a.lmay")]);
   ("/p/a.lmay", leaf_doc); ("/p/c.lmay", leaf_doc)].

(** A project whose root file is [main.lmay], with a second document
    beside it and no link anywhere. *)
Definition diskM : gmap string FsEntry :=
  list_to_map [("/p/main.lmay", File "main"); ("/p/notes.lmay", File "notes")].

Definition loadM (content : string) : option Yaml := Some leaf_doc.

Definition listingM : option (list DirEntry) :=
  Some [EFile "main.lmay"; EFile "notes.lmay"].

(** C2.  Two projects on which the orphan warnings of
    [validateProject] are not those of the claim.
    - The root links [a.lmay], and [c.lmay] is linked from nowhere:
      [c.lmay] is discovered and cannot be reached from the root, yet
      no [orphan_lmay_file] warning comes out.  The cycle detection
      throws on the link of the root (the slip of C1) and the orphan
      pass, which comes after it, does not run.
    - The root file is [main.lmay] and no document has a link: the
      root document itself is flagged, because only
      [<project>/root.lmay] is marked as referenced. *)
Theorem orphans_missed_and_root_flagged :
  ("/p/c.lmay" ∈ findAllLMAYFiles "/p" listingC /\
   ~ rtc (edge fileMapC) "/p/root.lmay" "/p/c.lmay" /\
   validateProject loadC diskC listingC 3 "/p" "root.lmay"
   = Some (false,
           mkState [validation_error "/p/root.lmay"
                      (TypeError "path.dirname is not a function")]
                   [] fileMapC)) /\
  validateProject loadM diskM listingM 1 "/p" "main.lmay"
  = Some (true,
          mkState []
                  [orphan_lmay_file "/p/main.lmay"; orphan_lmay_file "/p/notes.lmay"]
                  [("/p/main.lmay", leaf_doc); ("/p/notes.lmay", leaf_doc)]).
Proof.
  split; [split_and!|].
  - vm_compute. set_solver.
  - assert (Hleaf : forall f g, f <> "/p/root.lmay" -> ~ edge fileMapC f g).
    { intros f g Hf (data & Hin & Hg). unfold fileMapC in Hin.
      apply elem_of_cons in Hin. destruct Hin as [[= -> ->] | Hin]; [congruence|].
      apply elem_of_cons in Hin. destruct Hin as [[= -> ->] | Hin];
        [vm_compute in Hg; inversion Hg|].
      apply elem_of_cons in Hin. destruct Hin as [[= -> ->] | Hin];
        [vm_compute in Hg; inversion Hg | inversion Hin]. }
    intros Hr. apply rtc_inv in Hr. destruct Hr as [Heq | (y & Hy & Hr)]; [discriminate|].
    assert (y = "/p/a.lmay") as ->.
    { destruct Hy as (data & Hin & Hg). unfold fileMapC in Hin.
      apply elem_of_cons in Hin. destruct Hin as [[= ->] | Hin].
      - vm_compute in Hg. apply list_elem_of_singleton in Hg. exact Hg.
      - exfalso. apply elem_of_cons in Hin. destruct Hin as [[=] | Hin].
        apply elem_of_cons in Hin. destruct Hin as [[=] | Hin]. inversion Hin. }
    apply rtc_inv in Hr. destruct Hr as [Heq | (z & Hz & _)]; [discriminate|].
    apply (Hleaf "/p/a.lmay" z); [discriminate | exact Hz].
  - vm_compute. reflexivity.
  - vm_compute. reflexivity.
Qed.

End PipelineFacts.

(** ** The hierarchy tree *)

Module HierarchyFacts.

Import LMAYValidator.

(** Induction over a tree and the trees below it. *)
Lemma Node_rect_nested (P : Node -> Prop) :
  (forall file data children depth parent parentKey,
      Forall P children -> P (mkNode file data children depth parent parentKey)) ->
  forall node, P node.
Proof.
  intros Hstep.
  fix IH 1. intros [file data children depth parent parentKey].
  apply Hstep. induction children as [|c cs IHcs]; constructor.
  - apply IH.
  - exact IHcs.
Qed.

(** The nodes strictly below a node. *)
Fixpoint below (node : Node) : list Node :=
  (fix each (children : list Node) : list Node :=
     match children with
     | [] => []
     | child :: rest => child :: below child ++ each rest
     end) (n_children node).

Lemma below_unfold (node : Node) :
  below node = concat ((fun child => child :: below child) <$> n_children node).
Proof.
  destruct node as [file data children depth parent parentKey]. simpl.
  induction children as [|c cs IH]; simpl; [reflexivity|]. rewrite IH. reflexivity.
Qed.

(** The files met on each path from a node down to a node below it. *)
Fixpoint branches (node : Node) : list (list string) :=
  [n_file node] ::
  (fix each (children : list Node) : list (list string) :=
     match children with
     | [] => []
     | child :: rest => (cons (n_file node) <$> branches child) ++ each rest
     end) (n_children node).

Lemma branches_unfold (node : Node) :
  branches node
  = [n_file node] ::
    concat ((fun child => cons (n_file node) <$> branches child) <$> n_children node).
Proof.
  destruct node as [file data children depth parent parentKey]. simpl. f_equal.
  induction children as [|c cs IH]; simpl; [reflexivity|]. rewrite IH. reflexivity.
Qed.

Lemma below_adopt node itemName child :
  below (adopt node itemName child) = below child.
Proof. rewrite !below_unfold. reflexivity. Qed.

Lemma branches_adopt node itemName child :
  branches (adopt node itemName child) = branches child.
Proof. rewrite !branches_unfold. reflexivity. Qed.

#[local] Arguments adopt : simpl never.
#[local] Arguments below : simpl never.
#[local] Arguments branches : simpl never.

Section Build.
Context `{PathOps}.
Variable yaml_validateFile : string -> Yaml * Report.

#[local] Abbreviation build := (buildHierarchyTree yaml_validateFile).

(** What the loop over the structure entries adds for one entry: the
    adopted child when its build succeeds, nothing when it throws. *)
Definition child_for (rec : string -> gset string -> option (Exn + Node))
    (projectPath rootPath : string) (visited : gset string) (node : Node)
    (entry : string * option StructureItem) : option Node :=
  itemInfo ← snd entry;
  l ← link_of itemInfo;
  match rec (path_relative projectPath (path_resolve (path_dirname rootPath) l)) visited with
  | Some (inr childNode) => Some (adopt node (fst entry) childNode)
  | _ => None
  end.

Lemma build_children_spec rec projectPath rootPath visited items node res :
  build_children rec projectPath rootPath visited items node = Some (inr res) ->
  res = mkNode (n_file node) (n_data node)
               (n_children node
                  ++ omap (child_for rec projectPath rootPath visited node) items)
               (n_depth node) (n_parent node) (n_parentKey node).
Proof.
  revert node. induction items as [|[itemName [itemInfo|]] rest IH]; intros node;
    cbn [build_children omap list_omap].
  - intros [= <-]. rewrite app_nil_r. destruct node; reflexivity.
  - unfold child_for at 1. cbn [fst snd mbind option_bind].
    destruct (link_of itemInfo) as [l|]; cbn [mbind option_bind]; [|apply IH].
    destruct (rec _ visited) as [[e|childNode]|]; [apply IH| |discriminate].
    intros Hres. apply IH in Hres. subst res. simpl.
    rewrite <- app_assoc. reflexivity.
  - discriminate.
Qed.

(** The loop itself throws only on a [null] entry. *)
Lemma build_children_inl rec projectPath rootPath visited items node e :
  build_children rec projectPath rootPath visited items node = Some (inl e) ->
  e = null_read "lmay_file" /\ exists itemName, (itemName, None) ∈ items.
Proof.
  revert node. induction items as [|[itemName [itemInfo|]] rest IH]; intros node;
    cbn [build_children].
  - discriminate.
  - intros Hb.
    assert (Hrest : exists node', build_children rec projectPath rootPath visited rest node'
                                  = Some (inl e)).
    { destruct (link_of itemInfo) as [l|]; [|eauto].
      destruct (rec _ visited) as [[e'|childNode]|]; [eauto | eauto | discriminate]. }
    destruct Hrest as (node' & Hrest). apply IH in Hrest.
    destruct Hrest as [-> (n & Hn)]. split; [reflexivity|]. exists n. right. exact Hn.
  - intros [= <-]. split; [reflexivity|]. exists itemName. left.
Qed.

Lemma build_children_total rec projectPath rootPath visited items node :
  (forall rootFile, is_Some (rec rootFile visited)) ->
  is_Some (build_children rec projectPath rootPath visited items node).
Proof.
  intros Hrec. revert node.
  induction items as [|[itemName [itemInfo|]] rest IH]; intros node; simpl; [eauto| |eauto].
  destruct (link_of itemInfo) as [l|]; [|apply IH].
  destruct (Hrec (path_relative projectPath (path_resolve (path_dirname rootPath) l)))
    as [[e|childNode] ->]; apply IH.
Qed.

(** The three ways a call can end. *)
Lemma build_step fuel projectPath rootFile visited :
  let rootPath := path_join projectPath rootFile in
  build (S fuel) projectPath rootFile visited
  = if bool_decide (rootPath ∈ visited) then Some (inl (CircularReferenceError rootPath))
    else if negb (truthy (fst (yaml_validateFile rootPath)))
    then Some (inl (CannotParseError rootPath))
    else
      let node := mkNode rootPath (fst (yaml_validateFile rootPath)) [] 0 None None in
      match structure_of (fst (yaml_validateFile rootPath)) with
      | Some items =>
          build_children (build fuel projectPath) projectPath rootPath
                         ({[rootPath]} ∪ visited) items node
      | None => Some (inr node)
      end.
Proof. reflexivity. Qed.

(** A built node: the root fields, and the children as the loop leaves
    them. *)
Lemma build_inr fuel projectPath rootFile visited node :
  build (S fuel) projectPath rootFile visited = Some (inr node) ->
  let rootPath := path_join projectPath rootFile in
  let node0 := mkNode rootPath (fst (yaml_validateFile rootPath)) [] 0 None None in
  (rootPath ∉ visited) /\
  truthy (fst (yaml_validateFile rootPath)) = true /\
  node = mkNode rootPath (fst (yaml_validateFile rootPath))
           (omap (child_for (build fuel projectPath) projectPath rootPath
                            ({[rootPath]} ∪ visited) node0)
                 (default [] (structure_of (fst (yaml_validateFile rootPath)))))
           0 None None.
Proof.
  rewrite build_step. intros Hb rootPath node0. fold rootPath in Hb.
  case_bool_decide as Hv; [discriminate|].
  destruct (truthy (fst (yaml_validateFile rootPath))) eqn:Ht; simpl in Hb; [|discriminate].
  split; [assumption|]. split; [reflexivity|].
  destruct (structure_of (fst (yaml_validateFile rootPath))) as [items|]; simpl.
  - apply build_children_spec in Hb. simpl in Hb. exact Hb.
  - injection Hb as <-. reflexivity.
Qed.

(** An exception leaves a call for one of three reasons. *)
Lemma build_inl fuel projectPath rootFile visited e :
  build fuel projectPath rootFile visited = Some (inl e) ->
  let rootPath := path_join projectPath rootFile in
  (e = CircularReferenceError rootPath /\ rootPath ∈ visited) \/
  (e = CannotParseError rootPath /\ (rootPath ∉ visited)
   /\ truthy (fst (yaml_validateFile rootPath)) = false) \/
  (e = null_read "lmay_file" /\ (rootPath ∉ visited)
   /\ exists items itemName,
        structure_of (fst (yaml_validateFile rootPath)) = Some items
        /\ (itemName, None) ∈ items).
Proof.
  destruct fuel as [|fuel]; [discriminate|].
  rewrite build_step. intros Hb rootPath. fold rootPath in Hb.
  case_bool_decide as Hv.
  - left. split; [congruence | assumption].
  - right. destruct (truthy (fst (yaml_validateFile rootPath))) eqn:Ht; simpl in Hb.
    + right. destruct (structure_of _) as [items|] eqn:Hs; [|discriminate].
      apply build_children_inl in Hb. destruct Hb as [-> (n & Hn)].
      split; [reflexivity|]. split; [assumption|]. eauto.
    + left. split; [congruence | split; [assumption | reflexivity]].
Qed.

(** Fail fast: a path already on the way down from the root is
    rejected at once. *)
Lemma build_visited fuel projectPath rootFile visited :
  path_join projectPath rootFile ∈ visited ->
  build (S fuel) projectPath rootFile visited
  = Some (inl (CircularReferenceError (path_join projectPath rootFile))).
Proof.
  intros Hv. rewrite build_step. simpl. rewrite bool_decide_eq_true_2 by assumption.
  reflexivity.
Qed.

(** Termination: the files that parse are finitely many, and every
    descent adds one of them to [visited]. *)
Lemma build_total (parsable : gset string) :
  (forall p, truthy (fst (yaml_validateFile p)) = true -> p ∈ parsable) ->
  forall fuel projectPath rootFile visited,
    size (parsable ∖ visited) < fuel ->
    is_Some (build fuel projectPath rootFile visited).
Proof.
  intros Hp. induction fuel as [|fuel IH]; intros projectPath rootFile visited Hsize.
  - lia.
  - rewrite build_step. simpl.
    set (rootPath := path_join projectPath rootFile).
    case_bool_decide as Hv; [eauto|].
    destruct (truthy (fst (yaml_validateFile rootPath))) eqn:Ht; simpl; [|eauto].
    destruct (structure_of _) as [items|]; [|eauto].
    apply build_children_total.
    intros rootFile'. apply IH.
    assert (Hin : rootPath ∈ parsable) by (apply Hp; assumption).
    assert (Hlt : size (parsable ∖ ({[rootPath]} ∪ visited)) < size (parsable ∖ visited)).
    { apply subset_size. set_solver. }
    lia.
Qed.

(** Every node below the root of a built tree has depth 1: the depth of
    a child is assigned while its parent still has depth 0. *)
Lemma build_depths fuel projectPath rootFile visited node :
  build fuel projectPath rootFile visited = Some (inr node) ->
  n_depth node = 0 /\ Forall (fun d => n_depth d = 1) (below node).
Proof.
  revert projectPath rootFile visited node.
  induction fuel as [|fuel IH]; intros projectPath rootFile visited node Hb; [discriminate|].
  apply build_inr in Hb. destruct Hb as (_ & _ & ->). split; [reflexivity|].
  rewrite below_unfold. simpl.
  set (items := default [] _). clearbody items.
  induction items as [|[itemName [itemInfo|]] items IHitems]; simpl;
    [constructor| |exact IHitems].
  unfold child_for at 1. cbn [fst snd mbind option_bind].
  destruct (link_of itemInfo) as [l|]; simpl; [|exact IHitems].
  destruct (build fuel projectPath _ _) as [[e|childNode]|] eqn:Hc; simpl;
    try exact IHitems.
  apply IH in Hc. destruct Hc as [_ Hbelow].
  constructor; [reflexivity|].
  rewrite below_adopt. apply Forall_app. split; [exact Hbelow | exact IHitems].
Qed.

(** No path of a built tree repeats a document, nor meets a document
    that was already on the way down to the tree. *)
Lemma build_branches fuel projectPath rootFile visited node :
  build fuel projectPath rootFile visited = Some (inr node) ->
  forall b, b ∈ branches node -> NoDup b /\ forall x, x ∈ b -> x ∉ visited.
Proof.
  revert projectPath rootFile visited node.
  induction fuel as [|fuel IH]; intros projectPath rootFile visited node Hb; [discriminate|].
  apply build_inr in Hb. destruct Hb as (Hv & _ & ->).
  set (rootPath := path_join projectPath rootFile) in *.
  intros b. rewrite branches_unfold. simpl.
  set (items := default [] _). clearbody items.
  intros Hin. apply elem_of_cons in Hin. destruct Hin as [-> | Hin].
  - split; [apply NoDup_singleton|].
    intros x Hx. apply list_elem_of_singleton in Hx. subst. assumption.
  - induction items as [|[itemName [itemInfo|]] items IHitems]; cbn in Hin;
      [inversion Hin| |auto].
    unfold child_for at 1 in Hin. cbn [fst snd mbind option_bind] in Hin.
    destruct (link_of itemInfo) as [l|]; cbn in Hin; [|auto].
    destruct (build fuel projectPath _ _) as [[e|childNode]|] eqn:Hc; cbn in Hin; auto.
    apply elem_of_app in Hin. destruct Hin as [Hin | Hin]; [|auto].
    rewrite branches_adopt in Hin.
    apply list_elem_of_fmap in Hin. destruct Hin as (b' & -> & Hb').
    destruct (IH _ _ _ _ Hc b' Hb') as [Hnd Hfresh]. split.
    + constructor; [|assumption]. intros Hx. apply Hfresh in Hx. set_solver.
    + intros x Hx. apply elem_of_cons in Hx. destruct Hx as [-> | Hx]; [assumption|].
      apply Hfresh in Hx. set_solver.
Qed.

End Build.

(** *** On a disk *)

(** A toy environment for the scenarios: every file of [docs] is on
    the disk, its content is its own path, and the parser maps that
    content to the document given for it. *)
Definition toy_disk (docs : list (string * Yaml)) : gmap string FsEntry :=
  list_to_map ((fun entry => (fst entry, File (fst entry))) <$> docs).

Definition toy_load (docs : list (string * Yaml)) (content filename : string)
    : nat * YAMLValidator.LoadResult :=
  match ReferenceValidator.map_get docs content with
  | Some d => (0, YAMLValidator.Loaded d)
  | None => (0, YAMLValidator.YAMLException)
  end.

Definition toy_validateFile (docs : list (string * Yaml)) : string -> Yaml * Report :=
  YAMLValidator.validateFile (toy_disk docs) id (toy_load docs) (fun _ _ => []).

Section OnDisk.
Context `{PathOps}.
Variable disk : gmap string FsEntry.
Variable trim : string -> string.
Variable yaml_load : string -> string -> nat * YAMLValidator.LoadResult.
Variable performAdditionalChecks : string -> string -> list Finding.

#[local] Abbreviation on_disk :=
  (YAMLValidator.validateFile disk trim yaml_load performAdditionalChecks).

Lemma parsed_is_on_disk p :
  truthy (fst (on_disk p)) = true -> p ∈ dom disk.
Proof.
  unfold YAMLValidator.validateFile. intros Ht. apply elem_of_dom.
  destruct (disk !! p) as [entry|]; [eauto | discriminate].
Qed.

Lemma build_on_disk_total fuel projectPath rootFile visited :
  size (dom disk) < fuel ->
  is_Some (buildHierarchyTree on_disk fuel projectPath rootFile visited).
Proof.
  intros Hfuel. apply (build_total on_disk (dom disk)).
  - apply parsed_is_on_disk.
  - assert (size (dom disk ∖ visited) <= size (dom disk))
      by (apply subseteq_size; set_solver).
    lia.
Qed.

End OnDisk.

Section Consistency.
Context `{PathOps}.

Definition no_cause (r : Report) : Prop :=
  Forall (fun f => f_cause f = None) (r_errors r).

Lemma validateHierarchyMetadata_no_cause node hierarchy r :
  no_cause r -> no_cause (validateHierarchyMetadata node hierarchy r).
Proof.
  unfold no_cause, validateHierarchyMetadata. intros Hr.
  assert (H1 : Forall (fun f => f_cause f = None)
                 (r_errors
                    match h_depth hierarchy with
                    | Some d =>
                        if negb (Z.eqb d (Z.of_nat (n_depth node))) then
                          mkReport (r_errors r ++
                                      [finding_at "incorrect_hierarchy_depth" (n_file node)
                                                  "/hierarchy/depth"])
                                   (r_warnings r)
                        else r
                    | None => r
                    end)).
  { destruct (h_depth hierarchy) as [d|]; [|assumption].
    destruct (negb _); [|assumption]. simpl.
    apply Forall_app. split; [assumption|]. repeat constructor. }
  destruct (h_parent hierarchy) as [declared|]; [|assumption].
  destruct (n_parent node) as [parentFile|]; [|assumption].
  destruct (negb (String.eqb declared "")); [|assumption].
  destruct (negb (String.eqb declared _)); [|assumption]. simpl.
  apply Forall_app. split; [assumption|]. repeat constructor.
Qed.

Lemma validateHierarchyConsistency_no_cause maxDepth node :
  forall r, no_cause r -> no_cause (validateHierarchyConsistency maxDepth node r).
Proof.
  induction node as [file data children depth parent parentKey IH] using Node_rect_nested.
  intros r Hr. simpl.
  set (r1 := if Nat.ltb maxDepth depth then _ else r).
  assert (H1 : no_cause r1).
  { unfold r1. destruct (Nat.ltb maxDepth depth); assumption. }
  clearbody r1.
  set (r2 := match hierarchy_of data with Some _ => _ | None => r1 end).
  assert (H2 : no_cause r2).
  { unfold r2. destruct (hierarchy_of data);
      [apply validateHierarchyMetadata_no_cause|]; assumption. }
  clearbody r2. clear Hr H1.
  revert r2 H2. induction IH as [|c cs Hc _ IHcs]; intros r2 H2; [assumption|].
  apply IHcs. apply Hc. assumption.
Qed.

End Consistency.

Section Swallowed.
Context `{PathOps}.
Variable disk : gmap string FsEntry.
Variable trim : string -> string.
Variable yaml_load : string -> string -> nat * YAMLValidator.LoadResult.
Variable performAdditionalChecks : string -> string -> list Finding.

#[local] Abbreviation parse :=
  (YAMLValidator.validateFile disk trim yaml_load performAdditionalChecks).

(** C4 (as the code has it).  With enough fuel for the disk at hand:
    - a call of [buildHierarchyTree] throws the circular-reference
      error exactly when its path is already in the [visited] set it
      receives, and it does so at once;
    - the hierarchy pass always produces its findings, and none of its
      errors quotes a circular-reference error: the [catch] around the
      recursive call swallows it and the repeated document is left out;
    - no root-to-node path of the built tree repeats a document;
    - every child of a node is built from the same set, the node's own
      [visited] set plus the node, whatever its siblings visited, and
      the children are exactly the links whose build did not throw. *)
Theorem hierarchy_cycle_is_swallowed fuel projectPath rootFile :
  size (dom disk) < fuel ->
  (forall rootFile' visited,
      buildHierarchyTree parse fuel projectPath rootFile' visited
      = Some (inl (CircularReferenceError (path_join projectPath rootFile')))
      <-> path_join projectPath rootFile' ∈ visited) /\
  (exists r,
      hierarchy_findings parse fuel projectPath rootFile = Some r /\
      forall f p, f ∈ r_errors r -> f_cause f <> Some (CircularReferenceError p)) /\
  (forall tree,
      buildHierarchyTree parse fuel projectPath rootFile ∅ = Some (inr tree) ->
      forall b, b ∈ branches tree -> NoDup b) /\
  (forall rootFile' visited tree,
      buildHierarchyTree parse fuel projectPath rootFile' visited = Some (inr tree) ->
      let rootPath := path_join projectPath rootFile' in
      n_children tree
      = omap (child_for (buildHierarchyTree parse (pred fuel) projectPath)
                        projectPath rootPath ({[rootPath]} ∪ visited)
                        (mkNode rootPath (fst (parse rootPath)) [] 0 None None))
             (default [] (structure_of (fst (parse rootPath))))).
Proof.
  intros Hfuel. split_and!.
  - intros rootFile' visited. split.
    + intros Hb. apply build_inl in Hb.
      destruct Hb as [[_ Hv] | [[Hd _] | [Hd _]]]; [assumption | discriminate..].
    + intros Hv. destruct fuel as [|fuel']; [lia|]. apply build_visited. assumption.
  - unfold hierarchy_findings.
    destruct (build_on_disk_total disk trim yaml_load performAdditionalChecks
                fuel projectPath rootFile ∅ Hfuel) as [[e|tree] Hb]; rewrite Hb.
    + eexists. split; [reflexivity|]. intros f p Hf. simpl in Hf.
      apply list_elem_of_singleton in Hf. subst f. simpl.
      apply build_inl in Hb.
      destruct Hb as [[_ Hv] | [[-> _] | [-> _]]]; [set_solver | discriminate..].
    + pose proof (validateHierarchyConsistency_no_cause 10 tree (mkReport [] [])
                    (Forall_nil_2 _)) as Hnc.
      destruct (validateDepthLevels tree (∅, _)) as [lc ws].
      eexists. split; [reflexivity|]. intros f p Hf. simpl in Hf.
      unfold no_cause in Hnc. rewrite Forall_forall in Hnc.
      rewrite (Hnc f Hf). discriminate.
  - intros tree Hb b Hin. eapply build_branches in Hb; [|exact Hin]. apply Hb.
  - intros rootFile' visited tree Hb rootPath.
    destruct fuel as [|fuel']; [discriminate|].
    apply build_inr in Hb. destruct Hb as (_ & _ & ->). reflexivity.
Qed.

End Swallowed.

#[local] Existing Instance SimplePosix.ops.

(** The root links [a.lmay] and [a.lmay] links the root back. *)
Definition two_cycle : list (string * Yaml) :=
  [("/p/root.lmay", doc_of_structure [("a", link_item "a.lmay")]);
   ("/p/a.lmay", doc_of_structure [("root", link_item "root.lmay")])].

(** C4 as stated fails: the root path occurs twice on the path
    root -> a -> root, yet the build succeeds (the second occurrence is
    dropped) and the hierarchy pass reports no error at all. *)
Lemma hierarchy_cycle_not_reported :
  structure_of (fst (toy_validateFile two_cycle "/p/root.lmay"))
  = Some [("a", link_item "a.lmay")] /\
  structure_of (fst (toy_validateFile two_cycle "/p/a.lmay"))
  = Some [("root", link_item "root.lmay")] /\
  buildHierarchyTree (toy_validateFile two_cycle) 3 "/p" "root.lmay" ∅
  = Some (inr (mkNode "/p/root.lmay"
                      (doc_of_structure [("a", link_item "a.lmay")])
                      [mkNode "/p/a.lmay"
                              (doc_of_structure [("root", link_item "root.lmay")])
                              [] 1 (Some "/p/root.lmay") (Some "a")]
                      0 None None)) /\
  hierarchy_findings (toy_validateFile two_cycle) 3 "/p" "root.lmay"
  = Some (mkReport [] []).
Proof. vm_compute. repeat split. Qed.

Lemma hierarchy_cycle_is_swallowed_witness :
  exists r,
    hierarchy_findings (toy_validateFile two_cycle) 3 "/p" "root.lmay" = Some r /\
    forall f p, f ∈ r_errors r -> f_cause f <> Some (CircularReferenceError p).
Proof.
  refine (proj1 (proj2 (hierarchy_cycle_is_swallowed (toy_disk two_cycle) id
                          (toy_load two_cycle) (fun _ _ => []) 3 "/p" "root.lmay" _))).
  vm_compute. lia.
Defined.

(** A diamond: [b.lmay] and [c.lmay] both link [d.lmay]; it is built
    under each of them. *)
Definition diamond : list (string * Yaml) :=
  [("/p/root.lmay", doc_of_structure [("b", link_item "b.lmay"); ("c", link_item "c.lmay")]);
   ("/p/b.lmay", doc_of_structure [("d", link_item "d.lmay")]);
   ("/p/c.lmay", doc_of_structure [("d", link_item "d.lmay")]);
   ("/p/d.lmay", leaf_doc)].

Example diamond_branches :
  sum_map id branches <$> buildHierarchyTree (toy_validateFile diamond) 5 "/p" "root.lmay" ∅
  = Some (inr [["/p/root.lmay"];
               ["/p/root.lmay"; "/p/b.lmay"];
               ["/p/root.lmay"; "/p/b.lmay"; "/p/d.lmay"];
               ["/p/root.lmay"; "/p/c.lmay"];
               ["/p/root.lmay"; "/p/c.lmay"; "/p/d.lmay"]]).
Proof. vm_compute. reflexivity. Qed.

(** *** Computed depths *)

(** A document that declares its depth and links nothing. *)
Definition declares_depth (d : Z) : Yaml :=
  YMap (mkData None None None (Some (mkHierarchy (Some d) None))).

(** root -> a -> b; [b.lmay], two links away from the root, declares
    [hierarchy.depth: 2]. *)
Definition chain : list (string * Yaml) :=
  [("/p/root.lmay", doc_of_structure [("a", link_item "a.lmay")]);
   ("/p/a.lmay", doc_of_structure [("b", link_item "b.lmay")]);
   ("/p/b.lmay", declares_depth 2)].

(** C5.  On the chain root -> a -> b the node of [b.lmay] gets depth 1,
    not 2: [childNode.depth = node.depth + 1] runs while [node.depth]
    is still 0, and the depth of a node is never updated when its
    parent is attached further up.  The correct declaration
    [hierarchy.depth: 2] of [b.lmay] is then reported as an
    [incorrect_hierarchy_depth] error. *)
Theorem grandchild_depth_is_one :
  buildHierarchyTree (toy_validateFile chain) 4 "/p" "root.lmay" ∅
  = Some (inr (mkNode "/p/root.lmay"
                 (doc_of_structure [("a", link_item "a.lmay")])
                 [mkNode "/p/a.lmay"
                    (doc_of_structure [("b", link_item "b.lmay")])
                    [mkNode "/p/b.lmay" (declares_depth 2) []
                            1 (Some "/p/a.lmay") (Some "b")]
                    1 (Some "/p/root.lmay") (Some "a")]
                 0 None None)) /\
  hierarchy_findings (toy_validateFile chain) 4 "/p" "root.lmay"
  = Some (mkReport [finding_at "incorrect_hierarchy_depth" "/p/b.lmay" "/hierarchy/depth"]
                   []).
Proof. vm_compute. split; reflexivity. Qed.

(** *** Depth distribution *)

(** The computed depths of a tree, root first. *)
Definition depths (node : Node) : list nat := n_depth <$> (node :: below node).

Definition occurrences (d : nat) (ds : list nat) : nat :=
  length (filter (fun x => x = d) ds).

(** How many nodes of the tree sit at depth [d]. *)
Definition level_size (node : Node) (d : nat) : nat := occurrences d (depths node).

Definition max_depth (node : Node) : nat := max_list (depths node).

(** [levelCounts[d] = (levelCounts[d] || 0) + 1]. *)
Definition bump (levelCounts : gmap nat nat) (d : nat) : gmap nat nat :=
  <[d := default 0 (levelCounts !! d) + 1]> levelCounts.

Definition tally (ds : list nat) (levelCounts : gmap nat nat) : gmap nat nat :=
  foldl bump levelCounts ds.

Lemma occurrences_cons d x ds :
  occurrences d (x :: ds) = (if decide (x = d) then 1 else 0) + occurrences d ds.
Proof.
  unfold occurrences. rewrite filter_cons. destruct (decide (x = d)); reflexivity.
Qed.

Lemma occurrences_pos d ds : 0 < occurrences d ds <-> d ∈ ds.
Proof.
  induction ds as [|x ds IH]; [unfold occurrences; simpl; split; [lia | inversion 1]|].
  rewrite occurrences_cons, elem_of_cons. destruct (decide (x = d)); split.
  - intros _. left. congruence.
  - intros _. lia.
  - intros Hp. right. apply IH. lia.
  - intros [Heq | Hin]; [congruence|]. apply IH in Hin. lia.
Qed.

Lemma tally_lookup ds : forall levelCounts k,
  tally ds levelCounts !! k
  = if decide (k ∈ ds)
    then Some (default 0 (levelCounts !! k) + occurrences k ds)
    else levelCounts !! k.
Proof.
  induction ds as [|d ds IH]; intros levelCounts k; simpl.
  - reflexivity.
  - change (tally (d :: ds) levelCounts) with (tally ds (bump levelCounts d)).
    rewrite IH. rewrite occurrences_cons. unfold bump.
    destruct (decide (d = k)) as [->|Hne].
    + rewrite lookup_insert_eq. simpl.
      rewrite (decide_True (P := k ∈ k :: ds)) by left.
      destruct (decide (k ∈ ds)) as [Hin|Hnin]; f_equal; [lia|].
      assert (occurrences k ds = 0); [|lia].
      destruct (occurrences k ds) eqn:E; [reflexivity|].
      exfalso. apply Hnin. apply occurrences_pos. lia.
    + rewrite lookup_insert_ne by assumption.
      destruct (decide (k ∈ ds)) as [Hin|Hnin].
      * rewrite decide_True by (right; assumption). reflexivity.
      * rewrite decide_False; [reflexivity|].
        intros Hin. apply elem_of_cons in Hin. destruct Hin; [congruence | contradiction].
Qed.

Lemma tally_empty_lookup ds k :
  tally ds ∅ !! k = if decide (k ∈ ds) then Some (occurrences k ds) else None.
Proof. rewrite tally_lookup, lookup_empty. reflexivity. Qed.

Lemma tally_app ds1 ds2 levelCounts :
  tally (ds1 ++ ds2) levelCounts = tally ds2 (tally ds1 levelCounts).
Proof. unfold tally. apply foldl_app. Qed.

Lemma depths_unfold node :
  depths node = n_depth node :: concat (depths <$> n_children node).
Proof.
  unfold depths. rewrite fmap_cons. f_equal. rewrite below_unfold.
  induction (n_children node) as [|c cs IH]; [reflexivity|].
  rewrite !fmap_cons. cbn [concat]. rewrite fmap_app, IH. reflexivity.
Qed.

Section Levels.
Context `{PathOps}.

(** Below the root no node has depth 0, so the analysis runs once, when
    the whole tree has been counted. *)
Lemma validateDepthLevels_counts node :
  forall levelCounts warnings,
    Forall (fun d => n_depth d <> 0) (below node) ->
    validateDepthLevels node (levelCounts, warnings)
    = (tally (depths node) levelCounts,
       if Nat.eqb (n_depth node) 0
       then analyzeDepthDistribution (tally (depths node) levelCounts) warnings
       else warnings).
Proof.
  induction node as [file data children depth parent parentKey IH] using Node_rect_nested.
  intros levelCounts warnings Hbelow.
  rewrite depths_unfold. rewrite below_unfold in Hbelow.
  cbn [validateDepthLevels n_depth n_children] in *.
  change (tally (depth :: ?l) levelCounts) with (tally l (bump levelCounts depth)).
  unfold bump at 1 2.
  generalize (<[depth := default 0 (levelCounts !! depth) + 1]> levelCounts).
  clear levelCounts. intros levelCounts.
  assert (Hloop :
    (fix each (children : list Node) (st : gmap nat nat * list Finding) :=
       match children with
       | [] => st
       | child :: rest => each rest (validateDepthLevels child st)
       end) children (levelCounts, warnings)
    = (tally (concat (depths <$> children)) levelCounts, warnings)).
  { revert levelCounts. induction IH as [|c cs Hc _ IHcs]; intros levelCounts.
    - reflexivity.
    - cbn [fmap list_fmap concat] in Hbelow. 
      apply Forall_cons in Hbelow. destruct Hbelow as [Hc0 Hbelow].
      apply Forall_app in Hbelow. destruct Hbelow as [Hcb Hrest].
      rewrite Hc by assumption.
      apply Nat.eqb_neq in Hc0. rewrite Hc0.
      rewrite IHcs by assumption.
      cbn [fmap list_fmap concat]. rewrite tally_app. reflexivity. }
  rewrite Hloop. destruct (Nat.eqb depth 0); reflexivity.
Qed.

End Levels.

Lemma StronglySorted_seq j n : StronglySorted Nat.le (seq j n).
Proof.
  revert j. induction n as [|n IH]; intros j; simpl; constructor.
  - apply IH.
  - apply Forall_forall. intros x Hx. apply elem_of_seq in Hx. lia.
Qed.

Lemma max_list_seq j n : max_list (seq j (S n)) = j + n.
Proof.
  revert j. induction n as [|n IH]; intros j.
  - simpl. lia.
  - change (seq j (S (S n))) with (j :: seq (S j) (S n)).
    change (max_list (j :: seq (S j) (S n)))
      with (j `max` max_list (seq (S j) (S n))).
    rewrite IH. lia.
Qed.

(** When the occupied levels are [0..m], the sorted keys of the
    counters are [0; 1; ...; m]. *)
Lemma sorted_levels ds m :
  (forall k, k ∈ ds <-> k <= m) ->
  merge_sort Nat.le (elements (dom (tally ds ∅))) = seq 0 (S m).
Proof.
  intros Hds. apply (StronglySorted_unique Nat.le).
  - apply (StronglySorted_merge_sort Nat.le).
  - apply StronglySorted_seq.
  - rewrite merge_sort_Permutation. apply NoDup_Permutation.
    + apply NoDup_elements.
    + apply NoDup_seq.
    + intros k. rewrite elem_of_elements, elem_of_dom, tally_empty_lookup, elem_of_seq.
      destruct (decide (k ∈ ds)) as [Hin|Hnin].
      * apply Hds in Hin. split; [lia | eauto].
      * split; [intros [? ?]; discriminate|]. intros Hk. exfalso. apply Hnin, Hds. lia.
Qed.

Lemma unbalanced_from_seq (levelCounts : gmap nat nat) (cnt : nat -> nat) :
  forall k p,
    (forall L, p <= L <= p + k -> levelCounts !! L = Some (cnt L)) ->
    unbalanced_from levelCounts p (seq (S p) k)
    = unbalanced_hierarchy <$> filter (fun L => 3 * cnt (L - 1) < cnt L) (seq (S p) k).
Proof.
  induction k as [|k IH]; intros p Hcnt; [reflexivity|].
  change (seq (S p) (S k)) with (S p :: seq (S (S p)) k).
  cbn [unbalanced_from]. rewrite filter_cons. unfold count_at.
  rewrite (Hcnt p), (Hcnt (S p)) by lia. rewrite IH by (intros L HL; apply Hcnt; lia).
  replace (S p - 1) with p by lia. cbn [fmap option_fmap option_map js_gt].
  destruct (decide (3 * cnt p < cnt (S p))) as [Hlt|Hge].
  - replace (Nat.ltb (cnt p * 3) (cnt (S p))) with true
      by (symmetry; apply Nat.ltb_lt; lia).
    reflexivity.
  - replace (Nat.ltb (cnt p * 3) (cnt (S p))) with false
      by (symmetry; apply Nat.ltb_ge; lia).
    reflexivity.
Qed.

(** The occupied levels of a tree whose levels are contiguous. *)
Lemma occupied_levels tree :
  Forall (fun k => 0 < level_size tree k) (seq 0 (max_depth tree)) ->
  forall k, k ∈ depths tree <-> k <= max_depth tree.
Proof.
  intros Hocc k. split.
  - apply max_list_elem_of_le.
  - intros Hk. destruct (decide (k = max_depth tree)) as [->|Hne].
    + apply max_list_elem_of. unfold depths. rewrite fmap_cons. discriminate.
    + rewrite Forall_forall in Hocc. apply occurrences_pos. apply Hocc.
      apply elem_of_seq. lia.
Qed.

Lemma level_size_lookup tree k :
  k ∈ depths tree -> tally (depths tree) ∅ !! k = Some (level_size tree k).
Proof. intros Hk. rewrite tally_empty_lookup, decide_True by assumption. reflexivity. Qed.

(** What the depth pass adds to the warnings. *)
Definition depth_warnings (tree : Node) : list Finding :=
  (if Nat.leb (max_depth tree) 1 && Nat.ltb 10 (level_size tree 1)
   then [flat_hierarchy] else [])
  ++ (unbalanced_hierarchy <$>
        filter (fun L => 3 * level_size tree (L - 1) < level_size tree L)
               (seq 1 (max_depth tree))).

Lemma validateDepthLevels_warnings tree warnings :
  n_depth tree = 0 ->
  Forall (fun d => n_depth d <> 0) (below tree) ->
  Forall (fun k => 0 < level_size tree k) (seq 0 (max_depth tree)) ->
  snd (validateDepthLevels tree (∅, warnings)) = warnings ++ depth_warnings tree.
Proof.
  intros Hroot Hbelow Hocc.
  pose proof (occupied_levels tree Hocc) as Hlevels.
  rewrite validateDepthLevels_counts by assumption.
  rewrite Hroot. cbn [snd Nat.eqb].
  unfold analyzeDepthDistribution, depth_warnings.
  rewrite (sorted_levels (depths tree) (max_depth tree) Hlevels).
  rewrite max_list_seq. cbn [Nat.add].
  change (seq 0 (S (max_depth tree))) with (0 :: seq 1 (max_depth tree)). cbv iota.
  rewrite (unbalanced_from_seq _ (level_size tree)).
  2:{ intros L HL. apply level_size_lookup. apply Hlevels. lia. }
  assert (Hflat : js_gt (count_at (tally (depths tree) ∅) 1) (Some 10)
                  = Nat.ltb 10 (level_size tree 1)).
  { unfold count_at. rewrite tally_empty_lookup.
    destruct (decide (1 ∈ depths tree)) as [Hin|Hnin]; [reflexivity|].
    simpl. symmetry. apply Nat.ltb_ge.
    destruct (level_size tree 1) eqn:E; [lia|].
    exfalso. apply Hnin. apply occurrences_pos. unfold level_size in E. lia. }
  rewrite Hflat.
  destruct (Nat.leb (max_depth tree) 1 && Nat.ltb 10 (level_size tree 1)).
  - rewrite <- app_assoc. reflexivity.
  - reflexivity.
Qed.

(** The depth-distribution warnings in terms of the [depth] field of
    the nodes.  Take a tree whose root has depth
    0, with no other node at depth 0 and no empty level below its
    maximum depth.  [validateDepthLevels] then appends: one
    [flat_hierarchy] warning when the maximum depth is at most 1 and
    more than 10 nodes sit at depth 1, none otherwise; and, after it,
    one [unbalanced_hierarchy] warning for every level [L >= 1] that
    holds more than three times as many nodes as level [L - 1], in
    increasing order of [L]. *)
Theorem depth_distribution_warnings tree warnings :
  n_depth tree = 0 ->
  Forall (fun d => n_depth d <> 0) (below tree) ->
  Forall (fun k => 0 < level_size tree k) (seq 0 (max_depth tree)) ->
  snd (validateDepthLevels tree (∅, warnings))
  = warnings
    ++ (if Nat.leb (max_depth tree) 1 && Nat.ltb 10 (level_size tree 1)
        then [flat_hierarchy] else [])
    ++ (unbalanced_hierarchy <$>
          filter (fun L => 3 * level_size tree (L - 1) < level_size tree L)
                 (seq 1 (max_depth tree))).
Proof. apply validateDepthLevels_warnings. Qed.

(** Trees that [buildHierarchyTree] returns meet the three conditions. *)
Lemma built_tree_levels `{PathOps} yaml_validateFile fuel projectPath rootFile visited tree :
  buildHierarchyTree yaml_validateFile fuel projectPath rootFile visited = Some (inr tree) ->
  n_depth tree = 0 /\
  Forall (fun d => n_depth d <> 0) (below tree) /\
  Forall (fun k => 0 < level_size tree k) (seq 0 (max_depth tree)).
Proof.
  intros Hb. apply build_depths in Hb. destruct Hb as [Hroot Hbelow].
  split; [assumption|]. split.
  - eapply Forall_impl; [exact Hbelow|]. intros d Hd. simpl in Hd. lia.
  - assert (Hmax : max_depth tree <= 1).
    { assert (Hin : max_depth tree ∈ depths tree).
      { apply max_list_elem_of. unfold depths. rewrite fmap_cons. discriminate. }
      unfold depths in Hin. rewrite fmap_cons in Hin.
      apply elem_of_cons in Hin. destruct Hin as [-> | Hin]; [lia|].
      apply list_elem_of_fmap in Hin. destruct Hin as (d & -> & Hd).
      rewrite Forall_forall in Hbelow. rewrite (Hbelow d Hd). lia. }
    apply Forall_forall. intros k Hk. apply elem_of_seq in Hk.
    assert (k = 0) as -> by lia.
    apply occurrences_pos. unfold depths. rewrite fmap_cons, Hroot. left.
Qed.

(** The depth pass on the tree the validator builds. *)
Lemma built_tree_depth_warnings `{PathOps} yaml_validateFile fuel projectPath rootFile
    tree warnings :
  buildHierarchyTree yaml_validateFile fuel projectPath rootFile ∅ = Some (inr tree) ->
  snd (validateDepthLevels tree (∅, warnings)) = warnings ++ depth_warnings tree.
Proof.
  intros Hb. apply built_tree_levels in Hb. destruct Hb as (H0 & H1 & H2).
  apply validateDepthLevels_warnings; assumption.
Qed.

Definition plain_node (file : string) (children : list Node) (depth : nat) : Node :=
  mkNode file leaf_doc children depth None None.

(** A root with four children. *)
Definition bushy : Node :=
  plain_node "/p/root.lmay"
    [plain_node "/p/a.lmay" [] 1;
     plain_node "/p/b.lmay" [] 1;
     plain_node "/p/c.lmay" [] 1;
     plain_node "/p/d.lmay" [] 1] 0.

Lemma depth_distribution_warnings_witness :
  snd (validateDepthLevels bushy (∅, []))
  = []
    ++ (if Nat.leb (max_depth bushy) 1 && Nat.ltb 10 (level_size bushy 1)
        then [flat_hierarchy] else [])
    ++ (unbalanced_hierarchy <$>
          filter (fun L => 3 * level_size bushy (L - 1) < level_size bushy L)
                 (seq 1 (max_depth bushy))).
Proof.
  apply (depth_distribution_warnings bushy []).
  - reflexivity.
  - vm_compute. repeat constructor; lia.
  - vm_compute. repeat constructor.
Defined.

Example bushy_is_unbalanced :
  snd (validateDepthLevels bushy (∅, [])) = [unbalanced_hierarchy 1].
Proof. vm_compute. reflexivity. Qed.

(** Eleven children under the root: flat, and unbalanced at level 1. *)
Definition eleven : Node :=
  plain_node "/p/root.lmay"
    ((fun i => plain_node "/p/child.lmay" [] 1) <$> seq 0 11) 0.

Example eleven_is_flat :
  snd (validateDepthLevels eleven (∅, [])) = [flat_hierarchy; unbalanced_hierarchy 1].
Proof. vm_compute. reflexivity. Qed.

End HierarchyFacts.

(** ** The orchestrator and the command line *)

Module OrchestratorFacts.

Import LMAYValidator.

Lemma finalizeResults_valid (r : Results) :
  valid (finalizeResults r) = true <-> errors (finalizeResults r) = [].
Proof.
  unfold finalizeResults. simpl. rewrite Nat.eqb_eq. apply length_zero_iff_nil.
Qed.

Lemma finalizeResults_findings (r : Results) :
  errors (finalizeResults r) = errors r /\ warnings (finalizeResults r) = warnings r.
Proof. split; reflexivity. Qed.

Section Env.
Context `{PathOps}.
Variable yaml_validateFile : string -> Yaml * Report.
Variable schema_validateLMAY : Yaml -> string -> Exn + Report.
Variable reference_validateProject : string -> string -> option Report.

(** Whatever a single-file run returns went through
    [finalizeResults]. *)
Lemma validateFile_finalized filePath res :
  validateFile yaml_validateFile schema_validateLMAY filePath = inr res ->
  exists r, res = finalizeResults r.
Proof.
  unfold validateFile. destruct (yaml_validateFile filePath) as [parsedContent yamlReport].
  destruct (negb (truthy parsedContent)).
  - intros [= <-]. eauto.
  - destruct (schema_validateLMAY parsedContent filePath) as [e|schemaReport];
      [discriminate|].
    intros [= <-]. eauto.
Qed.

Lemma validateProject_finalized fuel options projectPath rootFile res :
  validateProject yaml_validateFile schema_validateLMAY reference_validateProject
                  fuel options projectPath rootFile = Some (inr res) ->
  exists r, res = finalizeResults r.
Proof.
  unfold validateProject.
  destruct (validateFile _ _ _) as [e|rootValid]; [discriminate|].
  destruct (negb (valid rootValid) && negb (strict options)).
  - intros [= <-]. eauto.
  - destruct (if checkReferences options then _ else Some rootValid) as [r1|];
      simpl; [|discriminate].
    destruct (checkHierarchy options).
    + destruct (validateHierarchy _ _ _ _ _) as [r2|]; simpl; [|discriminate].
      intros [= <-]. eauto.
    + intros [= <-]. eauto.
Qed.

End Env.

(** *** Documents that parse to a falsy scalar *)

Lemma falsy_scalars :
  Forall (fun s => scalar_truthy s = false) [SNull; SBool false; SNum 0; SStr ""].
Proof. repeat constructor. Qed.

Section Falsy.
Variable disk : gmap string FsEntry.
Variable trim : string -> string.
Variable yaml_load : string -> string -> nat * YAMLValidator.LoadResult.
Variable performAdditionalChecks : string -> string -> list Finding.
Variable schema_validateLMAY : Yaml -> string -> Exn + Report.

(** C10.  A file that exists, is not blank, and parses to a falsy
    scalar: the YAML pass records no error and returns that scalar;
    [validateFile] then returns at once.  The result has no error, only
    the warnings of the YAML pass, [valid] is true, and its summary has
    a [yaml] and a [total] entry but none for [schema]: the schema
    validator is not consulted, whatever it would have done. *)
Theorem falsy_document_is_valid filePath content n s :
  disk !! filePath = Some (File content) ->
  String.length (trim content) <> 0 ->
  yaml_load content filePath = (n, YAMLValidator.Loaded (YScalar s)) ->
  scalar_truthy s = false ->
  let yaml_warnings :=
    replicate n (finding "yaml_warning" filePath)
    ++ performAdditionalChecks content filePath in
  validateFile (YAMLValidator.validateFile disk trim yaml_load performAdditionalChecks)
               schema_validateLMAY filePath
  = inr (mkResults true [] yaml_warnings
           (<["total" := mkSummary 0 (length yaml_warnings) (Some true)]>
              (<["yaml" := mkSummary 0 (length yaml_warnings) (Some true)]> ∅))).
Proof.
  intros Hdisk Htrim Hload Hfalsy yaml_warnings.
  unfold validateFile, YAMLValidator.validateFile.
  rewrite Hdisk. apply Nat.eqb_neq in Htrim. rewrite Htrim, Hload.
  simpl. rewrite Hfalsy. reflexivity.
Qed.

End Falsy.

Lemma falsy_document_is_valid_witness :
  validateFile
    (YAMLValidator.validateFile {["/p/root.lmay" := File "null"]} id
       (fun _ _ => (0, YAMLValidator.Loaded (YScalar SNull))) (fun _ _ => []))
    (fun _ _ => inl (OtherError "the schema validator was called")) "/p/root.lmay"
  = inr (mkResults true [] []
           (<["total" := mkSummary 0 0 (Some true)]>
              (<["yaml" := mkSummary 0 0 (Some true)]> ∅))).
Proof.
  apply (falsy_document_is_valid {["/p/root.lmay" := File "null"]} id
           (fun _ _ => (0, YAMLValidator.Loaded (YScalar SNull))) (fun _ _ => [])
           (fun _ _ => inl (OtherError "the schema validator was called"))
           "/p/root.lmay" "null" 0 SNull).
  - reflexivity.
  - simpl. lia.
  - reflexivity.
  - reflexivity.
Defined.

End OrchestratorFacts.

(** ** The [file_count] check *)

Module SchemaFacts.

Import SchemaValidator.

Section WithPath.
Context `{PathOps}.

Definition invalid_file_count (name filePath : string) : Finding :=
  finding_at "invalid_file_count" filePath ("/structure/" +:+ name +:+ "/file_count").

(** What [validateStructureItem] does about [file_count]: the entry
    must be of type [file], and [file_count] must be truthy and
    different from the number 1. *)
Lemma invalid_file_count_errors name info filePath r :
  r_errors (validateStructureItem name info filePath r)
  = r_errors r
    ++ (if bool_decide (item_type info = Some "file")
           && scalar_truthy (file_count info)
           && negb (bool_decide (file_count info = SNum 1))
        then [invalid_file_count name filePath] else []).
Proof.
  unfold validateStructureItem, invalid_file_count.
  set (r1 := match item_path info with Some _ => _ | None => r end).
  assert (H1 : r_errors r1 = r_errors r).
  { unfold r1. destruct (item_path info) as [p|]; [|reflexivity].
    destruct (negb (String.eqb p "") && path_isAbsolute p); reflexivity. }
  clearbody r1.
  destruct (bool_decide (item_type info = Some "file")
            && scalar_truthy (file_count info)
            && negb (bool_decide (file_count info = SNum 1)));
    destruct (str_truthy (primary_language info)
              && bool_decide (item_type info = Some "file"));
    simpl; rewrite H1; try reflexivity; rewrite app_nil_r; reflexivity.
Qed.

Lemma invalid_file_count_iff name info filePath :
  invalid_file_count name filePath
    ∈ r_errors (validateStructureItem name info filePath (mkReport [] []))
  <-> item_type info = Some "file"
      /\ scalar_truthy (file_count info) = true
      /\ file_count info <> SNum 1.
Proof.
  rewrite invalid_file_count_errors. simpl.
  destruct (bool_decide (item_type info = Some "file")) eqn:Et;
    destruct (scalar_truthy (file_count info)) eqn:Ec;
    destruct (bool_decide (file_count info = SNum 1)) eqn:E1; simpl;
    try apply bool_decide_eq_true in Et; try apply bool_decide_eq_false in Et;
    try apply bool_decide_eq_true in E1; try apply bool_decide_eq_false in E1;
    split; try (intros Hin; inversion Hin; fail); try (intros (? & ? & ?); congruence).
  - intros _. auto.
  - intros _. left.
Qed.

(** The errors of the whole structure pass are the [file_count] errors
    of its entries, in order: the other checks only warn. *)
Definition file_count_errors (filePath : string) (entry : string * option StructureItem)
    : list Finding :=
  match snd entry with
  | Some info =>
      if bool_decide (item_type info = Some "file")
         && scalar_truthy (file_count info)
         && negb (bool_decide (file_count info = SNum 1))
      then [invalid_file_count (fst entry) filePath] else []
  | None => []
  end.

Lemma each_structure_item_errors structure filePath : forall r r1,
  each_structure_item structure filePath r = inr r1 ->
  r_errors r1 = r_errors r ++ concat (file_count_errors filePath <$> structure).
Proof.
  induction structure as [|[name [info|]] structure IH]; intros r r1;
    cbn [each_structure_item].
  - intros [= <-]. simpl. rewrite app_nil_r. reflexivity.
  - intros He. apply IH in He. rewrite He, invalid_file_count_errors.
    cbn [fmap list_fmap concat]. unfold file_count_errors at 2. cbn [fst snd].
    rewrite <- app_assoc. reflexivity.
  - discriminate.
Qed.

(** The loop throws exactly on a [null] entry. *)
Lemma each_structure_item_throws structure filePath : forall r e,
  each_structure_item structure filePath r = inl e
  <-> e = null_read "path" /\ exists name, (name, None) ∈ structure.
Proof.
  induction structure as [|[name [info|]] structure IH]; intros r e;
    cbn [each_structure_item].
  - split; [discriminate | intros [_ (n & Hn)]; inversion Hn].
  - rewrite IH. split.
    + intros [-> (n & Hn)]. split; [reflexivity|]. exists n. right. exact Hn.
    + intros [-> (n & Hn)]. split; [reflexivity|]. exists n.
      apply elem_of_cons in Hn. destruct Hn as [[=] | Hn]. exact Hn.
  - split.
    + intros [= <-]. split; [reflexivity|]. exists name. left.
    + intros [-> _]. reflexivity.
Qed.

Lemma validateStructure_errors toLowerCase lmayData filePath r r' :
  validateStructure toLowerCase lmayData filePath r = inr r' ->
  r_errors r'
  = r_errors r
    ++ concat (file_count_errors filePath <$> default [] (structure_of lmayData)).
Proof.
  unfold validateStructure.
  destruct (structure_of lmayData) as [items|]; simpl;
    [|intros [= <-]; rewrite app_nil_r; reflexivity].
  destruct (Nat.eqb (length items.*1) 0) eqn:E.
  - apply Nat.eqb_eq in E. rewrite length_fmap in E.
    apply length_zero_iff_nil in E. subst. intros [= <-]. simpl.
    rewrite app_nil_r. reflexivity.
  - destruct (each_structure_item items filePath r) as [e|r1] eqn:E1; [discriminate|].
    apply each_structure_item_errors in E1. intros [= <-].
    unfold validateCommonPatterns.
    destruct (existsb _ _); [|assumption].
    destruct (Nat.ltb 0 _); assumption.
Qed.

(** The structure pass throws exactly when the mapping has a [null]
    entry. *)
Lemma validateStructure_throws toLowerCase lmayData filePath r e :
  validateStructure toLowerCase lmayData filePath r = inl e
  <-> e = null_read "path"
      /\ exists items name, structure_of lmayData = Some items /\ (name, None) ∈ items.
Proof.
  unfold validateStructure.
  destruct (structure_of lmayData) as [items|].
  - destruct (Nat.eqb (length items.*1) 0) eqn:E.
    + apply Nat.eqb_eq in E. rewrite length_fmap in E.
      apply length_zero_iff_nil in E. subst.
      split; [discriminate|]. intros [_ (its & n & [= <-] & Hn)]. inversion Hn.
    + destruct (each_structure_item items filePath r) as [e'|r1] eqn:E1.
      * apply each_structure_item_throws in E1. destruct E1 as [-> (n & Hn)]. split.
        -- intros [= <-]. split; [reflexivity|]. eauto.
        -- intros [-> _]. reflexivity.
      * split; [discriminate|]. intros [-> (its & n & [= <-] & Hn)].
        assert (Hthrow : each_structure_item items filePath r = inl (null_read "path"))
          by (apply each_structure_item_throws; eauto).
        congruence.
  - split; [discriminate|]. intros [_ (its & n & Hs & _)]. discriminate.
Qed.

End WithPath.

#[local] Existing Instance SimplePosix.ops.

(** C7.  A structure entry of type [file] with [file_count: 0]: the
    count differs from 1, yet no [invalid_file_count] error (no finding
    at all) is produced, because [info.file_count && ...] treats 0 as an
    absent field.  With [file_count: 2] the error is there. *)
Theorem file_count_zero_is_accepted :
  validateStructureItem "readme" (mkItem (Some "README.md") (Some "file") (SNum 0) None None)
                        "/p/root.lmay" (mkReport [] [])
  = mkReport [] [] /\
  validateStructureItem "readme" (mkItem (Some "README.md") (Some "file") (SNum 2) None None)
                        "/p/root.lmay" (mkReport [] [])
  = mkReport [finding_at "invalid_file_count" "/p/root.lmay" "/structure/readme/file_count"]
             [].
Proof. split; reflexivity. Qed.

End SchemaFacts.

(** ** Obsolescence *)

Module MaintenanceFacts.

Import Maintenance.

Local Open Scope Z_scope.

Section Env.
Context `{PathOps}.
Variable readFile : string -> option string.
Variable pathExists : string -> bool.
Variable extractFileReferences : string -> list string.
Variable now : Z.
Variable days : Z.

#[local] Abbreviation analyse :=
  (analyze readFile pathExists extractFileReferences now (Some days)).

(** The references the analysis extracts from a file. *)
Definition references_of (f : LMAYFile) : list string :=
  extractFileReferences (default "" (readFile (path f))).

Definition stale (f : LMAYFile) : Prop := days * dayMs < now - modified f.

(** At least one reference, and none of them exists. *)
Definition broken (f : LMAYFile) : Prop :=
  references_of f <> [] /\
  Forall (fun ref => pathExists (path_resolve (path_dirname (path f)) ref) = false)
         (references_of f).

#[local] Instance stale_dec f : Decision (stale f).
Proof. unfold stale. apply _. Defined.

#[local] Instance broken_dec f : Decision (broken f).
Proof. unfold broken. apply _. Defined.

Lemma hasValidReferences_false filePath references :
  hasValidReferences pathExists filePath references = false
  <-> Forall (fun ref => pathExists (path_resolve (path_dirname filePath) ref) = false)
             references.
Proof.
  induction references as [|ref rest IH]; simpl.
  - split; [constructor | reflexivity].
  - destruct (pathExists _) eqn:E.
    + split; [discriminate|]. intros Hall. inversion Hall; congruence.
    + rewrite IH. split; [intros; constructor; assumption | intros Hall; inversion Hall; assumption].
Qed.

Definition obsolete_entry (f : LMAYFile) : Aged :=
  mkAged f (Some "References non-existent files") (age_in_days (now - modified f)).

Definition outdated_entry (f : LMAYFile) : Aged :=
  mkAged f None (age_in_days (now - modified f)).

(** The loop sorts every file into one of the three lists, in order. *)
Lemma analyze_partition lmayFiles : forall analysis,
  (forall f, f ∈ lmayFiles -> stale f -> is_Some (readFile (path f))) ->
  analyse lmayFiles analysis
  = Some (mkAnalysis
            (obsolete analysis
               ++ (obsolete_entry <$> filter (fun f => stale f /\ broken f) lmayFiles))
            (outdated analysis
               ++ (outdated_entry <$> filter (fun f => stale f /\ ~ broken f) lmayFiles))
            (valid analysis ++ filter (fun f => ~ stale f) lmayFiles)).
Proof.
  induction lmayFiles as [|f rest IH]; intros analysis Hread.
  - simpl. rewrite !app_nil_r. destruct analysis; reflexivity.
  - cbn [analyze]. rewrite !filter_cons.
    assert (Hrest : forall g, g ∈ rest -> stale g -> is_Some (readFile (path g)))
      by (intros g Hg; apply Hread; right; assumption).
    unfold is_stale. destruct (Z.ltb_spec (days * dayMs) (now - modified f)) as [Hs|Hs].
    + destruct (Hread f (list_elem_of_here _ _) Hs) as [content Hc].
      assert (Href : references_of f = extractFileReferences content)
        by (unfold references_of; rewrite Hc; reflexivity).
      rewrite Hc.
      rewrite (decide_False (P := ~ stale f)) by (unfold stale; lia).
      destruct (decide (broken f)) as [Hb|Hb].
      * rewrite (decide_True (P := stale f /\ broken f)) by (split; assumption).
        rewrite (decide_False (P := stale f /\ ~ broken f)) by (intros [_ ?]; contradiction).
        destruct Hb as [Hne Hall]. rewrite Href in Hne, Hall.
        apply hasValidReferences_false in Hall. rewrite Hall.
        replace (Nat.ltb 0 (length (extractFileReferences content))) with true
          by (symmetry; apply Nat.ltb_lt; destruct (extractFileReferences content);
              [congruence | simpl; lia]).
        cbn [negb andb]. rewrite IH by assumption. cbn [obsolete outdated valid].
        rewrite fmap_cons, <- !app_assoc. reflexivity.
      * rewrite (decide_False (P := stale f /\ broken f)) by (intros [_ ?]; contradiction).
        rewrite (decide_True (P := stale f /\ ~ broken f)) by (split; assumption).
        assert (Hcond : negb (hasValidReferences pathExists (path f)
                                (extractFileReferences content))
                        && Nat.ltb 0 (length (extractFileReferences content)) = false).
        { destruct (hasValidReferences _ _ _) eqn:Ev; [reflexivity|]. simpl.
          apply Nat.ltb_ge.
          destruct (extractFileReferences content) as [|r rs] eqn:Er; [simpl; lia|].
          exfalso. apply Hb. split; rewrite Href.
          - discriminate.
          - apply hasValidReferences_false. assumption. }
        rewrite Hcond. rewrite IH by assumption. cbn [obsolete outdated valid].
        rewrite fmap_cons, <- !app_assoc. reflexivity.
    + rewrite (decide_True (P := ~ stale f)) by (unfold stale; lia).
      rewrite (decide_False (P := stale f /\ broken f)) by (unfold stale; lia).
      rewrite (decide_False (P := stale f /\ ~ broken f)) by (unfold stale; lia).
      rewrite IH by assumption. cbn [obsolete outdated valid].
      rewrite <- !app_assoc. reflexivity.
Qed.

Lemma file_obsolete_entries (l : list LMAYFile) : file <$> (obsolete_entry <$> l) = l.
Proof. induction l as [|f l IH]; simpl; [reflexivity | f_equal; exact IH]. Qed.

Lemma file_outdated_entries (l : list LMAYFile) : file <$> (outdated_entry <$> l) = l.
Proof. induction l as [|f l IH]; simpl; [reflexivity | f_equal; exact IH]. Qed.

(** C3.  Obsolescence classification, for a numeric threshold and
    stale files that can be read.  The analysis returns, and
    - a file whose age does not exceed the threshold is put in [valid],
      and in no other list, whatever its references;
    - a file over the threshold is put in [obsolete] (only) when it has
      at least one extracted reference and none of them exists;
    - a file over the threshold is put in [outdated] (only) otherwise,
      that is when some reference exists or there is no reference.
    The lists keep the order of the input; obsolete entries carry the
    reason, and both aged lists the age in days. *)
Theorem obsolescence_classification lmayFiles :
  (forall f, f ∈ lmayFiles -> stale f -> is_Some (readFile (path f))) ->
  exists analysis,
    analyzeObsolescence readFile pathExists extractFileReferences now
                        lmayFiles (Some days) = Some analysis /\
    obsolete analysis
    = (obsolete_entry <$> filter (fun f => stale f /\ broken f) lmayFiles) /\
    outdated analysis
    = (outdated_entry <$> filter (fun f => stale f /\ ~ broken f) lmayFiles) /\
    valid analysis = filter (fun f => ~ stale f) lmayFiles /\
    forall f, f ∈ lmayFiles ->
      (now - modified f <= days * dayMs ->
         f ∈ valid analysis
         /\ (f ∉ file <$> obsolete analysis) /\ (f ∉ file <$> outdated analysis)) /\
      (days * dayMs < now - modified f -> broken f ->
         f ∈ file <$> obsolete analysis
         /\ (f ∉ file <$> outdated analysis) /\ (f ∉ valid analysis)) /\
      (days * dayMs < now - modified f -> ~ broken f ->
         f ∈ file <$> outdated analysis
         /\ (f ∉ file <$> obsolete analysis) /\ (f ∉ valid analysis)).
Proof.
  intros Hread. eexists. split.
  - unfold analyzeObsolescence. apply analyze_partition. assumption.
  - cbn [obsolete outdated valid app].
    split; [reflexivity|]. split; [reflexivity|]. split; [reflexivity|].
    intros f Hf. rewrite file_obsolete_entries, file_outdated_entries.
    rewrite !list_elem_of_filter. unfold stale. split_and!.
    + intros Hage. split_and!; try assumption; try lia; intros [[? ?] ?]; lia.
    + intros Hage Hb. split_and!; try assumption; try tauto; intros [? ?]; lia.
    + intros Hage Hb. split_and!; try assumption; try tauto; intros [? ?]; lia.
Qed.

(** When [parseInt(options.threshold)] is [NaN] no file is stale. *)
Lemma nan_threshold_all_valid lmayFiles :
  analyzeObsolescence readFile pathExists extractFileReferences now lmayFiles None
  = Some (mkAnalysis [] [] lmayFiles).
Proof.
  unfold analyzeObsolescence.
  assert (Hgen : forall analysis,
             analyze readFile pathExists extractFileReferences now None lmayFiles analysis
             = Some (mkAnalysis (obsolete analysis) (outdated analysis)
                                (valid analysis ++ lmayFiles))).
  { induction lmayFiles as [|f rest IH]; intros analysis.
    - simpl. rewrite app_nil_r. destruct analysis; reflexivity.
    - cbn [analyze is_stale]. rewrite IH. cbn [obsolete outdated valid].
      rewrite <- app_assoc. reflexivity. }
  apply Hgen.
Qed.

End Env.

#[local] Existing Instance SimplePosix.ops.
#[local] Existing Instance stale_dec.
#[local] Existing Instance broken_dec.

(** Scenarios E and F of the specification, with a fresh file beside
    them: 45 days old with a threshold of 30 days. *)
Definition day (n : Z) : Z := n * dayMs.

Definition stale_ok : LMAYFile := mkFile "/p/ok.lmay" "ok.lmay" 10 (day 55) (day 0).
Definition stale_broken : LMAYFile := mkFile "/p/old.lmay" "old.lmay" 10 (day 55) (day 0).
Definition fresh : LMAYFile := mkFile "/p/new/root.lmay" "new/root.lmay" 10 (day 99) (day 0).

Definition toy_extract (content : string) : list string :=
  if String.eqb content "fresh" then [] else ["src"].

Definition toy_exists (p : string) : bool := String.eqb p "/p/src".

Definition toy_read (p : string) : option string :=
  if String.eqb p "/p/old.lmay" then Some "structure: ..., path: src (deleted)"
  else if String.eqb p "/p/ok.lmay" then Some "structure: ..., path: src"
  else Some "fresh".

Definition toy_exists_none (p : string) : bool := false.

Lemma obsolescence_classification_witness :
  exists analysis,
    analyzeObsolescence toy_read toy_exists_none toy_extract (day 100)
                        [stale_broken; fresh] (Some 30) = Some analysis /\
    obsolete analysis
    = (obsolete_entry (day 100) <$>
         filter (fun f => stale (day 100) 30 f
                          /\ broken toy_read toy_exists_none toy_extract f)
                [stale_broken; fresh]) /\
    outdated analysis
    = (outdated_entry (day 100) <$>
         filter (fun f => stale (day 100) 30 f
                          /\ ~ broken toy_read toy_exists_none toy_extract f)
                [stale_broken; fresh]) /\
    valid analysis = filter (fun f => ~ stale (day 100) 30 f) [stale_broken; fresh] /\
    forall f, f ∈ [stale_broken; fresh] ->
      (day 100 - modified f <= 30 * dayMs ->
         f ∈ valid analysis
         /\ (f ∉ file <$> obsolete analysis) /\ (f ∉ file <$> outdated analysis)) /\
      (30 * dayMs < day 100 - modified f ->
       broken toy_read toy_exists_none toy_extract f ->
         f ∈ file <$> obsolete analysis
         /\ (f ∉ file <$> outdated analysis) /\ (f ∉ valid analysis)) /\
      (30 * dayMs < day 100 - modified f ->
       ~ broken toy_read toy_exists_none toy_extract f ->
         f ∈ file <$> outdated analysis
         /\ (f ∉ file <$> obsolete analysis) /\ (f ∉ valid analysis)).
Proof.
  apply (obsolescence_classification toy_read toy_exists_none toy_extract (day 100) 30
           [stale_broken; fresh]).
  intros f _ _. unfold toy_read.
  destruct (String.eqb (path f) "/p/old.lmay"); [eauto|].
  destruct (String.eqb (path f) "/p/ok.lmay"); eauto.
Defined.

Example scenario_E :
  analyzeObsolescence toy_read toy_exists toy_extract (day 100) [stale_ok] (Some 30)
  = Some (mkAnalysis [] [mkAged stale_ok None 45] []).
Proof. vm_compute. reflexivity. Qed.

Example scenario_F :
  analyzeObsolescence toy_read toy_exists_none toy_extract (day 100)
                      [stale_broken; fresh] (Some 30)
  = Some (mkAnalysis [mkAged stale_broken (Some "References non-existent files") 45]
                     [] [fresh]).
Proof. vm_compute. reflexivity. Qed.

End MaintenanceFacts.

(** ** More on the reference validator *)

Module ReferenceFacts.

Import ReferenceValidator.
Import CycleFacts.

Section Project.
Context `{PathOps}.
Variable yaml_load : string -> option Yaml.
Variable disk : gmap string FsEntry.
Variable listing : option (list DirEntry).

(** X1.  [detectCircularReferences] on any set of loaded documents:
    the traversal ends, and [errors], [warnings] and [fileMap] are
    what they were.  The first structure entry, in the order of
    [fileMap] and of each [structure] mapping, that is [null] or has
    a truthy [lmay_file] decides how the call ends: on [null] it
    throws the [TypeError] of reading [lmay_file] of [null], on a
    link the [TypeError] of the shadowed [path]; it returns normally
    exactly when no loaded document has such an entry. *)
Theorem detectCircularReferences_inert fuel st :
  exists e,
    detectCircularReferences (S fuel) st = Some (st, e) /\
    e = first_throw (all_items (fileMap st) (fileMap st).*1) /\
    (e = None \/ e = Some (TypeError "path.dirname is not a function")
     \/ e = Some (null_read "lmay_file")) /\
    (e = None
     <-> forall filePath, filePath ∈ (fileMap st).*1 ->
           Forall (fun it => thrown_at it = None) (items_of (fileMap st) filePath)).
Proof.
  destruct (detectCircularReferences_never_reports fuel st) as (e & Hd & He).
  exists e. split; [exact Hd|].
  rewrite detectCircularReferences_outcome in Hd. injection Hd as <-.
  split; [reflexivity|]. split; [exact He|].
  split.
  - intros Hnone k Hk. apply first_throw_None.
    destruct (first_throw (items_of (fileMap st) k)) as [e|] eqn:Ek; [|reflexivity].
    assert (Hs : is_Some (first_throw (all_items (fileMap st) (fileMap st).*1))).
    { apply all_items_throw. exists k. split; [exact Hk | rewrite Ek; eauto]. }
    rewrite Hnone in Hs. destruct Hs; discriminate.
  - intros Hall.
    destruct (first_throw (all_items (fileMap st) (fileMap st).*1)) as [e|] eqn:Ee;
      [|reflexivity].
    assert (Hs : is_Some (first_throw (all_items (fileMap st) (fileMap st).*1)))
      by (rewrite Ee; eauto).
    apply all_items_throw in Hs. destruct Hs as (k & Hk & Hs).
    apply Hall, first_throw_None in Hk. rewrite Hk in Hs. destruct Hs; discriminate.
Qed.

(** X2.  A run of [validateProject] that comes back never carries a
    [circular_reference] error.  If, at the end, some loaded document
    has a nested-document link, the run went through the [catch]: it
    returned [false], its last error is the [validation_error] of a
    [TypeError], and no [orphan_lmay_file] warning was produced.  The
    [TypeError] is that of the shadowed [path], or that of a property
    read on a [null] entry or element; it is that of the shadowed
    [path] whenever the parser yields no document with such a
    [null]. *)
Theorem linked_project_fails fuel projectPath rootFile ok st :
  validateProject yaml_load disk listing fuel projectPath rootFile = Some (ok, st) ->
  Forall (fun f => f_type f <> "circular_reference") (errors st) /\
  ((exists filePath, filePath ∈ (fileMap st).*1
                     /\ existsb has_link (items_of (fileMap st) filePath) = true) ->
   ok = false /\
   (exists es e,
       errors st = es ++ [validation_error (path_join projectPath rootFile) e]
       /\ e ∈ [TypeError "path.dirname is not a function"; null_read "lmay_file";
               null_read "path"; null_read "file"]
       /\ ((forall content data,
               yaml_load content = Some data -> PipelineFacts.null_free data)
           -> e = TypeError "path.dirname is not a function")) /\
   Forall (fun f => f_type f <> "orphan_lmay_file") (warnings st)).
Proof. apply PipelineFacts.validateProject_no_cycle_report. Qed.

(** The document [validateProject] loads first. *)
Definition rootData (projectPath rootFile : string) : Yaml :=
  fst (loadLMAYFile yaml_load (readFileSync disk) (path_join projectPath rootFile)
         (mkState [] [] [])).

(** X3.  The boolean [validateProject] returns against the report it
    leaves: it is true exactly when no error was recorded and the root
    document is truthy.  A root that parses to a falsy value
    ([null], [0], [false], the empty string) makes it return [false]
    with an empty error list, so that [isValid()] is true. *)
Theorem validateProject_verdict fuel projectPath rootFile ok st :
  validateProject yaml_load disk listing fuel projectPath rootFile = Some (ok, st) ->
  ok = isValid (generateReport st) && truthy (rootData projectPath rootFile).
Proof.
  unfold validateProject, rootData.
  set (rootPath := path_join projectPath rootFile).
  assert (Hcatch : forall st0 e,
            false = isValid (generateReport (push_error st0 (validation_error rootPath e)))
                    && true).
  { intros st0 e. unfold isValid. simpl. rewrite length_app. simpl.
    rewrite Nat.add_1_r. reflexivity. }
  destruct (existsSync disk rootPath) eqn:Hex; simpl.
  2:{ intros [= <- <-]. unfold loadLMAYFile, readFileSync. simpl.
      unfold existsSync in Hex. apply bool_decide_eq_false in Hex.
      destruct (disk !! rootPath) as [entry|] eqn:Hd; [exfalso; apply Hex; eauto|].
      reflexivity. }
  destruct (loadLMAYFile yaml_load (readFileSync disk) rootPath (mkState [] [] []))
    as [data st1].
  simpl. destruct (truthy data) eqn:Ht; simpl.
  2:{ intros [= <- <-]. rewrite andb_false_r. reflexivity. }
  destruct (validateFileReferences _ _ _ _ _ _ _) as [[st2 [e2|]]|]; [| |discriminate].
  { intros [= <- <-]. apply Hcatch. }
  destruct (discoverAndValidateReferences _ _ _ _ _ _) as [[st3 [e|]]|]; [| |discriminate].
  - intros [= <- <-]. apply Hcatch.
  - intros [= <- <-]. rewrite andb_true_r. reflexivity.
Qed.

(** X4.  A load that fails is not remembered: every further load of
    the path reads the disk again and records the error again. *)
Theorem failed_load_is_not_cached read p st n :
  map_has (fileMap st) p = false ->
  (read p ≫= yaml_load) = None ->
  load_all yaml_load (replicate n (read, p)) st
  = mkState (errors st ++ replicate n (finding "file_load_error" p))
            (warnings st) (fileMap st).
Proof.
  intros Hhas Hfail. revert st Hhas.
  induction n as [|n IH]; intros st Hhas; simpl.
  - rewrite app_nil_r. destruct st; reflexivity.
  - assert (Hl : snd (loadLMAYFile yaml_load read p st)
                 = push_error st (finding "file_load_error" p)).
    { unfold loadLMAYFile. rewrite Hhas.
      destruct (read p) as [content|]; simpl in *; [|reflexivity].
      rewrite Hfail. reflexivity. }
    rewrite Hl, IH by exact Hhas. simpl. rewrite <- app_assoc. reflexivity.
Qed.

(** *** Projects without nested documents *)

(** A document without nested documents and without [null] where
    the checks dereference: every structure entry is an object
    without a truthy [lmay_file], and no element of [entry_points] or
    of the internal dependencies is [null]. *)
Definition plain (data : Yaml) : Prop :=
  Forall (fun it => thrown_at it = None) (default [] (structure_of data)) /\
  Forall (fun entryPoint : option EntryPoint => is_Some entryPoint)
         (default [] (entry_points_of data)) /\
  Forall (fun dep : option InternalDependency => is_Some dep)
         (default [] (internal_dependencies_of data)).

Definition cache_plain (st : State) : Prop :=
  Forall (fun entry : string * Yaml => plain (snd entry)) (fileMap st).

Lemma plain_scalar s : plain (YScalar s).
Proof. repeat split; constructor. Qed.

Lemma thrown_at_None (it : string * option StructureItem) :
  thrown_at it = None <-> exists itemInfo, snd it = Some itemInfo /\ link_of itemInfo = None.
Proof.
  unfold thrown_at. destruct (snd it) as [itemInfo|].
  - destruct (link_of itemInfo) eqn:El.
    + split; [discriminate|]. intros (i & [= <-] & Hl). congruence.
    + split; [eauto | reflexivity].
  - split; [discriminate|]. intros (i & Hi & _). discriminate.
Qed.

Lemma check_item_path_quiet itemName itemInfo filePath basePath st :
  let st' := check_item_path disk itemName itemInfo filePath basePath st in
  warnings st' = warnings st /\ fileMap st' = fileMap st.
Proof.
  unfold check_item_path.
  destruct (str_truthy (item_path itemInfo)); [|auto].
  destruct (negb (existsSync disk _)); [auto|].
  destruct (_ && _); auto.
Qed.

Lemma validateEntryPointReferences_quiet entryPoints :
  Forall (fun entryPoint : option EntryPoint => is_Some entryPoint) entryPoints ->
  forall i filePath basePath st,
  exists st',
    validateEntryPointReferences disk i entryPoints filePath basePath st = (st', None)
    /\ warnings st' = warnings st /\ fileMap st' = fileMap st.
Proof.
  induction 1 as [|entryPoint rest [ep ->] _ IH]; intros i filePath basePath st;
    cbn [validateEntryPointReferences]; [eauto|].
  match goal with |- context [validateEntryPointReferences _ _ _ _ _ ?s] =>
    destruct (IH (S i) filePath basePath s) as (st' & -> & Hw & Hm) end.
  exists st'. split; [reflexivity|]. rewrite Hw, Hm.
  destruct (str_truthy (ep_file ep)); [|auto].
  destruct (negb (existsSync disk _)); [auto|].
  destruct (negb (isFile disk _)); auto.
Qed.

Lemma validateInternalDependencyReferences_quiet internalDeps :
  Forall (fun dep : option InternalDependency => is_Some dep) internalDeps ->
  forall i filePath basePath st,
  exists st',
    validateInternalDependencyReferences disk i internalDeps filePath basePath st
    = (st', None)
    /\ warnings st' = warnings st /\ fileMap st' = fileMap st.
Proof.
  induction 1 as [|dep rest [d ->] _ IH]; intros i filePath basePath st;
    cbn [validateInternalDependencyReferences]; [eauto|].
  match goal with |- context [validateInternalDependencyReferences _ _ _ _ _ ?s] =>
    destruct (IH (S i) filePath basePath s) as (st' & -> & Hw & Hm) end.
  exists st'. split; [reflexivity|]. rewrite Hw, Hm.
  destruct (_ && _); auto.
Qed.

Lemma validateStructureReferences_plain rec structure :
  Forall (fun it => thrown_at it = None) structure ->
  forall filePath basePath st,
  exists st',
    validateStructureReferences yaml_load disk rec structure filePath basePath st
    = Some (st', None)
    /\ warnings st' = warnings st /\ fileMap st' = fileMap st.
Proof.
  induction 1 as [|[itemName entry] rest Hl _ IH]; intros filePath basePath st.
  - simpl. eauto.
  - apply thrown_at_None in Hl. destruct Hl as (itemInfo & Hi & Hl).
    simpl in Hi. subst entry. cbn [validateStructureReferences]. rewrite Hl.
    destruct (check_item_path_quiet itemName itemInfo filePath basePath st) as [Hw Hm].
    destruct (IH filePath basePath
                (check_item_path disk itemName itemInfo filePath basePath st))
      as (st' & -> & Hw' & Hm').
    exists st'. split; [reflexivity|]. split; congruence.
Qed.

(** The reference check of a plain document needs no recursion: it
    comes back without an exception, and only errors can have been
    added. *)
Lemma validateFileReferences_plain fuel data filePath basePath st :
  plain data ->
  exists st',
    validateFileReferences yaml_load disk (S fuel) data filePath basePath st
    = Some (st', None)
    /\ warnings st' = warnings st /\ fileMap st' = fileMap st.
Proof.
  intros (Hitems & Heps & Hdeps). cbn [validateFileReferences].
  assert (H1 : exists st1,
             match structure_of data with
             | Some structure =>
                 validateStructureReferences yaml_load disk
                   (validateFileReferences yaml_load disk fuel) structure filePath basePath st
             | None => Some (st, None)
             end = Some (st1, None) /\ warnings st1 = warnings st /\ fileMap st1 = fileMap st).
  { destruct (structure_of data) as [structure|]; [|eauto].
    apply validateStructureReferences_plain. exact Hitems. }
  destruct H1 as (st1 & -> & Hw1 & Hm1).
  assert (H2 : exists st2,
             match entry_points_of data with
             | Some entryPoints =>
                 validateEntryPointReferences disk 0 entryPoints filePath basePath st1
             | None => (st1, None)
             end = (st2, None) /\ warnings st2 = warnings st1 /\ fileMap st2 = fileMap st1).
  { destruct (entry_points_of data) as [eps|]; [|eauto].
    apply validateEntryPointReferences_quiet. exact Heps. }
  destruct H2 as (st2 & -> & Hw2 & Hm2).
  assert (H3 : exists st3,
             match internal_dependencies_of data with
             | Some internalDeps =>
                 validateInternalDependencyReferences disk 0 internalDeps
                                                      filePath basePath st2
             | None => (st2, None)
             end = (st3, None) /\ warnings st3 = warnings st2 /\ fileMap st3 = fileMap st2).
  { destruct (internal_dependencies_of data) as [deps|]; [|eauto].
    apply validateInternalDependencyReferences_quiet. exact Hdeps. }
  destruct H3 as (st3 & -> & Hw3 & Hm3).
  exists st3. split; [reflexivity|]. split; congruence.
Qed.

Section Plain.
Hypothesis parsed_plain :
  forall content data, yaml_load content = Some data -> plain data.

Lemma loadLMAYFile_plain p st :
  cache_plain st ->
  let r := loadLMAYFile yaml_load (readFileSync disk) p st in
  plain (fst r) /\ cache_plain (snd r) /\ warnings (snd r) = warnings st.
Proof.
  intros Hc. unfold loadLMAYFile.
  destruct (map_has (fileMap st) p) eqn:Hhas; simpl.
  - split; [|auto]. destruct (map_get (fileMap st) p) as [d|] eqn:Hg; simpl.
    + apply LoaderFacts.map_get_elem in Hg. unfold cache_plain in Hc.
      rewrite Forall_forall in Hc. apply (Hc _ Hg).
    + apply plain_scalar.
  - destruct (readFileSync disk p) as [content|]; simpl;
      [|split; [apply plain_scalar | auto]].
    destruct (yaml_load content) as [data|] eqn:Hy; simpl;
      [|split; [apply plain_scalar | auto]].
    pose proof (parsed_plain _ _ Hy) as Hd.
    split; [exact Hd|]. split; [|reflexivity].
    apply LoaderFacts.map_set_Forall; [intros; exact Hd | exact Hc].
Qed.

Lemma discover_each_plain fuel projectPath lmayFiles : forall st,
  cache_plain st ->
  exists st',
    discover_each yaml_load disk (S fuel) projectPath lmayFiles st = Some (st', None)
    /\ cache_plain st' /\ warnings st' = warnings st.
Proof.
  induction lmayFiles as [|lmayFile rest IH]; intros st Hc; cbn [discover_each].
  - eauto.
  - destruct (negb (map_has (fileMap st) lmayFile)); [|apply IH; exact Hc].
    destruct (loadLMAYFile_plain lmayFile st Hc) as (Hd & Hc1 & Hw1).
    destruct (loadLMAYFile yaml_load (readFileSync disk) lmayFile st) as [data st1].
    simpl in Hd, Hc1, Hw1.
    destruct (truthy data).
    + destruct (validateFileReferences_plain fuel data lmayFile projectPath st1 Hd)
        as (st2 & -> & Hw2 & Hm2).
      destruct (IH st2) as (st' & -> & Hc' & Hw').
      { unfold cache_plain. rewrite Hm2. exact Hc1. }
      exists st'. split; [reflexivity|]. split; [exact Hc'|]. congruence.
    + destruct (IH st1 Hc1) as (st' & -> & Hc' & Hw').
      exists st'. split; [reflexivity|]. split; [exact Hc'|]. congruence.
Qed.

Lemma plain_no_edge (st : State) (g x : string) :
  cache_plain st -> ~ edge (fileMap st) g x.
Proof.
  intros Hc (data & Hin & Hx). unfold cache_plain in Hc.
  rewrite Forall_forall in Hc. destruct (Hc _ Hin) as [Hitems _]. simpl in Hitems.
  unfold doc_links in Hx.
  destruct (structure_of data) as [items|]; [|inversion Hx]. simpl in Hitems.
  apply list_elem_of_omap in Hx. destruct Hx as (it & Hit & Hl).
  rewrite Forall_forall in Hitems. apply Hitems, thrown_at_None in Hit.
  destruct Hit as (itemInfo & Hi & Hnone). rewrite Hi in Hl. simpl in Hl.
  rewrite Hnone in Hl. discriminate.
Qed.

Lemma plain_no_throw (st : State) :
  cache_plain st -> first_throw (all_items (fileMap st) (fileMap st).*1) = None.
Proof.
  intros Hc.
  destruct (first_throw (all_items (fileMap st) (fileMap st).*1)) as [e|] eqn:Ee;
    [|reflexivity]. exfalso.
  assert (Hs : is_Some (first_throw (all_items (fileMap st) (fileMap st).*1)))
    by (rewrite Ee; eauto).
  apply all_items_throw in Hs. destruct Hs as (k & _ & Hs).
  assert (Hk : first_throw (items_of (fileMap st) k) = None).
  { apply first_throw_None. unfold items_of.
    destruct (map_get (fileMap st) k) as [d|] eqn:Hg; [|constructor]. simpl.
    apply LoaderFacts.map_get_elem in Hg. unfold cache_plain in Hc.
    rewrite Forall_forall in Hc. destruct (Hc _ Hg) as [Hitems _]. simpl in Hitems.
    destruct (truthy d); [|constructor].
    destruct (structure_of d); [exact Hitems | constructor]. }
  rewrite Hk in Hs. destruct Hs; discriminate.
Qed.

Lemma plain_no_null (st : State) :
  cache_plain st -> ~ OrphanFacts.null_entry (fileMap st).
Proof.
  intros Hc (f & data & items & n & Hin & Hs & Hn). unfold cache_plain in Hc.
  rewrite Forall_forall in Hc. destruct (Hc _ Hin) as [Hitems _]. simpl in Hitems.
  rewrite Hs in Hitems. simpl in Hitems.
  rewrite Forall_forall in Hitems. apply Hitems in Hn. discriminate.
Qed.

Lemma filter_ext_in {A} (P Q : A -> Prop) `{!forall x, Decision (P x)}
    `{!forall x, Decision (Q x)} (l : list A) :
  (forall x, x ∈ l -> P x <-> Q x) -> filter P l = filter Q l.
Proof.
  induction l as [|x l IH]; intros Hpq; [reflexivity|].
  rewrite !filter_cons.
  rewrite IH by (intros y Hy; apply Hpq; right; exact Hy).
  destruct (decide (P x)) as [Hp|Hp], (decide (Q x)) as [Hq|Hq]; try reflexivity;
    exfalso; apply (Hpq x (list_elem_of_here _ _)) in Hp || apply Hp, (Hpq x (list_elem_of_here _ _)), Hq;
    contradiction.
Qed.

(** X5.  A project all of whose documents are plain (no
    nested-document link, no [null] entry or element) and whose root
    document is truthy: no check throws, the orphan pass is reached,
    [validateProject] comes back with any positive fuel, its verdict is
    [errors.length === 0], and its warnings are exactly one
    [orphan_lmay_file] per discovered [.lmay] file other than
    [<project>/root.lmay], in discovery order.  The root document
    itself is flagged when its file is not named [root.lmay]. *)
Theorem link_free_project fuel projectPath rootFile :
  truthy (rootData projectPath rootFile) = true ->
  exists st,
    validateProject yaml_load disk listing (S fuel) projectPath rootFile
    = Some (isValid (generateReport st), st) /\
    warnings st
    = orphan_lmay_file <$>
        filter (fun f => f <> path_join projectPath "root.lmay")
               (js_set_of (findAllLMAYFiles projectPath listing) []).
Proof.
  unfold rootData, validateProject. intros Ht.
  set (rootPath := path_join projectPath rootFile) in *.
  assert (Hex : existsSync disk rootPath = true).
  { unfold existsSync. apply bool_decide_eq_true.
    unfold loadLMAYFile, readFileSync in Ht. simpl in Ht.
    destruct (disk !! rootPath) as [entry|]; [eauto | discriminate]. }
  rewrite Hex. cbn [negb].
  assert (H0 : cache_plain (mkState [] [] [])) by constructor.
  destruct (loadLMAYFile_plain rootPath _ H0) as (Hd & Hc1 & Hw1).
  destruct (loadLMAYFile yaml_load (readFileSync disk) rootPath (mkState [] [] []))
    as [data st1].
  simpl in Ht, Hd, Hc1, Hw1. rewrite Ht. cbn [negb].
  destruct (validateFileReferences_plain fuel data rootPath projectPath st1 Hd)
    as (st2 & -> & Hw2 & Hm2).
  unfold discoverAndValidateReferences.
  destruct (discover_each_plain fuel projectPath
              (findAllLMAYFiles projectPath listing) st2) as (st3 & -> & Hc3 & Hw3).
  { unfold cache_plain. rewrite Hm2. exact Hc1. }
  rewrite detectCircularReferences_outcome, (plain_no_throw st3 Hc3).
  destruct (OrphanFacts.detectOrphanFiles_spec projectPath listing st3)
    as [[Hnull _] | [_ (added & Hdet & _ & _ & Hflag & _)]].
  { exfalso. exact (plain_no_null st3 Hc3 Hnull). }
  unfold detectOrphanFiles in *.
  destruct (referencedFiles projectPath _ (fileMap st3)) as [e|referenced] eqn:Hr;
    [discriminate|].
  rewrite OrphanFacts.foldl_orphans.
  match goal with |- exists st, Some (_, ?s) = _ /\ _ => exists s end.
  split; [reflexivity|]. cbn [warnings].
  rewrite Hw3, Hw2, Hw1. cbn [app]. f_equal.
  apply filter_ext_in. intros f Hf.
  rewrite (OrphanFacts.referencedFiles_elem _ _ _ _ _ Hr). split.
  - intros Hn ->. apply Hn. left. split; [reflexivity | exact Hf].
  - intros Hne [[-> _] | (g & Hg)]; [contradiction|].
    apply (plain_no_edge st3 g f Hc3 Hg).
Qed.

End Plain.

(** *** Findings accumulate *)

(** [st'] keeps every finding of [st], in place, and every cached
    document. *)
Definition extends (st st' : State) : Prop :=
  errors st `prefix_of` errors st' /\
  warnings st `prefix_of` warnings st' /\
  forall p d, map_get (fileMap st) p = Some d -> map_get (fileMap st') p = Some d.

Lemma extends_refl st : extends st st.
Proof. split; [reflexivity|]. split; [reflexivity | auto]. Qed.

Lemma extends_trans st1 st2 st3 : extends st1 st2 -> extends st2 st3 -> extends st1 st3.
Proof.
  intros (He & Hw & Hm) (He' & Hw' & Hm'). split; [etrans; eassumption|].
  split; [etrans; eassumption | auto].
Qed.

Lemma push_error_extends st f : extends st (push_error st f).
Proof. split; [apply prefix_app_r; reflexivity|]. split; [reflexivity | auto]. Qed.

Lemma push_warning_extends st f : extends st (push_warning st f).
Proof. split; [reflexivity|]. split; [apply prefix_app_r; reflexivity | auto]. Qed.

Lemma loadLMAYFile_extends p st :
  extends st (snd (loadLMAYFile yaml_load (readFileSync disk) p st)).
Proof.
  split; [|split].
  - unfold loadLMAYFile. destruct (map_has _ _); [reflexivity|].
    destruct (readFileSync disk p) as [c|]; [|apply prefix_app_r; reflexivity].
    destruct (yaml_load c); [reflexivity | apply prefix_app_r; reflexivity].
  - unfold loadLMAYFile. destruct (map_has _ _); [reflexivity|].
    destruct (readFileSync disk p) as [c|]; [|reflexivity].
    destruct (yaml_load c); reflexivity.
  - intros q d. apply LoaderFacts.load_keeps.
Qed.

Lemma validateFileReferences_extends fuel data filePath basePath st st' e :
  validateFileReferences yaml_load disk fuel data filePath basePath st = Some (st', e) ->
  extends st st'.
Proof.
  intros Hv.
  apply (PipelineFacts.validateFileReferences_steps yaml_load disk extends) in Hv;
    [apply Hv | apply extends_refl | apply extends_trans
    | intros; apply push_error_extends | intros; apply push_warning_extends
    | apply loadLMAYFile_extends].
Qed.

Lemma discover_each_extends fuel projectPath lmayFiles st st' e :
  discover_each yaml_load disk fuel projectPath lmayFiles st = Some (st', e) ->
  extends st st'.
Proof.
  intros Hv.
  apply (PipelineFacts.discover_each_steps yaml_load disk extends) in Hv;
    [apply Hv | apply extends_refl | apply extends_trans
    | intros; apply push_error_extends | intros; apply push_warning_extends
    | apply loadLMAYFile_extends].
Qed.

(** X6.  The reference checks only ever add: whenever
    [validateFileReferences] or [discoverAndValidateReferences] comes
    back, normally or with an exception, the errors and warnings
    recorded before are a prefix of those recorded after, and every
    document of the cache is still there, unchanged. *)
Theorem reference_checks_accumulate fuel :
  (forall data filePath basePath st st' e,
      validateFileReferences yaml_load disk fuel data filePath basePath st
      = Some (st', e) ->
      extends st st') /\
  (forall projectPath st st' e,
      discoverAndValidateReferences yaml_load disk listing fuel projectPath st
      = Some (st', e) ->
      extends st st').
Proof.
  split; [intros *; apply validateFileReferences_extends|].
  intros projectPath st st' e. unfold discoverAndValidateReferences.
  destruct (discover_each _ _ _ _ _ st) as [[st1 [e1|]]|] eqn:E1; [| |discriminate].
  { intros [= <- <-]. eapply discover_each_extends. exact E1. }
  apply discover_each_extends in E1.
  destruct (detectCircularReferences fuel st1) as [[st2 [e2|]]|] eqn:E2;
    [| |discriminate].
  { apply detectCircularReferences_state in E2. subst st2. intros [= <- <-]. exact E1. }
  apply detectCircularReferences_state in E2. subst st2.
  destruct (OrphanFacts.detectOrphanFiles_spec projectPath listing st1)
    as [[_ ->] | [_ (added & -> & _)]].
  - intros [= <- <-]. exact E1.
  - intros [= <- <-]. eapply extends_trans; [exact E1|].
    split; [reflexivity|]. split; [apply prefix_app_r; reflexivity | auto].
Qed.

End Project.

#[local] Existing Instance SimplePosix.ops.

(** The end of the run on the project whose root links [a.lmay]
    (see [PipelineFacts.orphans_missed_and_root_flagged]). *)
Definition stateC : State :=
  mkState [validation_error "/p/root.lmay" (TypeError "path.dirname is not a function")]
          [] PipelineFacts.fileMapC.

Lemma linked_project_fails_witness :
  Forall (fun f => f_type f <> "circular_reference") (errors stateC) /\
  ((exists filePath, filePath ∈ (fileMap stateC).*1
                     /\ existsb has_link (items_of (fileMap stateC) filePath) = true) ->
   false = false /\
   (exists es e,
       errors stateC = es ++ [validation_error (path_join "/p" "root.lmay") e]
       /\ e ∈ [TypeError "path.dirname is not a function"; null_read "lmay_file";
               null_read "path"; null_read "file"]
       /\ ((forall content data,
               PipelineFacts.loadC content = Some data -> PipelineFacts.null_free data)
           -> e = TypeError "path.dirname is not a function")) /\
   Forall (fun f => f_type f <> "orphan_lmay_file") (warnings stateC)).
Proof.
  apply (linked_project_fails PipelineFacts.loadC PipelineFacts.diskC PipelineFacts.listingC
           3 "/p" "root.lmay" false stateC).
  vm_compute. reflexivity.
Defined.

(** A root file that holds the YAML document [null]. *)
Definition disk_null : gmap string FsEntry := {["/p/root.lmay" := File "null"]}.

Definition load_null (content : string) : option Yaml := Some (YScalar SNull).

Lemma validateProject_verdict_witness :
  isValid (generateReport (mkState [] [] [("/p/root.lmay", YScalar SNull)])) = true /\
  false = isValid (generateReport (mkState [] [] [("/p/root.lmay", YScalar SNull)]))
          && truthy (rootData load_null disk_null "/p" "root.lmay").
Proof.
  split; [reflexivity|].
  apply (validateProject_verdict load_null disk_null None 0 "/p" "root.lmay").
  vm_compute. reflexivity.
Defined.

Lemma failed_load_is_not_cached_witness :
  load_all LoaderFacts.toy_yaml_load
           (replicate 2 (LoaderFacts.disk_gone, "/p/a.lmay")) (mkState [] [] [])
  = mkState ([] ++ replicate 2 (finding "file_load_error" "/p/a.lmay")) [] [].
Proof.
  apply (failed_load_is_not_cached LoaderFacts.toy_yaml_load LoaderFacts.disk_gone
           "/p/a.lmay" (mkState [] [] []) 2); reflexivity.
Defined.

Lemma link_free_project_witness :
  exists st,
    validateProject PipelineFacts.loadM PipelineFacts.diskM PipelineFacts.listingM
                    1 "/p" "main.lmay"
    = Some (isValid (generateReport st), st) /\
    warnings st
    = orphan_lmay_file <$>
        filter (fun f => f <> path_join "/p" "root.lmay")
               (js_set_of (findAllLMAYFiles "/p" PipelineFacts.listingM) []).
Proof.
  apply (link_free_project PipelineFacts.loadM PipelineFacts.diskM PipelineFacts.listingM).
  - intros content data [= <-]. repeat split; constructor.
  - vm_compute. reflexivity.
Defined.

(** A document with a [null] structure entry, as YAML gives for
    [src:] without a value: the check of its references stops at the
    entry, with the findings of the entries before it. *)
Lemma reference_checks_accumulate_witness :
  extends (mkState [] [] [])
          (mkState [finding_at "referenced_path_not_found" "/p/root.lmay"
                               "/structure/docs/path"] [] []).
Proof.
  apply (proj1 (reference_checks_accumulate PipelineFacts.loadM ∅ None 1)
           (doc_of_structure [("docs", Some (mkItem (Some "docs") None SUndefined None None));
                              ("src", None)])
           "/p/root.lmay" "/p" _ _ (Some (null_read "path"))).
  vm_compute. reflexivity.
Defined.

End ReferenceFacts.

Module DiscoveryFacts.

Import ReferenceValidator.

(** Induction over a directory tree and the trees below it. *)
Lemma DirEntry_ind_nested (P : DirEntry -> Prop) :
  (forall name, P (EFile name)) ->
  (forall name readable entries, Forall P entries -> P (EDir name readable entries)) ->
  (forall name, P (EOther name)) ->
  forall entry, P entry.
Proof.
  intros Hfile Hdir Hother.
  fix IH 1. intros [name|name readable entries|name].
  - apply Hfile.
  - apply Hdir. induction entries as [|e es IHes]; constructor; [apply IH | exact IHes].
  - apply Hother.
Qed.

Section WithPath.
Context `{PathOps}.

(** [p] is a regular file named [*.lmay] that sits in the listing, or
    below it through directories that can be read and are not
    skipped. *)
Inductive located : string -> list DirEntry -> string -> Prop :=
| located_here dirPath entries name :
    EFile name ∈ entries -> endsWith name ".lmay" = true ->
    located dirPath entries (path_join dirPath name)
| located_below dirPath entries name sub p :
    EDir name true sub ∈ entries -> shouldSkipDirectory name = false ->
    located (path_join dirPath name) sub p ->
    located dirPath entries p.

Lemma located_split dirPath entries p :
  located dirPath entries p <-> exists e, e ∈ entries /\ located dirPath [e] p.
Proof.
  split.
  - intros Hl. destruct Hl as [dirPath entries name Hin He | dirPath entries name sub p Hin Hs Hl].
    + exists (EFile name). split; [assumption|]. apply located_here; [left | assumption].
    + exists (EDir name true sub). split; [assumption|].
      eapply located_below; [left | assumption | exact Hl].
  - intros (e & Hin & Hl). inversion Hl as [? ? name Hin' He | ? ? name sub ? Hin' Hs Hl']; subst.
    + apply list_elem_of_singleton in Hin'. subst e. apply located_here; assumption.
    + apply list_elem_of_singleton in Hin'. subst e.
      eapply located_below; [exact Hin | assumption | exact Hl'].
Qed.

Lemma located_nil dirPath p : ~ located dirPath [] p.
Proof. intros Hl. inversion Hl as [? ? ? Hin|? ? ? ? ? Hin]; inversion Hin. Qed.

Lemma located_cons dirPath e entries p :
  located dirPath (e :: entries) p <-> located dirPath [e] p \/ located dirPath entries p.
Proof.
  rewrite (located_split _ (e :: entries)), (located_split _ entries). split.
  - intros (e' & Hin & Hl). apply elem_of_cons in Hin. destruct Hin as [-> | Hin]; eauto.
  - intros [Hl | (e' & Hin & Hl)]; [exists e; split; [left | assumption]|].
    exists e'. split; [right; assumption | assumption].
Qed.

Lemma find_each_elem dirPath entries :
  Forall (fun e => forall dirPath files p,
              p ∈ find_entry dirPath e files <-> p ∈ files \/ located dirPath [e] p)
         entries ->
  forall files p,
    p ∈ foldl (fun files e => find_entry dirPath e files) files entries
    <-> p ∈ files \/ located dirPath entries p.
Proof.
  induction 1 as [|e es He _ IH]; intros files p; simpl.
  - split; [auto | intros [? | Hl]; [assumption | destruct (located_nil _ _ Hl)]].
  - rewrite IH, He, (located_cons _ e es). tauto.
Qed.

Lemma find_entry_elem entry : forall dirPath files p,
  p ∈ find_entry dirPath entry files <-> p ∈ files \/ located dirPath [entry] p.
Proof.
  induction entry as [name|name readable entries IH|name] using DirEntry_ind_nested;
    intros dirPath files p.
  - cbn [find_entry]. destruct (endsWith name ".lmay") eqn:He.
    + rewrite elem_of_app, list_elem_of_singleton. split.
      * intros [? | ->]; [left; assumption | right].
        apply located_here; [left | assumption].
      * intros [? | Hl]; [left; assumption|].
        inversion Hl as [? ? name' Hin _ | ? ? name' sub ? Hin]; subst;
          apply list_elem_of_singleton in Hin; [|discriminate].
        injection Hin as ->. right. reflexivity.
    + split; [auto|]. intros [? | Hl]; [assumption|].
      inversion Hl as [? ? name' Hin He' | ? ? name' sub ? Hin]; subst;
        apply list_elem_of_singleton in Hin; [|discriminate].
      injection Hin as ->. congruence.
  - assert (Hloop : forall files,
      (fix each (es : list DirEntry) (files : list string) : list string :=
         match es with
         | [] => files
         | e :: es' => each es' (find_entry (path_join dirPath name) e files)
         end) entries files
      = foldl (fun files e => find_entry (path_join dirPath name) e files) files entries).
    { clear IH. induction entries as [|e es IHes]; intros fs; [reflexivity | apply IHes]. }
    cbn [find_entry]. rewrite Hloop.
    destruct (shouldSkipDirectory name) eqn:Hs; cbn [negb].
    + split; [auto|]. intros [? | Hl]; [assumption|].
      inversion Hl as [? ? name' Hin | ? ? name' sub ? Hin Hs']; subst;
        apply list_elem_of_singleton in Hin; [discriminate|].
      injection Hin as -> _ _. congruence.
    + destruct readable.
      * rewrite (find_each_elem _ _ IH). split.
        -- intros [? | Hl]; [left; assumption | right].
           eapply located_below; [left | assumption | exact Hl].
        -- intros [? | Hl]; [left; assumption | right].
           inversion Hl as [? ? name' Hin | ? ? name' sub ? Hin Hs' Hl']; subst;
             apply list_elem_of_singleton in Hin; [discriminate|].
           injection Hin as -> ->. exact Hl'.
      * split; [auto|]. intros [? | Hl]; [assumption|].
        inversion Hl as [? ? name' Hin | ? ? name' sub ? Hin Hs' Hl']; subst;
          apply list_elem_of_singleton in Hin; discriminate.
  - cbn [find_entry]. split; [auto|]. intros [? | Hl]; [assumption|].
    inversion Hl as [? ? name' Hin | ? ? name' sub ? Hin]; subst;
      apply list_elem_of_singleton in Hin; discriminate.
Qed.

(** X7.  What [findAllLMAYFiles] finds: exactly the regular files
    whose name ends in [.lmay], in the directory itself or below it
    through readable directories that [shouldSkipDirectory] lets
    through.  Nothing is found when the directory cannot be read. *)
Theorem findAllLMAYFiles_located dirPath entries p :
  (p ∈ findAllLMAYFiles dirPath (Some entries) <-> located dirPath entries p) /\
  findAllLMAYFiles dirPath None = [].
Proof.
  split; [|reflexivity]. unfold findAllLMAYFiles.
  rewrite find_each_elem.
  - split; [intros [Hin | ?]; [inversion Hin | assumption] | auto].
  - apply Forall_forall. intros e _. apply find_entry_elem.
Qed.

End WithPath.

End DiscoveryFacts.

(** ** More on the hierarchy pass *)

Module HierarchyReportFacts.

Import LMAYValidator.
Import HierarchyFacts.

#[local] Arguments below : simpl never.

Definition excessive_hierarchy_depth (n : Node) : Finding :=
  mkFinding "excessive_hierarchy_depth" (Some (n_file n)) None None (Some (n_depth n)) None.

Definition incorrect_hierarchy_depth (n : Node) : Finding :=
  finding_at "incorrect_hierarchy_depth" (n_file n) "/hierarchy/depth".

(** [node.data.hierarchy.depth], when the document has a [hierarchy]
    mapping with a [depth]. *)
Definition declared_depth (n : Node) : option Z :=
  hierarchy_of (n_data n) ≫= h_depth.

(** The document declares a depth, and it is not [k]. *)
Definition declares_other_than (k : Z) (n : Node) : Prop :=
  match declared_depth n with
  | Some d => d <> k
  | None => False
  end.

#[local] Instance declares_other_than_dec k n : Decision (declares_other_than k n).
Proof. unfold declares_other_than. destruct (declared_depth n); apply _. Defined.

Section Consistency.
Context `{PathOps}.

(** What the metadata check adds for one node. *)
Definition metadata_errors (n : Node) : list Finding :=
  match hierarchy_of (n_data n) with
  | Some hierarchy => r_errors (validateHierarchyMetadata n hierarchy (mkReport [] []))
  | None => []
  end.

Lemma validateHierarchyMetadata_appends n hierarchy r :
  validateHierarchyMetadata n hierarchy r
  = mkReport (r_errors r ++ r_errors (validateHierarchyMetadata n hierarchy (mkReport [] [])))
             (r_warnings r).
Proof.
  unfold validateHierarchyMetadata.
  destruct (h_depth hierarchy) as [d|];
    [destruct (negb (Z.eqb d (Z.of_nat (n_depth n))))|];
    (destruct (h_parent hierarchy) as [declared|];
     [destruct (n_parent n) as [parentFile|];
      [destruct (negb (String.eqb declared ""));
       [destruct (negb (String.eqb declared _))|]|]|]);
    simpl; rewrite ?app_nil_r, <- ?app_assoc; destruct r; reflexivity.
Qed.

(** The pass walks the tree in preorder; each node adds its metadata
    errors, and a warning when it is deeper than [maxDepth]. *)
Lemma validateHierarchyConsistency_preorder maxDepth node : forall r,
  validateHierarchyConsistency maxDepth node r
  = mkReport (r_errors r ++ concat (metadata_errors <$> (node :: below node)))
             (r_warnings r
                ++ (excessive_hierarchy_depth <$>
                      filter (fun n => maxDepth < n_depth n) (node :: below node))).
Proof.
  induction node as [file data children depth parent parentKey IH] using Node_rect_nested.
  intros r. rewrite below_unfold.
  cbn [validateHierarchyConsistency n_depth n_data n_children].
  remember (mkNode file data children depth parent parentKey) as node eqn:Enode.
  assert (Hloop : forall r0,
    (fix each (children : list Node) (r : Report) : Report :=
       match children with
       | [] => r
       | child :: rest => each rest (validateHierarchyConsistency maxDepth child r)
       end) children r0
    = mkReport (r_errors r0
                  ++ concat (metadata_errors <$>
                               concat ((fun c => c :: below c) <$> children)))
               (r_warnings r0
                  ++ (excessive_hierarchy_depth <$>
                        filter (fun n => maxDepth < n_depth n)
                               (concat ((fun c => c :: below c) <$> children))))).
  { clear Enode. induction IH as [|c cs Hc _ IHcs]; intros r0.
    - simpl. rewrite !app_nil_r. destruct r0; reflexivity.
    - rewrite IHcs, Hc. rewrite (fmap_cons (fun c => c :: below c) c cs).
      cbn [r_errors r_warnings concat].
      rewrite (fmap_app metadata_errors), concat_app, filter_app, fmap_app, <- !app_assoc.
      reflexivity. }
  rewrite Hloop. clear Hloop IH.
  rewrite fmap_cons. cbn [concat]. rewrite filter_cons.
  assert (Hd : n_depth node = depth) by (subst node; reflexivity).
  assert (Hm : metadata_errors node
               = match hierarchy_of data with
                 | Some hierarchy =>
                     r_errors (validateHierarchyMetadata node hierarchy (mkReport [] []))
                 | None => []
                 end) by (subst node; reflexivity).
  assert (Hx : excessive_hierarchy_depth node
               = mkFinding "excessive_hierarchy_depth" (Some (n_file node)) None None
                           (Some depth) None)
    by (subst node; reflexivity).
  rewrite Hm, Hd. clear Hm Hd.
  destruct (hierarchy_of data) as [hierarchy|].
  - rewrite validateHierarchyMetadata_appends.
    destruct (Nat.ltb_spec maxDepth depth) as [Hlt|Hge].
    + rewrite decide_True by assumption. rewrite fmap_cons, Hx.
      cbn [r_errors r_warnings app]. rewrite <- !app_assoc. reflexivity.
    + rewrite decide_False by lia.
      cbn [r_errors r_warnings app]. rewrite <- !app_assoc. reflexivity.
  - destruct (Nat.ltb_spec maxDepth depth) as [Hlt|Hge].
    + rewrite decide_True by assumption. rewrite fmap_cons, Hx.
      cbn [r_errors r_warnings app]. rewrite <- !app_assoc. reflexivity.
    + rewrite decide_False by lia.
      cbn [r_errors r_warnings app]. reflexivity.
Qed.

Lemma parent_check_keeps_depth_errors (n : Node) (hierarchy : Hierarchy) (r1 : Report) :
  filter (fun f => f_type f = "incorrect_hierarchy_depth")
    (r_errors
       match h_parent hierarchy, n_parent n with
       | Some declared, Some parentFile =>
           if negb (String.eqb declared "") then
             if negb (String.eqb declared
                        (path_relative (path_dirname (n_file n)) parentFile))
             then mkReport (r_errors r1
                              ++ [finding_at "incorrect_parent_reference" (n_file n)
                                             "/hierarchy/parent"])
                           (r_warnings r1)
             else r1
           else r1
       | _, _ => r1
       end)
  = filter (fun f => f_type f = "incorrect_hierarchy_depth") (r_errors r1).
Proof.
  destruct (h_parent hierarchy) as [declared|]; [|reflexivity].
  destruct (n_parent n) as [parentFile|]; [|reflexivity].
  destruct (negb (String.eqb declared "")); [|reflexivity].
  destruct (negb (String.eqb declared _)); [|reflexivity].
  cbn [r_errors]. rewrite filter_app. rewrite filter_cons, filter_nil.
  rewrite decide_False by discriminate. apply app_nil_r.
Qed.

Lemma depth_errors_of_node n :
  filter (fun f => f_type f = "incorrect_hierarchy_depth") (metadata_errors n)
  = incorrect_hierarchy_depth <$>
      filter (declares_other_than (Z.of_nat (n_depth n))) [n].
Proof.
  rewrite (filter_cons (declares_other_than (Z.of_nat (n_depth n)))), filter_nil.
  destruct (decide (declares_other_than (Z.of_nat (n_depth n)) n)) as [Hd|Hd];
    unfold declares_other_than, declared_depth in Hd;
    unfold metadata_errors, validateHierarchyMetadata;
    destruct (hierarchy_of (n_data n)) as [hierarchy|]; simpl in Hd;
    try contradiction; try reflexivity;
    rewrite parent_check_keeps_depth_errors;
    destruct (h_depth hierarchy) as [d|]; simpl in Hd; try contradiction;
    try reflexivity;
    destruct (Z.eqb_spec d (Z.of_nat (n_depth n))) as [Heq|Hne]; cbn [negb];
    try contradiction; try reflexivity.
Qed.

Lemma depth_errors_of_nodes (nodes : list Node) (k : nat) :
  Forall (fun n => n_depth n = k) nodes ->
  filter (fun f => f_type f = "incorrect_hierarchy_depth")
         (concat (metadata_errors <$> nodes))
  = incorrect_hierarchy_depth <$> filter (declares_other_than (Z.of_nat k)) nodes.
Proof.
  induction 1 as [|n nodes Hn _ IH]; [reflexivity|].
  rewrite fmap_cons. cbn [concat]. rewrite filter_app, IH, depth_errors_of_node, Hn.
  rewrite (filter_cons _ n nodes), !filter_cons, filter_nil.
  destruct (decide (declares_other_than (Z.of_nat k) n)); reflexivity.
Qed.

Lemma shallow_tree_no_excessive tree :
  n_depth tree = 0 -> Forall (fun d => n_depth d = 1) (below tree) ->
  filter (fun n => 10 < n_depth n) (tree :: below tree) = [].
Proof.
  intros Hroot Hbelow. rewrite filter_cons, decide_False by lia.
  induction Hbelow as [|n ns Hn _ IH]; [reflexivity|].
  rewrite filter_cons, decide_False by lia. exact IH.
Qed.

Lemma shallow_tree_depths tree :
  n_depth tree = 0 -> Forall (fun d => n_depth d = 1) (below tree) ->
  depths tree = 0 :: replicate (length (below tree)) 1.
Proof.
  intros Hroot Hbelow. unfold depths. rewrite fmap_cons, Hroot. f_equal.
  induction Hbelow as [|n ns Hn _ IH]; [reflexivity|].
  rewrite fmap_cons, Hn, IH. reflexivity.
Qed.

Lemma occurrences_replicate_ne d x n : x <> d -> occurrences d (replicate n x) = 0.
Proof.
  intros Hne. induction n as [|n IH]; [reflexivity|].
  cbn [replicate]. rewrite occurrences_cons, decide_False by assumption. exact IH.
Qed.

Lemma occurrences_replicate_eq d n : occurrences d (replicate n d) = n.
Proof.
  induction n as [|n IH]; [reflexivity|].
  cbn [replicate]. rewrite occurrences_cons, decide_True by reflexivity. rewrite IH.
  reflexivity.
Qed.

Lemma max_list_replicate_1 n : max_list (replicate (S n) 1) = 1.
Proof.
  induction n as [|n IH]; [reflexivity|].
  change (replicate (S (S n)) 1) with (1 :: replicate (S n) 1).
  change (max_list (1 :: replicate (S n) 1)) with (1 `max` max_list (replicate (S n) 1)).
  rewrite IH. reflexivity.
Qed.

(** The depth warnings of a tree whose nodes below the root all have
    depth 1. *)
Lemma shallow_tree_depth_warnings tree :
  n_depth tree = 0 -> Forall (fun d => n_depth d = 1) (below tree) ->
  depth_warnings tree
  = (if Nat.ltb 10 (length (below tree)) then [flat_hierarchy] else [])
    ++ (if Nat.ltb 3 (length (below tree)) then [unbalanced_hierarchy 1] else []).
Proof.
  intros Hroot Hbelow. unfold depth_warnings, max_depth, level_size.
  rewrite (shallow_tree_depths tree Hroot Hbelow).
  destruct (length (below tree)) as [|n].
  - reflexivity.
  - change (max_list (0 :: replicate (S n) 1)) with (0 `max` max_list (replicate (S n) 1)).
    rewrite max_list_replicate_1. cbn [Nat.max Nat.leb andb seq].
    rewrite filter_cons, filter_nil. cbn [Nat.sub].
    rewrite !occurrences_cons, !occurrences_replicate_eq.
    rewrite (decide_False (P := 0 = 1)) by discriminate.
    rewrite (decide_True (P := 0 = 0)) by reflexivity.
    rewrite occurrences_replicate_ne by discriminate.
    cbn [Nat.add Nat.mul].
    destruct (Nat.ltb_spec 3 (S n)) as [Hlt|Hge].
    + rewrite decide_True by lia. reflexivity.
    + rewrite decide_False by lia. reflexivity.
Qed.

(** X8.  The consistency pass on any tree: the nodes are visited in
    preorder; each node adds the errors of its own metadata check,
    and one [excessive_hierarchy_depth] warning exactly when its
    [depth] field exceeds [maxDepth].  Nothing else is added and
    nothing recorded before is touched. *)
Theorem consistency_pass_in_preorder maxDepth node r :
  validateHierarchyConsistency maxDepth node r
  = mkReport (r_errors r ++ concat (metadata_errors <$> (node :: below node)))
             (r_warnings r
                ++ (excessive_hierarchy_depth <$>
                      filter (fun n => maxDepth < n_depth n) (node :: below node))).
Proof. apply validateHierarchyConsistency_preorder. Qed.

Variable yaml_validateFile : string -> Yaml * Report.

(** X9.  In a tree that [buildHierarchyTree] returns no node is deeper
    than 1, so the check [node.depth > maxDepth] (with [maxDepth = 10])
    never fires: the hierarchy pass never produces an
    [excessive_hierarchy_depth] warning, however long the chains of
    nested documents are. *)
Theorem excessive_depth_never_reported fuel projectPath rootFile r :
  hierarchy_findings yaml_validateFile fuel projectPath rootFile = Some r ->
  Forall (fun f => f_type f <> "excessive_hierarchy_depth") (r_warnings r).
Proof.
  unfold hierarchy_findings.
  destruct (buildHierarchyTree _ _ _ _ _) as [[e|tree]|] eqn:Hb; [| |discriminate].
  - intros [= <-]. constructor.
  - pose proof (built_tree_depth_warnings _ _ _ _ _
                  (r_warnings (validateHierarchyConsistency 10 tree (mkReport [] []))) Hb)
      as Hw.
    destruct (validateDepthLevels tree _) as [lc ws]. simpl in Hw.
    intros [= <-]. cbn [r_warnings]. rewrite Hw.
    rewrite validateHierarchyConsistency_preorder. cbn [r_warnings app].
    apply build_depths in Hb. destruct Hb as [Hroot Hbelow].
    apply Forall_app. split.
    + apply Forall_fmap, Forall_forall. intros n Hn. apply list_elem_of_filter in Hn.
      destruct Hn as [Hdeep Hn]. exfalso.
      apply elem_of_cons in Hn. destruct Hn as [-> | Hn]; [lia|].
      rewrite Forall_forall in Hbelow. rewrite (Hbelow n Hn) in Hdeep. lia.
    + unfold depth_warnings. apply Forall_app. split.
      * destruct (_ && _); repeat constructor. discriminate.
      * apply Forall_fmap, Forall_forall. intros L _. discriminate.
Qed.

(** X10.  The depth errors of the hierarchy pass on the tree it
    builds: one [incorrect_hierarchy_depth] error for the root when
    its document declares a [hierarchy.depth] other than 0, and one
    for every node below the root whose document declares a depth
    other than 1, in preorder; no other node gets one.  The number
    of links between the root and the node plays no part. *)
Theorem built_tree_depth_errors fuel projectPath rootFile tree :
  buildHierarchyTree yaml_validateFile fuel projectPath rootFile ∅ = Some (inr tree) ->
  exists r,
    hierarchy_findings yaml_validateFile fuel projectPath rootFile = Some r /\
    filter (fun f => f_type f = "incorrect_hierarchy_depth") (r_errors r)
    = (incorrect_hierarchy_depth <$> filter (declares_other_than 0) [tree])
      ++ (incorrect_hierarchy_depth <$> filter (declares_other_than 1) (below tree)).
Proof.
  intros Hb. unfold hierarchy_findings. rewrite Hb.
  destruct (validateDepthLevels tree _) as [lc ws].
  eexists. split; [reflexivity|]. cbn [r_errors].
  rewrite validateHierarchyConsistency_preorder. cbn [r_errors app].
  apply build_depths in Hb. destruct Hb as [Hroot Hbelow].
  rewrite fmap_cons. cbn [concat]. rewrite filter_app.
  rewrite depth_errors_of_node, Hroot.
  rewrite (depth_errors_of_nodes (below tree) 1 Hbelow). reflexivity.
Qed.

(** X11.  The warnings of the hierarchy pass depend on one number
    only, how many nodes the built tree has below its root: with more
    than 10 of them a [flat_hierarchy] warning, with more than 3 an
    [unbalanced_hierarchy] warning for level 1, and never anything
    else, whatever the shape of the project. *)
Theorem built_tree_warnings_by_size fuel projectPath rootFile tree :
  buildHierarchyTree yaml_validateFile fuel projectPath rootFile ∅ = Some (inr tree) ->
  exists r,
    hierarchy_findings yaml_validateFile fuel projectPath rootFile = Some r /\
    r_warnings r
    = (if Nat.ltb 10 (length (below tree)) then [flat_hierarchy] else [])
      ++ (if Nat.ltb 3 (length (below tree)) then [unbalanced_hierarchy 1] else []).
Proof.
  intros Hb. unfold hierarchy_findings. rewrite Hb.
  pose proof (built_tree_depth_warnings _ _ _ _ _
                (r_warnings (validateHierarchyConsistency 10 tree (mkReport [] []))) Hb)
    as Hw.
  destruct (validateDepthLevels tree _) as [lc ws]. simpl in Hw.
  eexists. split; [reflexivity|]. cbn [r_warnings]. rewrite Hw.
  rewrite validateHierarchyConsistency_preorder. cbn [r_warnings app].
  apply build_depths in Hb. destruct Hb as [Hroot Hbelow].
  rewrite (shallow_tree_no_excessive tree Hroot Hbelow). cbn [fmap list_fmap app].
  apply shallow_tree_depth_warnings; assumption.
Qed.

End Consistency.

#[local] Existing Instance SimplePosix.ops.

(** A chain of thirteen documents: the root links [d1.lmay], which
    links [d2.lmay], and so on down to [d12.lmay]. *)
Definition chain_doc (i : nat) : string * Yaml :=
  ("/p/d" +:+ pretty i +:+ ".lmay",
   doc_of_structure [("next", link_item ("d" +:+ pretty (S i) +:+ ".lmay"))]).

Definition deep_chain : list (string * Yaml) :=
  ("/p/root.lmay", doc_of_structure [("next", link_item "d1.lmay")])
    :: (chain_doc <$> seq 1 11) ++ [("/p/d12.lmay", leaf_doc)].

(** The tree built for it. *)
Definition deep_tree : Node := Eval vm_compute in
  match buildHierarchyTree (toy_validateFile deep_chain) 14 "/p" "root.lmay" ∅ with
  | Some (inr tree) => tree
  | _ => mkNode "" leaf_doc [] 0 None None
  end.

(** C9.  The depth-distribution warnings on the chain of thirteen
    documents.  In the tree built for it the paths from the root
    down to a node hold 1, 2, ..., 13 documents: there is one node at
    each distance from 0 to 12, the maximum depth is 12 and no level
    is larger than the one above it, so that neither a
    [flat_hierarchy] nor an [unbalanced_hierarchy] warning is due.
    The pass emits both: the builder leaves every document below the
    root with [depth] 1 (the defect of C5), and the analysis sees
    twelve nodes at depth 1 under a tree of maximum depth 1. *)
Theorem deep_chain_called_flat :
  buildHierarchyTree (toy_validateFile deep_chain) 14 "/p" "root.lmay" ∅
  = Some (inr deep_tree) /\
  length <$> branches deep_tree = seq 1 13 /\
  n_depth <$> below deep_tree = replicate 12 1 /\
  hierarchy_findings (toy_validateFile deep_chain) 14 "/p" "root.lmay"
  = Some (mkReport [] [flat_hierarchy; unbalanced_hierarchy 1]).
Proof. vm_compute. repeat split; reflexivity. Qed.

Lemma excessive_depth_never_reported_witness :
  Forall (fun f => f_type f <> "excessive_hierarchy_depth")
         [flat_hierarchy; unbalanced_hierarchy 1].
Proof.
  apply (excessive_depth_never_reported (toy_validateFile deep_chain) 14 "/p" "root.lmay"
           (mkReport [] [flat_hierarchy; unbalanced_hierarchy 1])).
  vm_compute. reflexivity.
Defined.

Lemma built_tree_warnings_by_size_witness :
  exists r,
    hierarchy_findings (toy_validateFile deep_chain) 14 "/p" "root.lmay" = Some r /\
    r_warnings r
    = (if Nat.ltb 10 (length (below deep_tree)) then [flat_hierarchy] else [])
      ++ (if Nat.ltb 3 (length (below deep_tree)) then [unbalanced_hierarchy 1] else []).
Proof.
  apply (built_tree_warnings_by_size (toy_validateFile deep_chain) 14 "/p" "root.lmay").
  vm_compute. reflexivity.
Defined.

(** The tree of [HierarchyFacts.chain]: root -> a -> b, where
    [b.lmay] declares depth 2. *)
Definition chain_tree : Node :=
  mkNode "/p/root.lmay" (doc_of_structure [("a", link_item "a.lmay")])
    [mkNode "/p/a.lmay" (doc_of_structure [("b", link_item "b.lmay")])
       [mkNode "/p/b.lmay" (declares_depth 2) [] 1 (Some "/p/a.lmay") (Some "b")]
       1 (Some "/p/root.lmay") (Some "a")]
    0 None None.

Lemma built_tree_depth_errors_witness :
  exists r,
    hierarchy_findings (toy_validateFile chain) 4 "/p" "root.lmay" = Some r /\
    filter (fun f => f_type f = "incorrect_hierarchy_depth") (r_errors r)
    = (incorrect_hierarchy_depth <$> filter (declares_other_than 0) [chain_tree])
      ++ (incorrect_hierarchy_depth <$> filter (declares_other_than 1) (below chain_tree)).
Proof.
  apply (built_tree_depth_errors (toy_validateFile chain) 4 "/p" "root.lmay" chain_tree).
  vm_compute. reflexivity.
Defined.

End HierarchyReportFacts.

(** ** More on the orchestrator *)

Module SummaryFacts.

Import LMAYValidator.

(** The validators whose reports the orchestrator merges, by the key
    of their summary entry. *)
Definition stages : list string := ["yaml"; "schema"; "references"; "hierarchy"].

(** The sum of one counter over the entries of the stages; a stage
    that did not run counts for nothing. *)
Definition stage_sum (counter : SummaryEntry -> nat) (summary : gmap string SummaryEntry)
    : nat :=
  sum_list ((fun stage => from_option counter 0 (summary !! stage)) <$> stages).

(** The findings are accounted for, stage by stage. *)
Definition accounted (r : Results) : Prop :=
  length (errors r) = stage_sum s_errorCount (summary r) /\
  length (warnings r) = stage_sum s_warningCount (summary r).

Lemma stage_sum_insert_fresh counter summary stage entry :
  stage ∈ stages -> summary !! stage = None ->
  stage_sum counter (<[stage := entry]> summary)
  = stage_sum counter summary + counter entry.
Proof.
  unfold stage_sum, stages. intros Hin Hfresh.
  repeat (apply elem_of_cons in Hin; destruct Hin as [-> | Hin]); [| | | |inversion Hin];
    cbn [fmap list_fmap sum_list sum_list_with];
    rewrite ?lookup_insert_eq, ?lookup_insert_ne by discriminate;
    rewrite Hfresh; cbn [from_option]; unfold id; lia.
Qed.

Lemma stage_sum_insert_total counter summary entry :
  stage_sum counter (<["total" := entry]> summary) = stage_sum counter summary.
Proof.
  unfold stage_sum, stages. cbn [fmap list_fmap].
  rewrite !lookup_insert_ne by discriminate. reflexivity.
Qed.

Lemma mergeResults_accounted report stage r :
  stage ∈ stages -> summary r !! stage = None ->
  accounted r -> accounted (mergeResults report stage r).
Proof.
  intros Hin Hfresh [He Hw]. unfold accounted, mergeResults. cbn [errors warnings summary].
  rewrite !stage_sum_insert_fresh by assumption. rewrite !length_app.
  unfold errorCount, warningCount. cbn [s_errorCount s_warningCount]. lia.
Qed.

Lemma finalizeResults_accounted r : accounted r -> accounted (finalizeResults r).
Proof.
  intros [He Hw]. unfold accounted, finalizeResults. cbn [errors warnings summary].
  rewrite !stage_sum_insert_total. auto.
Qed.

Lemma finalizeResults_total r :
  summary (finalizeResults r) !! "total"
  = Some (mkSummary (length (errors (finalizeResults r)))
                    (length (warnings (finalizeResults r)))
                    (Some (valid (finalizeResults r)))).
Proof. unfold finalizeResults. cbn [errors warnings summary valid]. apply lookup_insert_eq. Qed.

(** Finalizing twice changes nothing. *)
Lemma finalizeResults_idempotent r :
  finalizeResults (finalizeResults r) = finalizeResults r.
Proof.
  unfold finalizeResults. cbn [errors warnings summary]. rewrite insert_insert_eq.
  reflexivity.
Qed.

Section Env.
Context `{PathOps}.
Variable yaml_validateFile : string -> Yaml * Report.
Variable schema_validateLMAY : Yaml -> string -> Exn + Report.
Variable reference_validateProject : string -> string -> option Report.


(** What [validateFile] returns: the findings of the YAML pass, then
    those of the schema pass when the document was truthy. *)
Lemma validateFile_shape filePath res :
  validateFile yaml_validateFile schema_validateLMAY filePath = inr res ->
  exists r, res = finalizeResults r /\ accounted r /\
            summary r !! "references" = None /\ summary r !! "hierarchy" = None /\
            r_errors (snd (yaml_validateFile filePath)) `prefix_of` errors r.
Proof.
  unfold validateFile. destruct (yaml_validateFile filePath) as [parsedContent yamlReport].
  assert (H0 : accounted resetResults) by (split; reflexivity).
  assert (H1 : accounted (mergeResults yamlReport "yaml" resetResults)).
  { apply mergeResults_accounted; [unfold stages; set_solver | reflexivity | exact H0]. }
  destruct (negb (truthy parsedContent)).
  - intros [= <-]. eexists. split; [reflexivity|]. split; [exact H1|].
    cbn [summary mergeResults resetResults errors snd].
    rewrite !lookup_insert_ne by discriminate. rewrite !lookup_empty.
    split; [reflexivity|]. split; [reflexivity|]. reflexivity.
  - destruct (schema_validateLMAY parsedContent filePath) as [e|schemaReport];
      [discriminate|].
    intros [= <-]. eexists. split; [reflexivity|]. split.
    + apply mergeResults_accounted; [unfold stages; set_solver | | exact H1].
      cbn [summary mergeResults resetResults]. rewrite lookup_insert_ne by discriminate.
      apply lookup_empty.
    + cbn [summary mergeResults resetResults errors snd].
      rewrite !lookup_insert_ne by discriminate. rewrite !lookup_empty.
      split; [reflexivity|]. split; [reflexivity|].
      apply prefix_app_r. reflexivity.
Qed.

(** X12.  The summary adds up.  Whatever [validateFile] or
    [validateProject] returns, its [total] entry holds the lengths of
    the error and warning lists and the [valid] flag, and these
    lengths are the sums of the [errorCount] and [warningCount] of
    the stage entries ([yaml], [schema], [references], [hierarchy])
    present in the summary. *)
Theorem summary_adds_up fuel options projectPath rootFile filePath res :
  validateFile yaml_validateFile schema_validateLMAY filePath = inr res
  \/ validateProject yaml_validateFile schema_validateLMAY reference_validateProject
       fuel options projectPath rootFile = Some (inr res) ->
  summary res !! "total"
  = Some (mkSummary (length (errors res)) (length (warnings res)) (Some (valid res))) /\
  length (errors res) = stage_sum s_errorCount (summary res) /\
  length (warnings res) = stage_sum s_warningCount (summary res).
Proof.
  intros [Hf | Hp].
  - apply validateFile_shape in Hf. destruct Hf as (r & -> & Hacc & _).
    split; [apply finalizeResults_total | apply finalizeResults_accounted; exact Hacc].
  - unfold validateProject in Hp.
    destruct (validateFile yaml_validateFile schema_validateLMAY
                (path_join projectPath rootFile)) as [e|rootValid] eqn:Hroot;
      [discriminate|].
    apply validateFile_shape in Hroot.
    destruct Hroot as (r & -> & Hacc & Hrefs & Hhier & _).
    apply finalizeResults_accounted in Hacc.
    assert (Hrefs' : summary (finalizeResults r) !! "references" = None).
    { unfold finalizeResults. cbn [summary]. rewrite lookup_insert_ne by discriminate.
      exact Hrefs. }
    assert (Hhier' : summary (finalizeResults r) !! "hierarchy" = None).
    { unfold finalizeResults. cbn [summary]. rewrite lookup_insert_ne by discriminate.
      exact Hhier. }
    destruct (negb (valid (finalizeResults r)) && negb (strict options)).
    { injection Hp as <-.
      split; [apply finalizeResults_total | apply finalizeResults_accounted; exact Hacc]. }
    set (r0 := finalizeResults r) in *. clearbody r0.
    assert (H1 : exists r1,
               (if checkReferences options
                then referencesReport ← reference_validateProject projectPath rootFile;
                     Some (mergeResults referencesReport "references" r0)
                else Some r0) = Some r1
               /\ accounted r1 /\ summary r1 !! "hierarchy" = None).
    { destruct (checkReferences options).
      - destruct (reference_validateProject projectPath rootFile) as [referencesReport|];
          [|discriminate].
        eexists. split; [reflexivity|]. split.
        + apply mergeResults_accounted; [unfold stages; set_solver | assumption..].
        + cbn [summary mergeResults]. rewrite lookup_insert_ne by discriminate.
          exact Hhier'.
      - eauto. }
    destruct H1 as (r1 & Hr1 & Hacc1 & Hhier1). rewrite Hr1 in Hp. cbn [mbind option_bind] in Hp.
    destruct (checkHierarchy options).
    + unfold validateHierarchy in Hp.
      destruct (hierarchy_findings _ _ _ _) as [found|]; [|discriminate].
      cbn [mbind option_bind] in Hp. injection Hp as <-.
      split; [apply finalizeResults_total|]. apply finalizeResults_accounted.
      destruct Hacc1 as [He Hw]. unfold accounted. cbn [errors warnings summary].
      rewrite !stage_sum_insert_fresh by (assumption || unfold stages; set_solver).
      rewrite !length_app. unfold errorCount, warningCount.
      cbn [s_errorCount s_warningCount]. lia.
    + injection Hp as <-.
      split; [apply finalizeResults_total | apply finalizeResults_accounted; exact Hacc1].
Qed.

(** X13.  An invalid root file decides the verdict.  Without
    [strict], [validateProject] returns the result of [validateFile]
    for the root as it is: the reference and hierarchy validators are
    not consulted (the equation holds even if the reference validator
    would not come back).  With [strict] the other validators run,
    but the errors of the root stay at the head of the error list, so
    the project is invalid all the same. *)
Theorem invalid_root_decides fuel options projectPath rootFile rootValid :
  validateFile yaml_validateFile schema_validateLMAY (path_join projectPath rootFile)
  = inr rootValid ->
  valid rootValid = false ->
  (strict options = false ->
   validateProject yaml_validateFile schema_validateLMAY reference_validateProject
     fuel options projectPath rootFile = Some (inr rootValid)) /\
  (forall res,
      validateProject yaml_validateFile schema_validateLMAY reference_validateProject
        fuel options projectPath rootFile = Some (inr res) ->
      errors rootValid `prefix_of` errors res /\ valid res = false).
Proof.
  intros Hroot Hinvalid.
  pose proof (validateFile_shape _ _ Hroot) as (r & Hr & _).
  split.
  - intros Hstrict. unfold validateProject. rewrite Hroot, Hinvalid, Hstrict. cbn [negb andb].
    rewrite Hr. rewrite finalizeResults_idempotent. reflexivity.
  - intros res Hp.
    assert (Herr : errors rootValid <> []).
    { rewrite Hr in Hinvalid |- *. unfold finalizeResults in *. cbn [valid errors] in *.
      intros Hnil. rewrite Hnil in Hinvalid. discriminate. }
    assert (Hpre : errors rootValid `prefix_of` errors res).
    { unfold validateProject in Hp. rewrite Hroot in Hp.
      destruct (negb (valid rootValid) && negb (strict options)).
      - injection Hp as <-. reflexivity.
      - assert (H1 : forall r1,
                   (if checkReferences options
                    then referencesReport ← reference_validateProject projectPath rootFile;
                         Some (mergeResults referencesReport "references" rootValid)
                    else Some rootValid) = Some r1 ->
                   errors rootValid `prefix_of` errors r1).
        { intros r1. destruct (checkReferences options).
          - destruct (reference_validateProject projectPath rootFile); [|discriminate].
            intros [= <-]. apply prefix_app_r. reflexivity.
          - intros [= <-]. reflexivity. }
        destruct (if checkReferences options then _ else Some rootValid) as [r1|];
          [|discriminate].
        specialize (H1 r1 eq_refl). cbn [mbind option_bind] in Hp.
        destruct (checkHierarchy options).
        + unfold validateHierarchy in Hp.
          destruct (hierarchy_findings _ _ _ _) as [found|]; [|discriminate].
          cbn [mbind option_bind] in Hp. injection Hp as <-.
          cbn [errors finalizeResults]. etrans; [exact H1|]. apply prefix_app_r. reflexivity.
        + injection Hp as <-. exact H1. }
    split; [exact Hpre|].
    pose proof (OrchestratorFacts.validateProject_finalized _ _ _ _ _ _ _ _ Hp) as (r' & Hr').
    rewrite Hr' in Hpre |- *. unfold finalizeResults in *. cbn [valid errors] in *.
    destruct Hpre as [k Hk]. rewrite Hk.
    destruct (errors rootValid) as [|e es]; [contradiction | reflexivity].
Qed.

(** X14.  A root file that parses to a falsy value is valid as a
    file and invalid as a project.  When the YAML pass returns a
    falsy document without error, [validateFile] reports the root
    valid; [validateProject] then goes on, and its hierarchy pass
    cannot build the tree: the result carries a
    [hierarchy_build_error] for the root and is invalid. *)
Theorem falsy_root_file_vs_project fuel options projectPath rootFile :
  let rootPath := path_join projectPath rootFile in
  truthy (fst (yaml_validateFile rootPath)) = false ->
  r_errors (snd (yaml_validateFile rootPath)) = [] ->
  checkHierarchy options = true ->
  (checkReferences options = true ->
   is_Some (reference_validateProject projectPath rootFile)) ->
  (exists rootValid,
      validateFile yaml_validateFile schema_validateLMAY rootPath = inr rootValid
      /\ valid rootValid = true) /\
  exists res,
    validateProject yaml_validateFile schema_validateLMAY reference_validateProject
      (S fuel) options projectPath rootFile = Some (inr res) /\
    valid res = false /\
    (mkFinding "hierarchy_build_error" (Some rootPath) None None None
               (Some (CannotParseError rootPath)) ∈ errors res).
Proof.
  intros rootPath Hfalsy Hnoerr Hhier Hrefs.
  assert (Hfile : validateFile yaml_validateFile schema_validateLMAY rootPath
                  = inr (finalizeResults
                           (mergeResults (snd (yaml_validateFile rootPath)) "yaml"
                                         resetResults))).
  { unfold validateFile. destruct (yaml_validateFile rootPath) as [parsed report].
    cbn [fst snd] in *. rewrite Hfalsy. reflexivity. }
  assert (Hvalid : valid (finalizeResults
                            (mergeResults (snd (yaml_validateFile rootPath)) "yaml"
                                          resetResults)) = true).
  { unfold finalizeResults, mergeResults. cbn [valid errors resetResults app].
    rewrite Hnoerr. reflexivity. }
  split; [eauto|].
  unfold validateProject. fold rootPath. rewrite Hfile, Hvalid. cbn [negb andb].
  set (rootValid := finalizeResults _) in *.
  assert (H1 : exists r1,
             (if checkReferences options
              then referencesReport ← reference_validateProject projectPath rootFile;
                   Some (mergeResults referencesReport "references" rootValid)
              else Some rootValid) = Some r1).
  { destruct (checkReferences options); [|eauto].
    destruct (Hrefs eq_refl) as [referencesReport ->]. eauto. }
  destruct H1 as [r1 ->]. cbn [mbind option_bind]. rewrite Hhier.
  assert (Hfound : hierarchy_findings yaml_validateFile (S fuel) projectPath rootFile
                   = Some (mkReport
                             [mkFinding "hierarchy_build_error" (Some rootPath) None None
                                        None (Some (CannotParseError rootPath))]
                             [])).
  { unfold hierarchy_findings. rewrite HierarchyFacts.build_step. fold rootPath.
    cbn zeta. rewrite bool_decide_eq_false_2 by set_solver.
    rewrite Hfalsy. reflexivity. }
  unfold validateHierarchy. rewrite Hfound. cbn [mbind option_bind].
  eexists. split; [reflexivity|].
  unfold finalizeResults. cbn [valid errors r_errors]. split.
  - rewrite length_app. cbn [length]. rewrite Nat.add_1_r. reflexivity.
  - apply elem_of_app. right. left.
Qed.

End Env.

#[local] Existing Instance SimplePosix.ops.

(** A toy run: the documents of [HierarchyFacts.chain], a schema
    validator that misses [lmay_version] in every document, and a
    reference validator with one warning. *)
Definition toy_schema (lmayData : Yaml) (filePath : string) : Exn + Report :=
  inr (mkReport [finding_at "missing_lmay_version" filePath "/lmay_version"] []).

Definition toy_references (projectPath rootFile : string) : option Report :=
  Some (mkReport [] [finding "orphan_lmay_file" "/p/c.lmay"]).

Definition toy_root : Results := Eval vm_compute in
  match validateFile (HierarchyFacts.toy_validateFile HierarchyFacts.chain) toy_schema
                     "/p/root.lmay" with
  | inr res => res
  | inl _ => resetResults
  end.

Definition toy_strict_run : Results := Eval vm_compute in
  match validateProject (HierarchyFacts.toy_validateFile HierarchyFacts.chain) toy_schema
                        toy_references 4 (mkOptions true true true) "/p" "root.lmay" with
  | Some (inr res) => res
  | _ => resetResults
  end.

Lemma summary_adds_up_witness :
  summary toy_strict_run !! "total"
  = Some (mkSummary (length (errors toy_strict_run)) (length (warnings toy_strict_run))
                    (Some (valid toy_strict_run))) /\
  length (errors toy_strict_run) = stage_sum s_errorCount (summary toy_strict_run) /\
  length (warnings toy_strict_run) = stage_sum s_warningCount (summary toy_strict_run).
Proof.
  apply (summary_adds_up (HierarchyFacts.toy_validateFile HierarchyFacts.chain) toy_schema
           toy_references 4 (mkOptions true true true) "/p" "root.lmay" "/p/root.lmay").
  right. vm_compute. reflexivity.
Defined.

Lemma invalid_root_decides_witness :
  (strict (mkOptions false true true) = false ->
   validateProject (HierarchyFacts.toy_validateFile HierarchyFacts.chain) toy_schema
                   toy_references 4 (mkOptions false true true) "/p" "root.lmay"
   = Some (inr toy_root)) /\
  (forall res,
      validateProject (HierarchyFacts.toy_validateFile HierarchyFacts.chain) toy_schema
                      toy_references 4 (mkOptions false true true) "/p" "root.lmay"
      = Some (inr res) ->
      errors toy_root `prefix_of` errors res /\ valid res = false).
Proof.
  apply (invalid_root_decides (HierarchyFacts.toy_validateFile HierarchyFacts.chain)
           toy_schema toy_references 4 (mkOptions false true true) "/p" "root.lmay"
           toy_root).
  - vm_compute. reflexivity.
  - reflexivity.
Defined.

(** The YAML pass of a file that holds [null]. *)
Definition null_validateFile (filePath : string) : Yaml * Report :=
  (YScalar SNull, mkReport [] []).

Lemma falsy_root_file_vs_project_witness :
  (exists rootValid,
      validateFile null_validateFile toy_schema (path_join "/p" "root.lmay")
      = inr rootValid /\ valid rootValid = true) /\
  exists res,
    validateProject null_validateFile toy_schema toy_references 1
                    (mkOptions false true true) "/p" "root.lmay" = Some (inr res) /\
    valid res = false /\
    (mkFinding "hierarchy_build_error" (Some (path_join "/p" "root.lmay")) None None None
               (Some (CannotParseError (path_join "/p" "root.lmay"))) ∈ errors res).
Proof.
  apply (falsy_root_file_vs_project null_validateFile toy_schema toy_references 0
           (mkOptions false true true) "/p" "root.lmay").
  - reflexivity.
  - reflexivity.
  - reflexivity.
  - intros _. eexists. reflexivity.
Defined.

End SummaryFacts.

(** ** The semantic validation *)

Module SemanticFacts.

Import SchemaValidator.
Import SchemaSemantics.

Section WithPath.
Context `{PathOps}.
Variable toLowerCase : string -> string.

Definition schema_finding (filePath : string) (error : SchemaError) : Finding :=
  finding_at (error_type (keyword error)) filePath (instancePath error).

Lemma processSchemaErrors_spec schemaErrors filePath : forall r,
  processSchemaErrors schemaErrors filePath r
  = mkReport (r_errors r ++ (schema_finding filePath <$> schemaErrors)) (r_warnings r).
Proof.
  unfold processSchemaErrors.
  induction schemaErrors as [|error rest IH]; intros r; simpl.
  - rewrite app_nil_r. destruct r; reflexivity.
  - rewrite IH. simpl. rewrite <- app_assoc. reflexivity.
Qed.

Lemma validateLanguageFrameworkConsistency_errors languages frameworks filePath :
  forall r r',
    validateLanguageFrameworkConsistency toLowerCase languages frameworks filePath r
    = inr r' ->
    r_errors r' = r_errors r.
Proof.
  induction frameworks as [|framework rest IH]; intros r r'; simpl.
  - intros [= <-]. reflexivity.
  - destruct (frameworkLanguageMap (toLowerCase framework)) as [expected| |];
      [|discriminate|apply IH].
    intros Hr. apply IH in Hr. rewrite Hr. destruct (negb _); reflexivity.
Qed.

Lemma validateProjectConsistency_errors sections filePath r r' :
  validateProjectConsistency toLowerCase sections filePath r = inr r' ->
  r_errors r' = r_errors r.
Proof.
  unfold validateProjectConsistency.
  destruct (project sections) as [p|]; [|intros [= <-]; reflexivity].
  set (r1 := if _ && _ then _ else r).
  assert (H1 : r_errors r1 = r_errors r) by (unfold r1; destruct (_ && _); reflexivity).
  clearbody r1.
  destruct (match p_languages p with Some _ => _ | None => inr r1 end)
    as [e|r2] eqn:E; [discriminate|].
  assert (H2 : r_errors r2 = r_errors r1).
  { destruct (p_languages p) as [languages|]; [|injection E as <-; reflexivity].
    destruct (p_frameworks p) as [frameworks|]; [|injection E as <-; reflexivity].
    eapply validateLanguageFrameworkConsistency_errors. exact E. }
  intros [= <-]. destruct (_ && _); simpl; congruence.
Qed.

Lemma validateArchitecture_errors sections lmayData filePath r :
  r_errors (validateArchitecture sections lmayData filePath r) = r_errors r.
Proof.
  unfold validateArchitecture.
  destruct (entry_points_of lmayData) as [entry_points|]; [|reflexivity].
  destruct (Nat.eqb (length entry_points) 0); destruct (_ && _); reflexivity.
Qed.

Lemma each_dependency_errors {A} property
    (check : A -> nat -> string -> Report -> Report) deps filePath :
  (forall dep i r, r_errors (check dep i filePath r) = r_errors r) ->
  forall i r r',
    each_dependency property check i deps filePath r = inr r' ->
    r_errors r' = r_errors r.
Proof.
  intros Hcheck. induction deps as [|[dep|] rest IH]; intros i r r';
    cbn [each_dependency].
  - intros [= <-]. reflexivity.
  - intros He. apply IH in He. rewrite He. apply Hcheck.
  - discriminate.
Qed.

(** A dependency loop throws exactly on a [null] element. *)
Lemma each_dependency_throws {A} property
    (check : A -> nat -> string -> Report -> Report) deps filePath :
  forall i r e,
    each_dependency property check i deps filePath r = inl e
    <-> e = null_read property /\ None ∈ deps.
Proof.
  induction deps as [|[dep|] rest IH]; intros i r e; cbn [each_dependency].
  - split; [discriminate | intros [_ Hn]; inversion Hn].
  - rewrite IH. split.
    + intros [-> Hn]. split; [reflexivity | right; exact Hn].
    + intros [-> Hn]. split; [reflexivity|].
      apply elem_of_cons in Hn. destruct Hn as [[=] | Hn]. exact Hn.
  - split.
    + intros [= <-]. split; [reflexivity | left].
    + intros [-> _]. reflexivity.
Qed.

Lemma validateExternalDependency_errors dep i filePath r :
  r_errors (validateExternalDependency dep i filePath r) = r_errors r.
Proof. unfold validateExternalDependency. destruct (_ && _); reflexivity. Qed.

Lemma validateInternalDependency_errors dep i filePath r :
  r_errors (validateInternalDependency dep i filePath r) = r_errors r.
Proof. unfold validateInternalDependency. destruct (_ && _); reflexivity. Qed.

Lemma validateDependencies_errors sections lmayData filePath r r' :
  validateDependencies sections lmayData filePath r = inr r' ->
  r_errors r' = r_errors r.
Proof.
  unfold validateDependencies.
  destruct (match external_dependencies sections with Some _ => _ | None => inr r end)
    as [e|r1] eqn:E1; [discriminate|].
  assert (H1 : r_errors r1 = r_errors r).
  { destruct (external_dependencies sections) as [external|];
      [|injection E1 as <-; reflexivity].
    eapply each_dependency_errors; [|exact E1].
    intros; apply validateExternalDependency_errors. }
  destruct (internal_dependencies_of lmayData) as [internal|];
    [|intros [= <-]; exact H1].
  intros E2. rewrite <- H1. eapply each_dependency_errors; [|exact E2].
  intros; apply validateInternalDependency_errors.
Qed.

(** X15.  Where the errors of the schema validator come from.  When
    [validateLMAY] returns, its errors are, in this order: one per
    error of the JSON schema, typed after the schema keyword; one
    [missing_lmay_version] when [lmay_version] is missing or falsy;
    and the [invalid_file_count] errors of the structure entries.
    Every other semantic check (project, architecture, common
    patterns, dependencies) can only warn. *)
Theorem schema_errors_origin schemaErrors sections lmayData filePath r :
  validateLMAY toLowerCase schemaErrors sections lmayData filePath = inr r ->
  r_errors r
  = (schema_finding filePath <$> default [] schemaErrors)
    ++ (if scalar_truthy (lmay_version sections) then []
        else [finding_at "missing_lmay_version" filePath "/lmay_version"])
    ++ concat (SchemaFacts.file_count_errors filePath
                 <$> default [] (structure_of lmayData)).
Proof.
  unfold validateLMAY, performSemanticValidation.
  set (r0 := match schemaErrors with Some _ => _ | None => mkReport [] [] end).
  assert (H0 : r_errors r0 = schema_finding filePath <$> default [] schemaErrors).
  { unfold r0. destruct schemaErrors as [errors|]; [|reflexivity].
    rewrite processSchemaErrors_spec. reflexivity. }
  clearbody r0.
  destruct (validateProjectConsistency _ _ _ _) as [e|r2] eqn:E2; [discriminate|].
  apply validateProjectConsistency_errors in E2.
  destruct (validateStructure _ _ _ _) as [e|r4] eqn:E4; [discriminate|].
  apply SchemaFacts.validateStructure_errors in E4.
  intros E5. apply validateDependencies_errors in E5.
  rewrite E5, E4, validateArchitecture_errors, E2.
  unfold validateLMAYVersion.
  destruct (scalar_truthy (lmay_version sections)); cbn [negb].
  - destruct (negb _); cbn [r_errors push_warning]; rewrite H0; reflexivity.
  - cbn [r_errors push_error]. rewrite H0, <- app_assoc. reflexivity.
Qed.

(** The framework names that reach a property inherited from
    [Object.prototype]. *)
Definition inherited (framework : string) : Prop :=
  frameworkLanguageMap (toLowerCase framework) = Inherited.

Lemma validateLanguageFrameworkConsistency_throws languages frameworks filePath :
  forall r e,
    validateLanguageFrameworkConsistency toLowerCase languages frameworks filePath r
    = inl e
    <-> e = TypeError "expectedLanguages.some is not a function"
        /\ Exists inherited frameworks.
Proof.
  unfold inherited.
  induction frameworks as [|framework rest IH]; intros r e; simpl.
  - split; [discriminate | intros [_ Hex]; inversion Hex].
  - destruct (frameworkLanguageMap (toLowerCase framework)) as [expected| |] eqn:El.
    + rewrite IH, Exists_cons. split; [intros [-> Hr]; auto|].
      intros [-> [Hf | Hr]]; [rewrite El in Hf; discriminate | auto].
    + split.
      * intros [= <-]. split; [reflexivity | left; exact El].
      * intros [-> _]. reflexivity.
    + rewrite IH, Exists_cons. split; [intros [-> Hr]; auto|].
      intros [-> [Hf | Hr]]; [rewrite El in Hf; discriminate | auto].
Qed.

(** The document has a [project] with both [languages] and
    [frameworks], and one of the frameworks is an inherited name. *)
Definition inherited_framework (sections : Sections) : Prop :=
  exists p languages frameworks,
    project sections = Some p /\ p_languages p = Some languages
    /\ p_frameworks p = Some frameworks /\ Exists inherited frameworks.

(** An entry of the [structure] mapping is [null]. *)
Definition null_structure_entry (lmayData : Yaml) : Prop :=
  exists items name, structure_of lmayData = Some items /\ (name, None) ∈ items.

(** An element of [dependencies.external] is [null]. *)
Definition null_external (sections : Sections) : Prop :=
  exists deps, external_dependencies sections = Some deps /\ None ∈ deps.

(** An element of [dependencies.internal] is [null]. *)
Definition null_internal (lmayData : Yaml) : Prop :=
  exists deps, internal_dependencies_of lmayData = Some deps /\ None ∈ deps.

Lemma validateProjectConsistency_throws sections filePath r e :
  validateProjectConsistency toLowerCase sections filePath r = inl e
  <-> e = TypeError "expectedLanguages.some is not a function"
      /\ inherited_framework sections.
Proof.
  unfold validateProjectConsistency, inherited_framework.
  destruct (project sections) as [p|].
  2:{ split; [discriminate|]. intros [_ (p & ? & ? & Hp & _)]. discriminate. }
  set (r2 := if _ && _ then _ else r). clearbody r2.
  destruct (p_languages p) as [languages|] eqn:El.
  2:{ split; [discriminate|]. intros [_ (p' & ? & ? & [= <-] & Hl & _)]. congruence. }
  destruct (p_frameworks p) as [frameworks|] eqn:Ef.
  2:{ split; [discriminate|]. intros [_ (p' & ? & ? & [= <-] & _ & Hf & _)]. congruence. }
  destruct (validateLanguageFrameworkConsistency _ _ _ _ _) as [e'|r3] eqn:E.
  - apply validateLanguageFrameworkConsistency_throws in E. destruct E as [-> Hex].
    split.
    + intros [= <-]. split; [reflexivity|]. eauto 10.
    + intros [-> _]. reflexivity.
  - split; [discriminate|].
    intros [-> (p' & languages' & frameworks' & [= <-] & Hl & Hf & Hex)].
    rewrite El in Hl. rewrite Ef in Hf. injection Hl as <-. injection Hf as <-.
    assert (Hthrow : validateLanguageFrameworkConsistency toLowerCase languages frameworks
                       filePath r2
                     = inl (TypeError "expectedLanguages.some is not a function")).
    { apply validateLanguageFrameworkConsistency_throws. auto. }
    congruence.
Qed.

Lemma validateDependencies_throws sections lmayData filePath r e :
  validateDependencies sections lmayData filePath r = inl e
  <-> (e = null_read "version" /\ null_external sections)
      \/ (~ null_external sections /\ e = null_read "path" /\ null_internal lmayData).
Proof.
  unfold validateDependencies, null_external, null_internal.
  destruct (external_dependencies sections) as [external|].
  - destruct (each_dependency "version" _ 0 external filePath r) as [e1|r1] eqn:E1.
    + apply each_dependency_throws in E1. destruct E1 as [-> Hn]. split.
      * intros [= <-]. left. eauto.
      * intros [[-> _] | [Hno _]]; [reflexivity|]. exfalso. apply Hno. eauto.
    + assert (Hno : None ∉ external).
      { intros Hn.
        assert (Ht : each_dependency "version" validateExternalDependency 0 external
                       filePath r = inl (null_read "version"))
          by (apply each_dependency_throws; auto).
        congruence. }
      destruct (internal_dependencies_of lmayData) as [internal|].
      * rewrite each_dependency_throws. split.
        -- intros [-> Hn]. right. split; [|eauto]. intros (d & [= <-] & Hd). auto.
        -- intros [[_ (d & [= <-] & Hd)] | (_ & -> & d & [= <-] & Hd)];
             [contradiction | auto].
      * split; [discriminate|].
        intros [[_ (d & [= <-] & Hd)] | (_ & _ & d & Hd & _)];
          [contradiction | discriminate].
  - destruct (internal_dependencies_of lmayData) as [internal|].
    + rewrite each_dependency_throws. split.
      * intros [-> Hn]. right. split; [|eauto]. intros (d & Hd & _). discriminate.
      * intros [[_ (d & Hd & _)] | (_ & -> & d & [= <-] & Hd)];
          [discriminate | auto].
    + split; [discriminate|].
      intros [[_ (d & Hd & _)] | (_ & _ & d & Hd & _)]; discriminate.
Qed.

(** X16.  When the schema validator throws, and what.  On a document
    whose sections have the types of the schema, up to [null] in
    place of a structure entry or of a dependency, [validateLMAY]
    throws exactly in these cases, the first that applies deciding
    the exception: the [project] has both [languages] and
    [frameworks] and some framework name, lower-cased, is a property
    that the object literal [frameworkLanguageMap] inherits from
    [Object.prototype] (such as [constructor] or [__proto__]), whose
    value is truthy and has no [some] method; an entry of [structure]
    is [null]; an element of [dependencies.external] is [null]; an
    element of [dependencies.internal] is [null]. *)
Theorem schema_validator_throws schemaErrors sections lmayData filePath e :
  validateLMAY toLowerCase schemaErrors sections lmayData filePath = inl e
  <-> (e = TypeError "expectedLanguages.some is not a function"
       /\ inherited_framework sections)
      \/ (~ inherited_framework sections
          /\ ((e = null_read "path" /\ null_structure_entry lmayData)
              \/ (~ null_structure_entry lmayData
                  /\ ((e = null_read "version" /\ null_external sections)
                      \/ (~ null_external sections
                          /\ e = null_read "path" /\ null_internal lmayData))))).
Proof.
  unfold validateLMAY, performSemanticValidation.
  set (r1 := validateLMAYVersion _ _ _). clearbody r1.
  destruct (validateProjectConsistency toLowerCase sections filePath r1)
    as [e2|r2] eqn:E2.
  { apply validateProjectConsistency_throws in E2. destruct E2 as [-> Hinh]. split.
    - intros [= <-]. left. auto.
    - intros [[-> _] | [Hno _]]; [reflexivity | contradiction]. }
  assert (Hno : ~ inherited_framework sections).
  { intros Hinh.
    assert (Ht : validateProjectConsistency toLowerCase sections filePath r1
                 = inl (TypeError "expectedLanguages.some is not a function"))
      by (apply validateProjectConsistency_throws; auto).
    congruence. }
  set (r3 := validateArchitecture _ _ _ _). clearbody r3.
  destruct (validateStructure toLowerCase lmayData filePath r3) as [e4|r4] eqn:E4.
  { apply SchemaFacts.validateStructure_throws in E4. destruct E4 as [-> Hnull]. split.
    - intros [= <-]. right. split; [exact Hno|]. left. auto.
    - intros [[_ Hinh] | [_ [[-> _] | [Hnn _]]]];
        [contradiction | reflexivity | contradiction]. }
  assert (Hnn : ~ null_structure_entry lmayData).
  { intros Hnull.
    assert (Ht : validateStructure toLowerCase lmayData filePath r3
                 = inl (null_read "path"))
      by (apply SchemaFacts.validateStructure_throws; auto).
    congruence. }
  rewrite validateDependencies_throws. split.
  - intros Hd. right. split; [exact Hno|]. right. split; [exact Hnn | exact Hd].
  - intros [[_ Hinh] | [_ [[_ Hnull] | [_ Hd]]]];
      [contradiction | contradiction | exact Hd].
Qed.

End WithPath.

#[local] Existing Instance SimplePosix.ops.

(** A document without [lmay_version], with one file entry that
    declares two files, for which the JSON schema reports a missing
    required property. *)
Definition two_files : Yaml :=
  doc_of_structure
    [("readme", Some (mkItem (Some "README.md") (Some "file") (SNum 2) None None))].

Definition no_sections : Sections := mkSections SUndefined None None None.

Lemma schema_errors_origin_witness :
  r_errors (mkReport [finding_at "missing_required_property" "/p/root.lmay" "";
                      finding_at "missing_lmay_version" "/p/root.lmay" "/lmay_version";
                      finding_at "invalid_file_count" "/p/root.lmay"
                                 "/structure/readme/file_count"] [])
  = (schema_finding "/p/root.lmay" <$> default [] (Some [mkSchemaError "required" ""]))
    ++ (if scalar_truthy (lmay_version no_sections) then []
        else [finding_at "missing_lmay_version" "/p/root.lmay" "/lmay_version"])
    ++ concat (SchemaFacts.file_count_errors "/p/root.lmay"
                 <$> default [] (structure_of two_files)).
Proof.
  apply (schema_errors_origin id (Some [mkSchemaError "required" ""]) no_sections two_files
           "/p/root.lmay").
  vm_compute. reflexivity.
Defined.

(** A project that lists a framework called [constructor]. *)
Example framework_named_constructor :
  validateLMAY id None
    (mkSections (SStr "1.0")
                (Some (mkProject (Some "demo") (Some ["javascript"])
                                 (Some ["react"; "constructor"]) None))
                None None)
    leaf_doc "/p/root.lmay"
  = inl (TypeError "expectedLanguages.some is not a function").
Proof. vm_compute. reflexivity. Qed.

(** A document whose [structure] has the entry [src:] without a
    value. *)
Example structure_entry_without_value :
  validateLMAY id None (mkSections (SStr "1.0") None None None)
               (doc_of_structure [("src", None)]) "/p/root.lmay"
  = inl (TypeError "Cannot read properties of null (reading 'path')").
Proof. vm_compute. reflexivity. Qed.

End SemanticFacts.

(** ** The line checks and the automatic fixes *)

Module LintFacts.

Import YAMLChecks.
Import AutoFix.

Lemma append_cons c s t : String c s +:+ t = String c (s +:+ t).
Proof. reflexivity. Qed.


Lemma append_nil_r s : s +:+ "" = s.
Proof. induction s as [|c s IH]; [reflexivity|]. rewrite append_cons, IH. reflexivity. Qed.


(** *** Lines *)




(** *** Characters *)


Lemma includes_char_nil c : includes_char "" c = false.
Proof. reflexivity. Qed.




(** *** Trailing blanks *)














(** *** Which check pushes which warning *)












(** The types [fixWarning] acts on. *)
Definition fixable (warning : Finding) : bool :=
  String.eqb (f_type warning) "trailing_whitespace"
  || String.eqb (f_type warning) "inconsistent_indentation".

Lemma fix_file_frame (rewrite : string -> string) disk filePath q :
  filePath <> Some q -> snd (fix_file rewrite disk filePath) !! q = disk !! q.
Proof.
  intros Hq. unfold fix_file. destruct filePath as [p|]; [|reflexivity].
  destruct (readFileSync disk p) as [content|]; [|reflexivity].
  destruct (negb _); [|reflexivity]. cbn [snd].
  apply lookup_insert_ne. congruence.
Qed.

(** X19.  [attemptAutoFix] only touches the files named by warnings
    of type [trailing_whitespace] or [inconsistent_indentation]:
    every other path of the disk reads as before, and the number of
    fixes counted is at most the number of such warnings. *)
Theorem attemptAutoFix_frame warnings disk fixedCount :
  let '(fixedCount', disk') := attemptAutoFix warnings disk fixedCount in
  fixedCount <= fixedCount' <= fixedCount + length (filter (fun w => fixable w = true) warnings)
  /\ forall q,
       (forall w, w ∈ warnings -> fixable w = true -> f_file w <> Some q) ->
       disk' !! q = disk !! q.
Proof.
  revert disk fixedCount. induction warnings as [|w rest IH]; intros disk fixedCount.
  - cbn. split; [lia | reflexivity].
  - cbn [attemptAutoFix]. rewrite filter_cons.
    destruct (fixWarning disk w) as [fixed disk1] eqn:Hfix.
    specialize (IH disk1 (if fixed then fixedCount + 1 else fixedCount)).
    destruct (attemptAutoFix rest disk1 _) as [fixedCount' disk'].
    destruct IH as [Hcount Hframe].
    assert (Hw : (fixed = true -> fixable w = true) /\
                 forall q, (fixable w = true -> f_file w <> Some q) ->
                           disk1 !! q = disk !! q).
    { unfold fixWarning, fixable in *.
      destruct (String.eqb (f_type w) "trailing_whitespace").
      - split; [reflexivity|]. intros q Hq.
        change disk1 with (snd (fixed, disk1)). rewrite <- Hfix.
        apply fix_file_frame. apply Hq. reflexivity.
      - destruct (String.eqb (f_type w) "inconsistent_indentation").
        + split; [reflexivity|]. intros q Hq.
          change disk1 with (snd (fixed, disk1)). rewrite <- Hfix.
          apply fix_file_frame. apply Hq. reflexivity.
        + injection Hfix as <- <-. split; [discriminate | reflexivity]. }
    destruct Hw as [Hfixable Hdisk1]. split.
    + destruct (decide (fixable w = true)) as [Hy|Hn]; cbn [length].
      * destruct fixed; lia.
      * destruct fixed; [exfalso; apply Hn, Hfixable; reflexivity | lia].
    + intros q Hq. rewrite Hframe.
      * apply Hdisk1. intros Hfw. apply Hq; [left | exact Hfw].
      * intros w' Hw'. apply Hq. right. exact Hw'.
Qed.

(** *** The indentation check *)

Definition indent_of (line : string) : nat :=
  String.length line - String.length (trimStart line).

(** The lines the check looks at: neither blank nor a comment, and
    indented. *)
Definition indented (line : string) : bool :=
  negb (blank_or_comment (trim line)) && Nat.ltb 0 (indent_of line).

(** Their line numbers and indents, from index [i]. *)
Fixpoint indented_lines (i : nat) (lines : list string) : list (nat * nat) :=
  match lines with
  | [] => []
  | line :: rest =>
      (if indented line then [(i + 1, indent_of line)] else [])
      ++ indented_lines (S i) rest
  end.

Definition inconsistent_indentation (filePath : string) (expected : nat)
    (entry : nat * nat) : list Warning :=
  if negb (Nat.eqb (snd entry mod expected) 0)
  then [mkWarning "inconsistent_indentation" filePath (Some (fst entry)) (Some 1)]
  else [].

Lemma checkIndentation_from_spec filePath lines : forall i expectedIndent warnings,
  checkIndentation_from filePath i lines expectedIndent warnings
  = match expectedIndent with
    | Some expected =>
        (Some expected,
         warnings ++ concat (inconsistent_indentation filePath expected
                               <$> indented_lines i lines))
    | None =>
        match indented_lines i lines with
        | [] => (None, warnings)
        | (_, expected) :: rest =>
            (Some expected,
             warnings ++ concat (inconsistent_indentation filePath expected <$> rest))
        end
    end.
Proof.
  induction lines as [|line rest IH]; intros i expectedIndent warnings.
  - destruct expectedIndent; cbn; rewrite ?app_nil_r; reflexivity.
  - cbn [checkIndentation_from indented_lines]. unfold indented. fold (indent_of line).
    destruct (blank_or_comment (trim line)); cbn [negb andb app]; [apply IH|].
    destruct (Nat.ltb 0 (indent_of line)); cbn [app]; [|apply IH].
    destruct expectedIndent as [expected|].
    + rewrite fmap_cons. cbn [concat].
      set (w := inconsistent_indentation filePath expected (i + 1, indent_of line)).
      unfold inconsistent_indentation in w. cbn [fst snd] in w. subst w.
      destruct (negb (Nat.eqb (indent_of line mod expected) 0)); rewrite IH.
      * rewrite <- app_assoc. reflexivity.
      * reflexivity.
    + rewrite IH. reflexivity.
Qed.

Lemma indented_lines_positive lines : forall i,
  Forall (fun entry => 0 < snd entry) (indented_lines i lines).
Proof.
  induction lines as [|line rest IH]; intros i; [constructor|].
  cbn [indented_lines]. apply Forall_app. split; [|apply IH].
  unfold indented. destruct (negb _); [|constructor].
  destruct (Nat.ltb_spec 0 (indent_of line)); repeat constructor. assumption.
Qed.

(** X20.  What [checkIndentation] pushes.  The indentation unit is
    the indent of the first line that is indented (blank lines and
    comments aside); every later indented line whose indent is not a
    multiple of that unit gets one [inconsistent_indentation] warning
    with its line number, in order; and one
    [non_standard_indentation] warning closes the list when the unit
    is not 2.  A file without an indented line gets nothing. *)
Theorem checkIndentation_spec lines filePath warnings :
  checkIndentation lines filePath warnings
  = warnings
    ++ match indented_lines 0 lines with
       | [] => []
       | (_, expected) :: rest =>
           concat (inconsistent_indentation filePath expected <$> rest)
           ++ (if Nat.eqb expected 2 then []
               else [mkWarning "non_standard_indentation" filePath None None])
       end.
Proof.
  unfold checkIndentation. rewrite checkIndentation_from_spec.
  pose proof (indented_lines_positive lines 0) as Hpos.
  destruct (indented_lines 0 lines) as [|[n expected] rest].
  - rewrite app_nil_r. reflexivity.
  - apply Forall_cons in Hpos. destruct Hpos as [Hpos _]. cbn [snd] in Hpos.
    replace (Nat.eqb expected 0) with false by (symmetry; apply Nat.eqb_neq; lia).
    cbn [negb andb]. destruct (Nat.eqb expected 2); cbn [negb].
    + rewrite app_nil_r. reflexivity.
    + rewrite <- app_assoc. reflexivity.
Qed.

(** A file with two spaces at the end of its first line and a tab
    in its second. *)
Definition untidy : string :=
  "name: demo  " +:+ String newline ("tags:" +:+ String tab "x").




(** What the checks say of the file, before and after the two
    fixes. *)
Example untidy_lint :
  f_type <$> lint untidy "/p/root.lmay"
  = ["trailing_whitespace"; "tab_character"] /\
  f_type <$> lint (expand_tabs (strip_trailing "" untidy)) "/p/root.lmay" = [].
Proof. vm_compute. split; reflexivity. Qed.

End LintFacts.

(** ** Batch validation *)

Module BatchFacts.

Import LMAYValidator.
Import Batch.

Section Env.
Context `{PathOps}.
Variable validateFile : string -> Exn + Results.
Variable cwd : string.
Variable toLowerCase : string -> string.
Variable json_stringify : ReportObject -> string.
Variable text_of : Results -> string.
Variable sarif_of : Results -> string.

(** The validator accepts the file. *)
Definition accepted (file : string) : Prop :=
  exists result, validateFile (path_resolve cwd file) = inr result /\ valid result = true.

Lemma validate_each_count files options : forall results successCount,
  let '(results', successCount') :=
    validate_each validateFile cwd files options results successCount in
  successCount' <= successCount + length files /\
  (successCount' = successCount + length files <-> Forall accepted files) /\
  (continueOnError options = true ->
   e_file <$> results' = (e_file <$> results) ++ files) /\
  exists tried, tried `prefix_of` files /\ e_file <$> results' = (e_file <$> results) ++ tried.
Proof.
  induction files as [|file rest IH]; intros results successCount.
  - cbn. split; [lia|]. split; [split; [constructor | lia]|].
    split; [intros _; rewrite app_nil_r; reflexivity|].
    exists []. split; [reflexivity | rewrite app_nil_r; reflexivity].
  - cbn [validate_each length].
    destruct (validateFile (path_resolve cwd file)) as [error|result] eqn:Hv.
    + assert (Hn : ~ accepted file).
      { intros (r & Hr & _). unfold accepted in *. congruence. }
      destruct (continueOnError options) eqn:Hc; cbn [negb].
      * specialize (IH (results ++ [mkEntry file None (Some error) "error"]) successCount).
        destruct (validate_each _ _ rest options _ successCount) as [results' successCount'].
        destruct IH as (Hle & Hiff & Hall & (tried & Hpre & Htried)).
        rewrite fmap_app in Hall, Htried. cbn in Hall, Htried.
        rewrite <- app_assoc in Hall, Htried. cbn in Hall, Htried.
        split; [lia|]. split.
        -- split; [intros Heq; lia|]. intros Hf. apply Forall_cons in Hf.
           destruct Hf as [Hf _]. contradiction.
        -- split; [intros _; apply Hall; reflexivity|].
           exists (file :: tried). split; [apply prefix_cons; exact Hpre | exact Htried].
      * split; [lia|]. split.
        -- split; [intros Heq; lia|]. intros Hf. apply Forall_cons in Hf.
           destruct Hf as [Hf _]. contradiction.
        -- split; [discriminate|].
           exists [file]. split; [apply prefix_cons, prefix_nil|].
           rewrite fmap_app. reflexivity.
    + destruct (valid result) eqn:Hvalid.
      * specialize (IH (results ++ [mkEntry file (Some result) None "success"])
                       (successCount + 1)).
        destruct (validate_each _ _ rest options _ (successCount + 1))
          as [results' successCount'].
        destruct IH as (Hle & Hiff & Hall & (tried & Hpre & Htried)).
        rewrite fmap_app in Hall, Htried. cbn in Hall, Htried.
        rewrite <- app_assoc in Hall, Htried. cbn in Hall, Htried.
        split; [lia|]. split.
        -- rewrite Forall_cons. split.
           ++ intros Heq. split; [exists result; auto|]. apply Hiff. lia.
           ++ intros [_ Hrest]. apply Hiff in Hrest. lia.
        -- split; [exact Hall|].
           exists (file :: tried). split; [apply prefix_cons; exact Hpre | exact Htried].
      * assert (Hn : ~ accepted file).
        { intros (r & Hr & Hrv). rewrite Hv in Hr. injection Hr as <-. congruence. }
        destruct (continueOnError options) eqn:Hc; cbn [negb].
        -- specialize (IH (results ++ [mkEntry file (Some result) None "error"]) successCount).
           destruct (validate_each _ _ rest options _ successCount)
             as [results' successCount'].
           destruct IH as (Hle & Hiff & Hall & (tried & Hpre & Htried)).
           rewrite fmap_app in Hall, Htried. cbn in Hall, Htried.
           rewrite <- app_assoc in Hall, Htried. cbn in Hall, Htried.
           split; [lia|]. split.
           ++ split; [intros Heq; lia|]. intros Hf. apply Forall_cons in Hf.
              destruct Hf as [Hf _]. contradiction.
           ++ split; [intros _; apply Hall; reflexivity|].
              exists (file :: tried). split; [apply prefix_cons; exact Hpre | exact Htried].
        -- split; [lia|]. split.
           ++ split; [intros Heq; lia|]. intros Hf. apply Forall_cons in Hf.
              destruct Hf as [Hf _]. contradiction.
           ++ split; [discriminate|].
              exists [file]. split; [apply prefix_cons, prefix_nil|].
              rewrite fmap_app. reflexivity.
Qed.

(** X21.  The exit code of the [batch] command.  Whenever
    [validateBatch] reaches [process.exit], the code is 0 if every
    file was validated without exception and found valid, and 1
    otherwise, with or without [--continue-on-error] (which only
    decides whether the files after the first failure are looked
    at). *)
Theorem validateBatch_exit_code files options disk code disk' :
  validateBatch validateFile cwd toLowerCase json_stringify text_of sarif_of
                files options disk = inr (code, disk') ->
  (code = 0 <-> Forall accepted files) /\ (code = 0 \/ code = 1).
Proof.
  unfold validateBatch.
  pose proof (validate_each_count files options [] 0) as Hcount.
  destruct (validate_each validateFile cwd files options [] 0) as [results successCount].
  destruct Hcount as (Hle & Hiff & _).
  assert (Hcode : forall code0,
             code0 = (if Nat.eqb successCount (length files) then 0 else 1) ->
             (code0 = 0 <-> Forall accepted files) /\ (code0 = 0 \/ code0 = 1)).
  { intros code0 ->. rewrite <- Hiff. cbn [Nat.add].
    destruct (Nat.eqb_spec successCount (length files)) as [Heq|Hne].
    - split; [tauto | left; reflexivity].
    - split; [split; [discriminate | contradiction] | right; reflexivity]. }
  destruct (str_truthy (output options)).
  - destruct (saveBatchReport _ _ _ _ _ _ _ _) as [e|disk1]; [discriminate|].
    intros [= <- <-]. apply Hcode. reflexivity.
  - intros [= <- <-]. apply Hcode. reflexivity.
Qed.

(** X22.  A batch report can only be saved as JSON.  With [--output]
    and any format whose lower-case form is not ['json'] (the default
    ['text'] included), [saveBatchReport] hands the batch object to
    [generateTextReport] or [generateSARIFReport], which read
    [report.summary.total] and [report.errors]: a [TypeError] leaves
    [validateBatch], nothing is written and [process.exit] is not
    reached, whatever the files are. *)
Theorem batch_report_needs_json files options disk :
  str_truthy (output options) = true ->
  toLowerCase (format options) <> "json" ->
  exists msg,
    validateBatch validateFile cwd toLowerCase json_stringify text_of sarif_of
                  files options disk = inl (TypeError msg).
Proof.
  intros Hout Hfmt. unfold validateBatch.
  destruct (validate_each validateFile cwd files options [] 0) as [results successCount].
  rewrite Hout. unfold saveBatchReport, saveReport.
  apply String.eqb_neq in Hfmt. rewrite Hfmt.
  destruct (String.eqb (toLowerCase (format options)) "sarif"); cbn; eauto.
Qed.

(** X23.  Which files a batch run looks at: the entries of [results]
    follow the order of the command line and stop at the first file
    that is not accepted; with [--continue-on-error] every file has
    its entry. *)
Theorem validate_each_entries files options :
  let results := fst (validate_each validateFile cwd files options [] 0) in
  (e_file <$> results) `prefix_of` files /\
  (continueOnError options = true -> e_file <$> results = files).
Proof.
  pose proof (validate_each_count files options [] 0) as Hcount.
  destruct (validate_each validateFile cwd files options [] 0) as [results successCount].
  destruct Hcount as (_ & _ & Hall & (tried & Hpre & Htried)). cbn [fst].
  split; [rewrite Htried; exact Hpre | exact Hall].
Qed.

End Env.

#[local] Existing Instance SimplePosix.ops.

(** A validator that accepts every file but [bad.lmay]. *)
Definition toy_validate (filePath : string) : Exn + Results :=
  if String.eqb filePath "/p/bad.lmay"
  then inr (finalizeResults
              (mkResults false [finding "yaml_syntax_error" filePath] [] ∅))
  else inr (finalizeResults resetResults).

Definition toy_render (report : ReportObject) : string := "{}".

Lemma validateBatch_exit_code_witness :
  (1 = 0 <-> Forall (accepted toy_validate "/p") ["a.lmay"; "bad.lmay"; "c.lmay"])
  /\ (1 = 0 \/ 1 = 1).
Proof.
  apply (validateBatch_exit_code toy_validate "/p" id toy_render (fun _ => "") (fun _ => "")
           ["a.lmay"; "bad.lmay"; "c.lmay"] (mkBatchOptions "text" None true) ∅ 1 ∅).
  vm_compute. reflexivity.
Defined.

Lemma batch_report_needs_json_witness :
  exists msg,
    validateBatch toy_validate "/p" id toy_render (fun _ => "") (fun _ => "")
                  ["a.lmay"] (mkBatchOptions "text" (Some "report.txt") false) ∅
    = inl (TypeError msg).
Proof.
  apply (batch_report_needs_json toy_validate "/p" id toy_render (fun _ => "")
           (fun _ => "") ["a.lmay"] (mkBatchOptions "text" (Some "report.txt") false) ∅).
  - reflexivity.
  - discriminate.
Defined.

End BatchFacts.

(** ** More on the obsolescence analysis *)

Module AnalysisFacts.

Import Maintenance.

Local Open Scope Z_scope.

Section Env.
Context `{PathOps}.
Variable readFile : string -> option string.
Variable pathExists : string -> bool.
Variable extractFileReferences : string -> list string.
Variable now : Z.

(** X24.  A threshold that [parseInt] cannot read ([NaN]) disables
    the analysis: every file is reported valid, whatever its age, no
    file is read and no reference is looked up. *)
Theorem unreadable_threshold_accepts_all lmayFiles :
  analyzeObsolescence readFile pathExists extractFileReferences now lmayFiles None
  = Some (mkAnalysis [] [] lmayFiles).
Proof. apply MaintenanceFacts.nan_threshold_all_valid. Qed.

Lemma analyze_rejects days lmayFiles : forall analysis,
  analyze readFile pathExists extractFileReferences now (Some days) lmayFiles analysis = None
  <-> exists f, f ∈ lmayFiles /\ days * dayMs < now - modified f
                /\ readFile (path f) = None.
Proof.
  induction lmayFiles as [|f rest IH]; intros analysis.
  - cbn. split; [discriminate | intros (f & Hin & _); inversion Hin].
  - cbn [analyze is_stale].
    destruct (Z.ltb_spec (days * dayMs) (now - modified f)) as [Hs|Hs].
    + destruct (readFile (path f)) as [content|] eqn:Hr.
      * destruct (_ && _); rewrite IH; (split;
          [intros (g & Hin & Hg); exists g; split; [right; exact Hin | exact Hg]
          |intros (g & Hin & Hg & Hgr); apply elem_of_cons in Hin;
           destruct Hin as [-> | Hin]; [congruence | eauto]]).
      * split; [|reflexivity]. intros _. exists f. split; [left | auto].
    + rewrite IH. split.
      * intros (g & Hin & Hg). exists g. split; [right; exact Hin | exact Hg].
      * intros (g & Hin & Hg & Hgr). apply elem_of_cons in Hin.
        destruct Hin as [-> | Hin]; [lia | eauto].
Qed.

(** X25.  When the analysis fails.  With a numeric threshold
    [analyzeObsolescence] rejects exactly when some file over the
    threshold cannot be read; files within the threshold are never
    read, so an unreadable fresh file does no harm. *)
Theorem analysis_rejects_iff days lmayFiles :
  analyzeObsolescence readFile pathExists extractFileReferences now lmayFiles (Some days)
  = None
  <-> exists f, f ∈ lmayFiles /\ days * dayMs < now - modified f
                /\ readFile (path f) = None.
Proof. unfold analyzeObsolescence. apply analyze_rejects. Qed.

Lemma age_in_days_over days age : days * dayMs < age -> days <= age_in_days age.
Proof.
  intros Hover. unfold age_in_days, dayMs in *.
  apply Z.div_le_lower_bound; lia.
Qed.

Lemma analyze_ages days lmayFiles : forall analysis result,
  analyze readFile pathExists extractFileReferences now (Some days) lmayFiles analysis
  = Some result ->
  Forall (fun e => days <= age e) (obsolete analysis ++ outdated analysis) ->
  Forall (fun e => days <= age e) (obsolete result ++ outdated result).
Proof.
  induction lmayFiles as [|f rest IH]; intros analysis result.
  - cbn. intros [= <-]. auto.
  - cbn [analyze is_stale].
    destruct (Z.ltb_spec (days * dayMs) (now - modified f)) as [Hs|Hs].
    + destruct (readFile (path f)) as [content|]; [|discriminate].
      pose proof (age_in_days_over _ _ Hs) as Hage.
      destruct (_ && _); intros Hr Hall; apply (IH _ _ Hr); cbn [obsolete outdated];
        apply Forall_app in Hall; destruct Hall as [Ho Hu];
        rewrite !Forall_app; repeat split; try assumption;
        repeat constructor; exact Hage.
    + intros Hr Hall. apply (IH _ _ Hr). exact Hall.
Qed.

(** X26.  The ages reported.  Every entry of [obsolete] and
    [outdated] carries an age in days, rounded to the nearest day,
    that is at least the threshold: the file is older than the
    threshold to the millisecond, and [Math.round] never brings that
    below the threshold itself. *)
Theorem reported_ages_reach_threshold days lmayFiles result :
  analyzeObsolescence readFile pathExists extractFileReferences now lmayFiles (Some days)
  = Some result ->
  Forall (fun e => days <= age e) (obsolete result ++ outdated result).
Proof.
  unfold analyzeObsolescence. intros Hr.
  apply (analyze_ages _ _ _ _ Hr). constructor.
Qed.

End Env.

#[local] Existing Instance SimplePosix.ops.

Lemma reported_ages_reach_threshold_witness :
  Forall (fun e => 30 <= age e)
         (obsolete (mkAnalysis
                      [mkAged MaintenanceFacts.stale_broken
                              (Some "References non-existent files") 45]
                      [] [MaintenanceFacts.fresh])
            ++ outdated (mkAnalysis
                           [mkAged MaintenanceFacts.stale_broken
                                   (Some "References non-existent files") 45]
                           [] [MaintenanceFacts.fresh])).
Proof.
  apply (reported_ages_reach_threshold MaintenanceFacts.toy_read
           MaintenanceFacts.toy_exists_none MaintenanceFacts.toy_extract
           (MaintenanceFacts.day 100) 30
           [MaintenanceFacts.stale_broken; MaintenanceFacts.fresh]).
  vm_compute. reflexivity.
Defined.

End AnalysisFacts.

(** ** The success contract *)

Module CliFacts.

Import LMAYValidator.
Import Cli.








Section Env.
Context `{PathOps}.
Variable yaml_validateFile : string -> Yaml * Report.
Variable schema_validateLMAY : Yaml -> string -> Exn + Report.
Variable reference_validateProject : string -> string -> option Report.
Variable constructor_error : option Exn.
Variable cwd : string.
Variable toLowerCase : string -> string.
Variable json_stringify : Batch.ReportObject -> string.
Variable text_of : Results -> string.
Variable sarif_of : Results -> string.









End Env.

#[local] Existing Instance SimplePosix.ops.











End CliFacts.
